(** * external-dns RouterOS provider: wire codec, responses, connection reader,
      record translation and reconciliation.

    A shallow embedding of [external_dns_mikrotik_webhook/mikrotik.py] and
    [external_dns_mikrotik_webhook/provider.py].  Python exceptions are an
    explicit [Raise] outcome, mutated objects are passed as state, awaited
    socket reads take their bytes from an explicit buffer. *)

From Stdlib Require Import ZArith List String Ascii Bool Lia DecimalString.
From Stdlib Require Import DecimalZ.
From stdpp Require Import base option gmap strings list fin_maps.

Local Open Scope Z_scope.

(** ** Python exceptions and results *)

Inductive exn : Type :=
| RuntimeError (msg : string)
| ValueError (msg : string)
| TypeError
| KeyError (key : string)
| NotImplementedError
| OverflowError
| UnicodeEncodeError
| UnicodeDecodeError
| IncompleteReadError
| ResponseError (messages : list string)
| DeviceError (msg : string).

Inductive result (A : Type) : Type :=
| Ok (a : A)
| Raise (e : exn).

Arguments Ok {A} a.
Arguments Raise {A} e.

Definition rbind {A B : Type} (r : result A) (k : A -> result B) : result B :=
  match r with
  | Ok a => k a
  | Raise e => Raise e
  end.

#[global] Instance result_ret : MRet result := fun A a => Ok a.
#[global] Instance result_bind : MBind result := fun A B k r => rbind r k.

(** ** Wire codec (mikrotik.py, [write_word] and [read_word]) *)

Module Codec.

(** A Python [str] is a sequence of code points; [bytes] a sequence of
    integers in 0..255. *)
Definition pystr : Type := list Z.
Definition bytes : Type := list Z.

Definition len {A : Type} (l : list A) : Z := Z.of_nat (length l).

(** [str.encode()]: strict UTF-8; lone surrogates are refused. *)
Definition encode_char (c : Z) : result bytes :=
  if c <? 0x80 then Ok [c]
  else if c <? 0x800 then
    Ok [Z.lor 0xC0 (Z.shiftr c 6); Z.lor 0x80 (Z.land c 0x3F)]
  else if c <? 0x10000 then
    if (0xD800 <=? c) && (c <=? 0xDFFF) then Raise UnicodeEncodeError
    else Ok [Z.lor 0xE0 (Z.shiftr c 12);
             Z.lor 0x80 (Z.land (Z.shiftr c 6) 0x3F);
             Z.lor 0x80 (Z.land c 0x3F)]
  else
    Ok [Z.lor 0xF0 (Z.shiftr c 18);
        Z.lor 0x80 (Z.land (Z.shiftr c 12) 0x3F);
        Z.lor 0x80 (Z.land (Z.shiftr c 6) 0x3F);
        Z.lor 0x80 (Z.land c 0x3F)].

Fixpoint encode (s : pystr) : result bytes :=
  match s with
  | [] => Ok []
  | c :: s' =>
      b ← encode_char c;
      bs ← encode s';
      Ok (b ++ bs)
  end.

Definition is_cont (b : Z) : bool := (0x80 <=? b) && (b <=? 0xBF).

Definition cont_bits (b : Z) : Z := Z.land b 0x3F.

Definition scalar_ok (lo c : Z) : bool :=
  (lo <=? c) && (c <=? 0x10FFFF) && negb ((0xD800 <=? c) && (c <=? 0xDFFF)).

(** [bytes.decode()]: strict UTF-8; overlong forms, surrogates, values past
    U+10FFFF and truncated sequences are refused. *)
Fixpoint decode (bs : bytes) : result pystr :=
  match bs with
  | [] => Ok []
  | b0 :: r0 =>
      if b0 <? 0x80 then
        s ← decode r0; Ok (b0 :: s)
      else if (0xC0 <=? b0) && (b0 <? 0xE0) then
        match r0 with
        | b1 :: r1 =>
            let c := Z.lor (Z.shiftl (Z.land b0 0x1F) 6) (cont_bits b1) in
            if is_cont b1 && scalar_ok 0x80 c
            then s ← decode r1; Ok (c :: s)
            else Raise UnicodeDecodeError
        | _ => Raise UnicodeDecodeError
        end
      else if (0xE0 <=? b0) && (b0 <? 0xF0) then
        match r0 with
        | b1 :: b2 :: r2 =>
            let c := Z.lor (Z.shiftl (Z.land b0 0x0F) 12)
                       (Z.lor (Z.shiftl (cont_bits b1) 6) (cont_bits b2)) in
            if is_cont b1 && is_cont b2 && scalar_ok 0x800 c
            then s ← decode r2; Ok (c :: s)
            else Raise UnicodeDecodeError
        | _ => Raise UnicodeDecodeError
        end
      else if (0xF0 <=? b0) && (b0 <? 0xF8) then
        match r0 with
        | b1 :: b2 :: b3 :: r3 =>
            let c := Z.lor (Z.shiftl (Z.land b0 0x07) 18)
                       (Z.lor (Z.shiftl (cont_bits b1) 12)
                          (Z.lor (Z.shiftl (cont_bits b2) 6) (cont_bits b3))) in
            if is_cont b1 && is_cont b2 && is_cont b3 && scalar_ok 0x10000 c
            then s ← decode r3; Ok (c :: s)
            else Raise UnicodeDecodeError
        | _ => Raise UnicodeDecodeError
        end
      else Raise UnicodeDecodeError
  end.

(** [int.to_bytes(num_bytes, "big")]: the big-endian digits, or
    [OverflowError] when the value needs more than [num_bytes] bytes. *)
Fixpoint be_digits (num_bytes : nat) (n : Z) : bytes :=
  match num_bytes with
  | O => []
  | S k => Z.land (Z.shiftr n (8 * Z.of_nat k)) 0xFF :: be_digits k n
  end.

Definition to_bytes (n : Z) (num_bytes : nat) : result bytes :=
  if (0 <=? n) && (n <? 2 ^ (8 * Z.of_nat num_bytes))
  then Ok (be_digits num_bytes n)
  else Raise OverflowError.

(** The length prefix of [write_word] (lines 590-605), as a function of
    [len(word)]. *)
Definition encode_length (n : Z) : result bytes :=
  let '(mask, num_bytes) :=
    if n <=? 0x7F then (0x00, 1%nat)
    else if n <=? 0x3FFF then (0x8000, 2%nat)
    else if n <=? 0x1FFFFF then (0xC00000, 3%nat)
    else if n <=? 0xFFFFFFF then (0xE0000000, 4%nat)
    else (0xF000000000, 5%nat) in
  to_bytes (Z.lor mask n) num_bytes.

(** [write_word]: the bytes handed to [writer.write]. *)
Definition write_word (word : pystr) : result bytes :=
  encoded_length ← encode_length (len word);
  payload ← encode word;
  Ok (encoded_length ++ payload).

(** The socket as the reader sees it: the bytes that have arrived and
    whether the peer has closed its side. *)
Record StreamReader : Type := mkReader {
  buffer : bytes;
  at_eof : bool
}.

(** The outcome of an awaited read. *)
Inductive outcome (A : Type) : Type :=
| Done (a : A) (rest : StreamReader)
| Raised (e : exn)
| Waiting.

Arguments Done {A} a rest.
Arguments Raised {A} e.
Arguments Waiting {A}.

(** [reader.readexactly(n)] *)
Definition readexactly (n : Z) (r : StreamReader) : outcome bytes :=
  if n <=? len (buffer r) then
    Done (firstn (Z.to_nat n) (buffer r))
         (mkReader (skipn (Z.to_nat n) (buffer r)) (at_eof r))
  else if at_eof r then Raised IncompleteReadError
  else Waiting.

(** Python's [ord] on a [bytes] object: defined on length one only. *)
Definition ord (b : bytes) : result Z :=
  match b with
  | [x] => Ok x
  | _ => Raise TypeError
  end.

(** [read_word].  The first read runs under [asyncio.wait_for(..., 1)]: a
    read that is still waiting times out and the empty word is returned. *)
Definition read_word (r : StreamReader) : outcome pystr :=
  match readexactly 1 r with
  | Waiting => Done [] r
  | Raised e => Raised e
  | Done length r1 =>
      match ord length with
      | Raise e => Raised e
      | Ok header =>
          let num_bytes :=
            if Z.land header 0xF0 =? 0xF0 then 4
            else if Z.land header 0xE0 =? 0xE0 then 3
            else if Z.land header 0xC0 =? 0xC0 then 2
            else if Z.land header 0x80 =? 0x80 then 1
            else 0 in
          match readexactly num_bytes r1 with
          | Waiting => Waiting
          | Raised e => Raised e
          | Done more r2 =>
              match ord (length ++ more) with
              | Raise e => Raised e
              | Ok length' =>
                  match readexactly length' r2 with
                  | Waiting => Waiting
                  | Raised e => Raised e
                  | Done data r3 =>
                      match decode data with
                      | Raise e => Raised e
                      | Ok word => Done word r3
                      end
                  end
              end
          end
      end
  end.

(** The number of further length bytes that [read_word] asks for after
    the header byte. *)
Definition extra_length_bytes (header : Z) : Z :=
  if Z.land header 0xF0 =? 0xF0 then 4
  else if Z.land header 0xE0 =? 0xE0 then 3
  else if Z.land header 0xC0 =? 0xC0 then 2
  else if Z.land header 0x80 =? 0x80 then 1
  else 0.

(** Words of ASCII characters, which UTF-8 writes one byte each. *)
Definition ascii_word (w : pystr) : Prop := Forall (fun c => 0 <= c < 0x80) w.

(** A word on the wire followed by [rest], read back. *)
Definition read_back (word : pystr) (rest : bytes) (eof : bool) : result (outcome pystr) :=
  data ← write_word word;
  Ok (read_word (mkReader (data ++ rest) eof)).

End Codec.

(** ** State and exceptions

    A method that mutates [self] and may raise is a function from the
    object before the call to the outcome and the object after it.  A raise
    keeps the mutations made before it, as in Python. *)

Definition M (S A : Type) : Type := S -> result A * S.

#[global] Instance M_ret {S : Type} : MRet (M S) := fun A a s => (Ok a, s).
#[global] Instance M_bind {S : Type} : MBind (M S) := fun A B k m s =>
  match m s with
  | (Ok a, s') => k a s'
  | (Raise e, s') => (Raise e, s')
  end.

Definition raise {S A : Type} (e : exn) : M S A := fun s => (Raise e, s).
Definition gets {S A : Type} (f : S -> A) : M S A := fun s => (Ok (f s), s).
Definition modify {S : Type} (f : S -> S) : M S unit := fun s => (Ok tt, f s).
Definition lift {S A : Type} (r : result A) : M S A := fun s => (r, s).

(** [for x in l: body(x)] *)
Fixpoint for_each {S X : Type} (l : list X) (body : X -> M S unit) : M S unit :=
  match l with
  | [] => mret tt
  | x :: l' => body x ;; for_each l' body
  end.

(** ** The RouterOS client (mikrotik.py) *)

Module Mikrotik.

Local Open Scope string_scope.

Module IpDnsRecordType.
Inductive t : Type := A | AAAA | CNAME | FWD | MX | NS | NXDOMAIN | SRV | TXT.
End IpDnsRecordType.

(** The variant-specific fields of the discriminated union [IpDnsRecord]. *)
Inductive IpDnsRecordData : Type :=
| IpDnsARecord (address : string)
| IpDnsAaaaRecord (address : string)
| IpDnsCnameRecord (cname : string)
| IpDnsFwdRecord (forward_to : string)
| IpDnsMxRecord (mx_preference : Z) (mx_exchange : string)
| IpDnsNsRecord (ns : string)
| IpDnsNxdomainRecord
| IpDnsSrvRecord (srv_port srv_priority : Z) (srv_target : string) (srv_weight : Z)
| IpDnsTxtRecord (text : string).

(** [BaseIpDnsRecord] with the fields of the variant in [variant]. *)
Record IpDnsRecord : Type := mkIpDnsRecord {
  disabled : bool;
  id : option string;
  match_subdomain : bool;
  name : string;
  ttl : string;
  variant : IpDnsRecordData
}.

Definition IpDnsRecord_type (r : IpDnsRecord) : IpDnsRecordType.t :=
  match variant r with
  | IpDnsARecord _ => IpDnsRecordType.A
  | IpDnsAaaaRecord _ => IpDnsRecordType.AAAA
  | IpDnsCnameRecord _ => IpDnsRecordType.CNAME
  | IpDnsFwdRecord _ => IpDnsRecordType.FWD
  | IpDnsMxRecord _ _ => IpDnsRecordType.MX
  | IpDnsNsRecord _ => IpDnsRecordType.NS
  | IpDnsNxdomainRecord => IpDnsRecordType.NXDOMAIN
  | IpDnsSrvRecord _ _ _ _ => IpDnsRecordType.SRV
  | IpDnsTxtRecord _ => IpDnsRecordType.TXT
  end.

Record Request : Type := mkRequest {
  tag : string;
  words : list string
}.

Record ResponseSentence : Type := mkResponseSentence {
  api_attributes : gmap string string;
  attributes : gmap string string;
  type : string
}.

(** [ResponseSentence(type)] *)
Definition new_sentence (type : string) : ResponseSentence :=
  mkResponseSentence ∅ ∅ type.

Inductive ResponseStatus : Type := InProgress | Error | Success.

(** [completion_event] is the [asyncio.Event]'s flag. *)
Record Response : Type := mkResponse {
  completion_event : bool;
  request : Request;
  sentences : list ResponseSentence;
  status : ResponseStatus
}.

(** [Response(request)] *)
Definition new_response (request : Request) : Response :=
  mkResponse false request [] InProgress.

Definition set_completion_event (b : bool) (self : Response) : Response :=
  mkResponse b (request self) (sentences self) (status self).
Definition set_sentences (l : list ResponseSentence) (self : Response) : Response :=
  mkResponse (completion_event self) (request self) l (status self).
Definition set_status (st : ResponseStatus) (self : Response) : Response :=
  mkResponse (completion_event self) (request self) (sentences self) st.

Definition is_complete (self : Response) : bool := completion_event self.

(** [wait_until_complete()] without timeout returns exactly when the event
    is set. *)
Definition wait_until_complete_returns (self : Response) : bool :=
  completion_event self.

Definition update_with_sentence (sentence : ResponseSentence) : M Response unit :=
  complete ← gets is_complete;
  if (complete : bool) then raise (RuntimeError "response is complete")
  else
    modify (fun self => set_sentences (sentences self ++ [sentence])%list self);;
    if String.eqb (type sentence) "!trap" then
      modify (set_status Error)
    else if String.eqb (type sentence) "!done" then
      st ← gets status;
      match st with
      | InProgress => modify (set_status Success)
      | _ => mret tt
      end;;
      modify (set_completion_event true)
    else mret tt.

Definition cancel : M Response unit :=
  complete ← gets is_complete;
  if (complete : bool) then raise (RuntimeError "rresponse is complete")
  else
    let sentence := new_sentence "!trap" in
    let sentence :=
      mkResponseSentence (api_attributes sentence)
        (<["message" := "response cancelled"]> (attributes sentence))
        (type sentence) in
    update_with_sentence sentence.

Definition get_data (self : Response) : result (list (gmap string string)) :=
  if negb (is_complete self) then Raise (RuntimeError "response in progress")
  else match status self with
       | Success =>
           Ok (map attributes
                 (filter (fun s => type s = "!re") (sentences self)))
       | _ => Raise (RuntimeError "response not success")
       end.

Definition get_error_data (self : Response) : result (list (gmap string string)) :=
  if negb (is_complete self) then Raise (RuntimeError "response in progress")
  else match status self with
       | Error =>
           Ok (map attributes
                 (filter (fun s => type s = "!trap") (sentences self)))
       | _ => Raise (RuntimeError "response not error")
       end.

(** The messages [ResponseError.__init__] collects. *)
Definition error_messages (self : Response) : result (list string) :=
  error_data ← get_error_data self;
  Ok (map (fun d => default "unknown error" (d !! "message")) error_data).

Definition raise_for_error (self : Response) : result unit :=
  if negb (is_complete self) then Raise (RuntimeError "response in progress")
  else match status self with
       | Error => messages ← error_messages self; Raise (ResponseError messages)
       | _ => Ok tt
       end.

(** The response after a caller has passed it the sentences one by one,
    going on to the next sentence when a call raised. *)
Definition apply_sentences (incoming : list ResponseSentence) (self : Response)
  : Response :=
  fold_left (fun r sentence => snd (update_with_sentence sentence r)) incoming self.

(** Observations on a response and its sentences. *)
Definition is_trap (s : ResponseSentence) : bool := String.eqb (type s) "!trap".
Definition is_done (s : ResponseSentence) : bool := String.eqb (type s) "!done".

Definition has_trap (l : list ResponseSentence) : bool := existsb is_trap l.

Definition ends_with_done (l : list ResponseSentence) : bool :=
  match last l with
  | Some s => is_done s
  | None => false
  end.

(** The sentences that a fresh response takes of [incoming]: those up to
    and including the first [!done]. *)
Fixpoint up_to_done (incoming : list ResponseSentence) : list ResponseSentence :=
  match incoming with
  | [] => []
  | s :: incoming' => if is_done s then [s] else s :: up_to_done incoming'
  end.

(** The sentence [cancel] makes up. *)
Definition cancel_sentence : ResponseSentence :=
  mkResponseSentence ∅ (<["message" := "response cancelled"]> ∅) "!trap".

(** How the fields of a response hang together as long as it is only
    changed through [update_with_sentence]. *)
Definition consistent (r : Response) : Prop :=
  completion_event r = ends_with_done (sentences r) /\
  status r =
    if has_trap (sentences r) then Error
    else if completion_event r then Success else InProgress.

(** The pair [asyncio.open_connection] returns, as the endpoint it is
    connected to. *)
Record Stream : Type := mkStream {
  peer_host : string;
  peer_port : Z
}.

(** The fields of [Connection] that the reader task uses; the task list
    and the lock are asyncio objects and are left out. *)
Record Connection : Type := mkConnection {
  closed_event : bool;
  host : string;
  idle_since : Z;
  idle_timeout : Z;
  password : string;
  responses : gmap string Response;
  stream : option Stream;
  username : string
}.

Definition set_idle_since (now : Z) (self : Connection) : Connection :=
  mkConnection (closed_event self) (host self) now (idle_timeout self)
    (password self) (responses self) (stream self) (username self).
Definition set_responses (rs : gmap string Response) (self : Connection) : Connection :=
  mkConnection (closed_event self) (host self) (idle_since self) (idle_timeout self)
    (password self) rs (stream self) (username self).

(** One pass of [Connection.read].  [now] is the clock and [incoming] is
    what [await read_sentence(reader)] evaluates to; neither is looked at
    when there is no stream.  The response updated is the object stored in
    [responses], so the dictionary sees the update even when it raises. *)
Definition read (now : Z) (incoming : result (option ResponseSentence))
  : M Connection unit :=
  s ← gets stream;
  match s with
  | None => mret tt
  | Some _ =>
      sentence ← lift incoming;
      match sentence with
      | None => mret tt
      | Some sentence =>
          modify (set_idle_since now);;
          match api_attributes sentence !! ".tag" with
          | None => raise (RuntimeError "tag not found")
          | Some tag =>
              rs ← gets responses;
              match rs !! tag with
              | None => raise (KeyError tag)
              | Some response =>
                  let '(outcome, response) := update_with_sentence sentence response in
                  modify (set_responses (<[tag := response]> rs));;
                  lift outcome;;
                  if is_complete response
                  then modify (fun self => set_responses (delete tag (responses self)) self)
                  else mret tt
              end
          end
      end
  end.

(** How the reader task stands after the reads so far. *)
Inductive TaskState : Type :=
| TaskRunning
| TaskFinished
| TaskFailed (e : exn).

(** [run_background_read] over the successive results of [read_sentence],
    each with the time it arrived.  An exception leaves the loop and ends
    the task; nothing in the class catches it. *)
Fixpoint run_background_read
  (inputs : list (Z * result (option ResponseSentence)))
  (self : Connection) : TaskState * Connection :=
  if closed_event self then (TaskFinished, self)
  else match stream self, inputs with
       | None, _ => (TaskRunning, self)
       | Some _, [] => (TaskRunning, self)
       | Some _, (now, incoming) :: inputs' =>
           match read now incoming self with
           | (Ok _, self') => run_background_read inputs' self'
           | (Raise e, self') => (TaskFailed e, self')
           end
       end.


(** An open connection with one request in flight, and a [!re] sentence
    that carries no [.tag]. *)
Definition sample_connection : Connection :=
  mkConnection false "192.168.88.1" 0 10 "secret"
    {[ "t1" := new_response (mkRequest "t1" ["/ip/dns/static/print"; "=detail="]) ]}
    (Some (mkStream "192.168.88.1" 8728)) "admin".

Definition untagged_sentence : ResponseSentence :=
  mkResponseSentence ∅ {[ "name" := "svc.lan" ]} "!re".

(** Values that [to_word_value] is given. *)
Inductive pyval : Type :=
| PyNone
| PyBool (b : bool)
| PyInt (z : Z)
| PyStr (s : string).

(** [str(n)] for an [int]. *)
Definition str_of_int (z : Z) : string := NilZero.string_of_int (Z.to_int z).

Definition to_word_value (value : pyval) : string :=
  match value with
  | PyNone => EmptyString
  | PyBool b => if b then "true" else "false"
  | PyInt z => str_of_int z
  | PyStr s => s
  end.

Definition startswith (prefix s : string) : bool := String.prefix prefix s.

(** A [dict] is walked in insertion order: a list of items. *)
Definition to_attribute_words (val : list (string * pyval)) : list string :=
  map (fun '(key, value) => "=" ++ key ++ "=" ++ to_word_value value) val.

Fixpoint to_api_attribute_words (val : list (string * pyval)) : result (list string) :=
  match val with
  | [] => Ok []
  | (key, value) :: val' =>
      if negb (startswith "." key)
      then Raise (ValueError ("key missing . prefix: " ++ key))
      else
        words ← to_api_attribute_words val';
        Ok ((key ++ "=" ++ to_word_value value) :: words)
  end.

(** [Request.get_sentence] *)
Definition get_sentence (self : Request) : result (list string) :=
  tag_words ← to_api_attribute_words [(".tag", PyStr (tag self))];
  Ok (words self ++ tag_words ++ [EmptyString])%list.

End Mikrotik.

(** ** The external-dns provider (provider.py)

    provider.py takes the record classes and the client from the pykrotik
    package.  The records are modelled by the classes of mikrotik.py, with
    a constructor that builds the record from its fields; the client by
    the three methods that [Provider] calls. *)

Module Provider.

Import Mikrotik.
Local Open Scope string_scope.
Local Open Scope Z_scope.

Module RecordType.
Inductive t : Type := A | AAAA | CNAME | TXT | SRV | NS | PTR | MX | NAPTR.
End RecordType.

Record ProviderSpecificItem : Type := mkProviderSpecificItem {
  item_name : string;
  item_value : string
}.

Record Endpoint : Type := mkEndpoint {
  dns_name : string;
  targets : list string;
  record_type : RecordType.t;
  set_identifier : option string;
  record_ttl : option Z;
  labels : option (gmap string string);
  provider_specific : option (list ProviderSpecificItem)
}.

Record Changes : Type := mkChanges {
  create : option (list Endpoint);
  update_old : option (list Endpoint);
  update_new : option (list Endpoint);
  delete : option (list Endpoint)
}.

(** *** RecordMap *)

Record RecordMap : Type := mkRecordMap {
  data : gmap string (list IpDnsRecord)
}.

(** [self.data.setdefault(record.name, []).append(record)] *)
Definition index_step (data : gmap string (list IpDnsRecord)) (record : IpDnsRecord)
  : gmap string (list IpDnsRecord) :=
  <[name record := (default [] (data !! name record) ++ [record])%list]> data.

(** [RecordMap.__init__]: the step above for each record in turn. *)
Definition RecordMap_init (records : list IpDnsRecord) : RecordMap :=
  mkRecordMap (fold_left index_step records ∅).

(** The test made on each item by the loop of [RecordMap.find]. *)
Definition item_matches (target : string) (item : IpDnsRecord) : bool :=
  match variant item with
  | IpDnsARecord address => String.eqb address target
  | IpDnsCnameRecord cname => String.eqb cname target
  | IpDnsTxtRecord text => String.eqb text target
  | _ => false
  end.

Fixpoint first_match (target : string) (items : list IpDnsRecord) : option IpDnsRecord :=
  match items with
  | [] => None
  | item :: items' =>
      if item_matches target item then Some item else first_match target items'
  end.

Definition find (self : RecordMap) (endpoint : Endpoint) (target : string)
  : option IpDnsRecord :=
  first_match target (default [] (data self !! dns_name endpoint)).

(** *** TTL conversion *)

(** [datetime.timedelta(seconds=n)] for an integer [n]: the normalised
    [(days, seconds)] with [0 <= seconds < 86400], refused with
    [OverflowError] when [days] leaves [-999999999 .. 999999999]. *)
Definition timedelta (seconds : Z) : result (Z * Z) :=
  let days := seconds / 86400 in
  if (-999999999 <=? days) && (days <=? 999999999)
  then Ok (days, seconds mod 86400)
  else Raise OverflowError.

(** [to_routeros_ttl].  [int(x / y)] divides in floating point and
    truncates; on the operands a [timedelta] can hold (below 2^30) the
    quotient is exact to well under one unit, so this is the integer
    quotient rounded toward zero.  [%] is Python's floor modulo. *)
Definition to_routeros_ttl (external_dns_ttl : Z) : result string :=
  '(td_days, td_seconds) ← timedelta external_dns_ttl;
  let w := Z.quot td_days 7 in
  let d := td_days mod 7 in
  let h := Z.quot td_seconds (60 * 60) in
  let m := Z.quot (td_seconds mod (60 * 60)) 60 in
  let s := td_seconds mod 60 in
  Ok (str_of_int w ++ "w" ++ str_of_int d ++ "d" ++ str_of_int h ++ "h"
        ++ str_of_int m ++ "m" ++ str_of_int s ++ "s").

Definition is_digit (c : ascii) : bool :=
  match uint_of_char c (Some Decimal.Nil) with
  | Some _ => true
  | None => false
  end.

(** The longest run of [[0-9]] at the head of [s], and what follows it. *)
Fixpoint span_digits (s : string) : string * string :=
  match s with
  | EmptyString => (EmptyString, EmptyString)
  | String c s' =>
      if is_digit c
      then let '(digits, rest) := span_digits s' in (String c digits, rest)
      else (EmptyString, s)
  end.

(** One optional group [(?P<key>[0-9]+key)?] of the pattern, tried at the
    head of [s]: the text of the group when it takes part, and the rest.
    The digit run is matched greedily and giving digits back can never
    help, since the letter must follow a digit run. *)
Definition match_group (key : ascii) (s : string) : option string * string :=
  match span_digits s with
  | (String c digits, String k rest) =>
      if Ascii.eqb k key
      then (Some (String c digits ++ String key EmptyString), rest)
      else (None, s)
  | _ => (None, s)
  end.

(** [s.replace(key, empty)] for a one-character [key]. *)
Fixpoint remove_char (key : ascii) (s : string) : string :=
  match s with
  | EmptyString => EmptyString
  | String c s' =>
      if Ascii.eqb c key then remove_char key s' else String c (remove_char key s')
  end.

(** [int(s)] on a string of decimal digits.  (CPython's cap on the number
    of digits is far above anything a TTL segment holds and is left out.) *)
Definition int_of_digits (s : string) : result Z :=
  match NilZero.uint_of_string s with
  | Some u => Ok (Z.of_uint u)
  | None => Raise (ValueError s)
  end.

Definition to_external_dns_ttl (mikrotik_ttl : string) : result Z :=
  let '(group_w, rest) := match_group "w" mikrotik_ttl in
  let '(group_d, rest) := match_group "d" rest in
  let '(group_h, rest) := match_group "h" rest in
  let '(group_m, rest) := match_group "m" rest in
  let '(group_s, rest) := match_group "s" rest in
  let part (key : ascii) (group : option string) : result Z :=
    let str_val := default (String "0" (String key EmptyString)) group in
    int_of_digits (remove_char key str_val) in
  w ← part "w"%char group_w;
  d ← part "d"%char group_d;
  h ← part "h"%char group_h;
  m ← part "m"%char group_m;
  s ← part "s"%char group_s;
  Ok (s + m * 60 + h * 60 * 60 + d * 60 * 60 * 24 + w * 60 * 60 * 24 * 7).

(** [text] is the decimal writing of the natural number [z]. *)
Definition renders (z : Z) (text : string) : Prop :=
  exists u, u <> Decimal.Nil /\ text = NilEmpty.string_of_uint u /\ Z.of_uint u = z.

(** The first TTL that [datetime.timedelta] refuses: 10^9 days. *)
Definition timedelta_limit : Z := 86400 * 1000000000.

(** *** Endpoint to record *)

(** [x or 60 * 60 * 24] on an optional integer. *)
Definition ttl_or_default (record_ttl : option Z) : Z :=
  match record_ttl with
  | None => 60 * 60 * 24
  | Some n => if n =? 0 then 60 * 60 * 24 else n
  end.

(** [to_routeros_record].  The keyword arguments, the TTL among them, are
    evaluated before the record type is looked at; [dynamic] is not a field
    of the record and leaves no trace in it. *)
Definition to_routeros_record (endpoint : Endpoint) (target : string)
  : result IpDnsRecord :=
  ttl ← to_routeros_ttl (ttl_or_default (record_ttl endpoint));
  let record data :=
    mkIpDnsRecord false None (startswith "*." target) (dns_name endpoint) ttl data in
  match record_type endpoint with
  | RecordType.A => Ok (record (IpDnsARecord target))
  | RecordType.CNAME => Ok (record (IpDnsCnameRecord target))
  | RecordType.TXT => Ok (record (IpDnsTxtRecord target))
  | _ => Raise NotImplementedError
  end.

(** *** The device client and the calls made on it *)

(** The three methods of the client that [Provider] uses, over a device
    state [D] that each call may change and that decides whether the call
    raises. *)
Record MikrotikClient (D : Type) : Type := mkMikrotikClient {
  list_ip_dns_records : M D (list IpDnsRecord);
  add_ip_dns_record : IpDnsRecord -> M D unit;
  delete_ip_dns_record : IpDnsRecord -> M D unit
}.

Arguments list_ip_dns_records {D} _.
Arguments add_ip_dns_record {D} _ _.
Arguments delete_ip_dns_record {D} _ _.

Inductive DeviceCall : Type :=
| CallList
| CallAdd (record : IpDnsRecord)
| CallDelete (record : IpDnsRecord).

(** The device together with the log of the calls made on it so far. *)
Record World (D : Type) : Type := mkWorld {
  device : D;
  calls : list DeviceCall
}.

Arguments mkWorld {D} _ _.
Arguments device {D} _.
Arguments calls {D} _.

(** A client call, logged whether or not it raises. *)
Definition call {D A : Type} (c : DeviceCall) (m : M D A) : M (World D) A :=
  fun w =>
    let '(r, d) := m (device w) in
    (r, mkWorld d (calls w ++ [c])%list).

(** [with log_action(...)]: an [Exception] raised in the body is logged and
    swallowed. *)
Definition log_action {S : Type} (body : M S unit) : M S unit :=
  fun s => let '(_, s') := body s in (Ok tt, s').

(** The order in which Python walks [set(a) - set(b)]: some listing of the
    members of [a] that are not in [b], each once. *)
Record SetOrder : Type := mkSetOrder {
  iter_diff : list string -> list string -> list string;
  iter_diff_NoDup : forall a b, NoDup (iter_diff a b);
  iter_diff_elem : forall a b x, x ∈ iter_diff a b <-> x ∈ a /\ x ∉ b
}.

Section apply_changes.

Context {D : Type} (client : MikrotikClient D) (order : SetOrder).

(** The body of the two loops that delete. *)
Definition delete_target (record_map : RecordMap) (endpoint : Endpoint)
  (target : string) : M (World D) unit :=
  log_action
    match find record_map endpoint target with
    | None => mret tt
    | Some record => call (CallDelete record) (delete_ip_dns_record client record)
    end.

(** The body of the two loops that add. *)
Definition create_target (endpoint : Endpoint) (target : string) : M (World D) unit :=
  log_action
    (record ← lift (to_routeros_record endpoint target);
     call (CallAdd record) (add_ip_dns_record client record)).

Definition apply_changes (changes : Changes) : M (World D) unit :=
  let creates := default [] (create changes) in
  let update_olds := default [] (update_old changes) in
  let update_news := default [] (update_new changes) in
  let updates := zip update_olds update_news in
  let deletes := default [] (delete changes) in
  records ← call CallList (list_ip_dns_records client);
  let record_map := RecordMap_init records in
  for_each creates (fun endpoint =>
    for_each (targets endpoint) (fun target =>
      create_target endpoint target));;
  for_each deletes (fun endpoint =>
    for_each (targets endpoint) (fun target =>
      delete_target record_map endpoint target));;
  for_each updates (fun '(old_endpoint, endpoint) =>
    for_each (iter_diff order (targets old_endpoint) (targets endpoint))
      (fun target => delete_target record_map endpoint target);;
    for_each (iter_diff order (targets endpoint) (targets old_endpoint))
      (fun target => create_target endpoint target)).

End apply_changes.

(** *** The calls a batch leads to, stated without the device

    These follow the description of [apply_changes] rather than its code,
    to be compared with the log that the code leaves. *)

(** The variant payload that [RecordMap.find] compares with the target. *)
Definition payload (record : IpDnsRecord) : option string :=
  match variant record with
  | IpDnsARecord address => Some address
  | IpDnsCnameRecord cname => Some cname
  | IpDnsTxtRecord text => Some text
  | _ => None
  end.

Definition has_payload (target : string) (record : IpDnsRecord) : Prop :=
  payload record = Some target.

Definition supported (record_type : RecordType.t) : bool :=
  match record_type with
  | RecordType.A | RecordType.CNAME | RecordType.TXT => true
  | _ => false
  end.

(** An add for a target that translates, nothing for one that does not. *)
Definition add_call (endpoint : Endpoint) (target : string) : list DeviceCall :=
  match to_routeros_record endpoint target with
  | Ok record => [CallAdd record]
  | Raise _ => []
  end.

(** A delete for a target that is found, nothing for one that is not. *)
Definition delete_call (record_map : RecordMap) (endpoint : Endpoint)
  (target : string) : list DeviceCall :=
  match find record_map endpoint target with
  | Some record => [CallDelete record]
  | None => []
  end.

Definition create_calls (creates : list Endpoint) : list DeviceCall :=
  flat_map (fun endpoint => flat_map (add_call endpoint) (targets endpoint)) creates.

Definition delete_calls (record_map : RecordMap) (deletes : list Endpoint)
  : list DeviceCall :=
  flat_map (fun endpoint => flat_map (delete_call record_map endpoint) (targets endpoint))
    deletes.

(** For one pair: the removed targets, looked up under the new endpoint,
    then the added targets. *)
Definition update_calls (order : SetOrder) (record_map : RecordMap)
  (old_endpoint endpoint : Endpoint) : list DeviceCall :=
  (flat_map (delete_call record_map endpoint)
     (iter_diff order (targets old_endpoint) (targets endpoint))
   ++ flat_map (add_call endpoint)
        (iter_diff order (targets endpoint) (targets old_endpoint)))%list.

Definition expected_calls (order : SetOrder) (changes : Changes)
  (record_map : RecordMap) : list DeviceCall :=
  (create_calls (default [] (create changes))
   ++ delete_calls record_map (default [] (delete changes))
   ++ flat_map (fun '(old_endpoint, endpoint) =>
                  update_calls order record_map old_endpoint endpoint)
        (zip (default [] (update_old changes)) (default [] (update_new changes))))%list.




(** Whether [RecordMap.find] returns a record. *)
Definition found (record_map : RecordMap) (endpoint : Endpoint) (target : string) : bool :=
  bool_decide (is_Some (find record_map endpoint target)).





(** A computation that returns normally, whatever the device does, and
    makes exactly the calls [cs]. *)
Definition steady {D : Type} (body : M (World D) unit) (cs : list DeviceCall) : Prop :=
  forall w, exists d, body w = (Ok tt, mkWorld d (calls w ++ cs)%list).

(** *** Stand-ins for the examples *)

(** Sets walked in the order of first occurrence. *)
Definition first_occurrence_order : SetOrder :=
  mkSetOrder
    (fun a b => remove_dups (list_difference a b))
    (fun a b => NoDup_remove_dups (list_difference a b))
    (fun a b x =>
       iff_trans (elem_of_remove_dups (list_difference a b) x)
         (list_elem_of_difference a b x)).

(** A device that lists [records] and answers every add and delete with a
    trap. *)
Definition trapping_client (records : list IpDnsRecord) : MikrotikClient unit :=
  mkMikrotikClient unit
    (fun d => (Ok records, d))
    (fun _ d => (Raise (ResponseError ["failure"]), d))
    (fun _ d => (Raise (ResponseError ["no such item"]), d)).

(** A device that lists [records] and accepts every add and delete. *)
Definition accepting_client (records : list IpDnsRecord) : MikrotikClient unit :=
  mkMikrotikClient unit
    (fun d => (Ok records, d))
    (fun _ d => (Ok tt, d))
    (fun _ d => (Ok tt, d)).

(** A device list of two A records and a batch over it: a create with a
    supported and an unsupported endpoint, a delete with a listed and an
    unlisted target, and an update that swaps one of two targets. *)
Definition sample_records : list IpDnsRecord :=
  [mkIpDnsRecord false (Some "*1") false "svc.lan" "0w1d0h0m0s" (IpDnsARecord "10.0.0.5");
   mkIpDnsRecord false (Some "*2") false "svc.lan" "0w1d0h0m0s" (IpDnsARecord "10.0.0.6")].

Definition sample_changes : Changes :=
  mkChanges
    (Some [mkEndpoint "new.lan" ["10.0.1.1"; "10.0.1.2"] RecordType.A None (Some 3600) None None;
           mkEndpoint "v6.lan" ["fd00::5"] RecordType.AAAA None None None None])
    (Some [mkEndpoint "svc.lan" ["10.0.0.5"; "10.0.0.6"] RecordType.A None None None None])
    (Some [mkEndpoint "svc.lan" ["10.0.0.5"; "10.0.0.7"] RecordType.A None None None None])
    (Some [mkEndpoint "svc.lan" ["10.0.0.5"; "10.0.0.9"] RecordType.A None None None None]).

End Provider.

(** ** Sentences on the wire (mikrotik.py, [write_sentence] and the word
       loop of [read_sentence]) *)

Module Framing.

Import Codec.

(** [write_word] on a writer: [writer.write] appends to what has been
    written so far. *)
Definition write_word_to (word : pystr) : M bytes unit :=
  data ← lift (write_word word);
  modify (fun written => written ++ data).

(** [write_sentence]: the words one after the other. *)
Definition write_sentence (sentence : list pystr) : M bytes unit :=
  for_each sentence write_word_to.

(** The words that the [while True] loop of [read_sentence] reads: up to,
    and without, the first empty word.  Every turn of the loop that goes
    on has taken at least the header byte from the buffer, so [fuel] turns
    are enough when [fuel] exceeds the number of bytes buffered. *)
Fixpoint read_words_fuel (fuel : nat) (r : StreamReader) : outcome (list pystr) :=
  match fuel with
  | O => Waiting
  | S fuel' =>
      match read_word r with
      | Done [] r' => Done [] r'
      | Done word r' =>
          match read_words_fuel fuel' r' with
          | Done words r'' => Done (word :: words) r''
          | Raised e => Raised e
          | Waiting => Waiting
          end
      | Raised e => Raised e
      | Waiting => Waiting
      end
  end.

Definition read_words (r : StreamReader) : outcome (list pystr) :=
  read_words_fuel (S (length (buffer r))) r.

(** The integer that the bytes denote, most significant byte first. *)
Definition from_bytes_be (bs : bytes) : Z :=
  fold_left (fun acc b => acc * 256 + b) bs 0.

(** The mask that [write_word] uses for a prefix of the given number of
    bytes. *)
Definition prefix_mask (num_bytes : Z) : Z :=
  if num_bytes =? 1 then 0x00
  else if num_bytes =? 2 then 0x8000
  else if num_bytes =? 3 then 0xC00000
  else if num_bytes =? 4 then 0xE0000000
  else 0xF000000000.

(** The number of bytes of the prefix for a word of [n] characters. *)
Definition prefix_size (n : Z) : Z :=
  if n <=? 0x7F then 1
  else if n <=? 0x3FFF then 2
  else if n <=? 0x1FFFFF then 3
  else if n <=? 0xFFFFFFF then 4
  else 5.

(** Words that the reader takes as they were written: ASCII, not empty
    and at most 0x7F characters long. *)
Definition plain_word (w : pystr) : Prop :=
  ascii_word w /\ 1 <= len w <= 0x7F.

(** The bytes of a sentence of plain words: each word after its length. *)
Definition frames (ws : list pystr) : bytes :=
  flat_map (fun w => len w :: w) ws.

End Framing.

(** ** Reading a sentence (mikrotik.py, [read_sentence]) *)

Module Parsing.

Import Mikrotik.
Local Open Scope string_scope.

(** [s.split("=")]: the pieces between the equals signs, at least one. *)
Fixpoint split_eq (s : string) : list string :=
  match s with
  | EmptyString => [EmptyString]
  | String c s' =>
      if Ascii.eqb c "=" then EmptyString :: split_eq s'
      else match split_eq s' with
           | first :: others => String c first :: others
           | [] => [String c EmptyString]
           end
  end.

(** ["=".join(l)] *)
Fixpoint join_eq (l : list string) : string :=
  match l with
  | [] => EmptyString
  | [piece] => piece
  | piece :: l' => piece ++ "=" ++ join_eq l'
  end.

(** [word[1:]] *)
Definition drop_first (word : string) : string :=
  match word with
  | EmptyString => EmptyString
  | String _ rest => rest
  end.

Definition set_attribute (key value : string) (s : ResponseSentence) : ResponseSentence :=
  mkResponseSentence (api_attributes s) (<[key := value]> (attributes s)) (type s).
Definition set_api_attribute (key value : string) (s : ResponseSentence) : ResponseSentence :=
  mkResponseSentence (<[key := value]> (api_attributes s)) (attributes s) (type s).

(** The loop of [read_sentence] over what the successive [read_word] calls
    give: a word, or the exception that [read_word] raised.  After the last
    word given the socket is silent, and [read_word] returns the empty word
    on its timeout, which ends the loop.  [sentence] is the loop's variable
    of that name. *)
Fixpoint read_sentence_from (sentence : option ResponseSentence)
  (words : list (result string)) : result (option ResponseSentence) :=
  match words with
  | [] => Ok sentence
  | Raise e :: _ => Raise e
  | Ok word :: words' =>
      if String.eqb word EmptyString then Ok sentence
      else if startswith "!" word then
        read_sentence_from (Some (new_sentence word)) words'
      else
        match sentence with
        | None => read_sentence_from None words'
        | Some s =>
            if startswith "=" word then
              let parts := split_eq (drop_first word) in
              let key := hd EmptyString parts in
              let value := join_eq (tl parts) in
              read_sentence_from (Some (set_attribute key value s)) words'
            else if startswith "." word then
              match split_eq word with
              | [key; tag] =>
                  read_sentence_from (Some (set_api_attribute key tag s)) words'
              | [_] => Raise (ValueError "not enough values to unpack (expected 2, got 1)")
              | _ => Raise (ValueError "too many values to unpack (expected 2)")
              end
            else read_sentence_from sentence words'
        end
  end.

Definition read_sentence (words : list (result string)) : result (option ResponseSentence) :=
  read_sentence_from None words.

(** Strings without an equals sign. *)
Fixpoint no_eq (s : string) : bool :=
  match s with
  | EmptyString => true
  | String c s' => negb (Ascii.eqb c "=") && no_eq s'
  end.

(** The words of a response sentence as the device would send it for the
    attributes [attrs] and the tag: type, attribute words, tag word, and
    the empty word. *)
Definition sentence_words (type : string) (attrs : list (string * pyval))
  (tag : string) : list (result string) :=
  map Ok (type :: to_attribute_words attrs
            ++ [String.append ".tag=" tag; EmptyString])%list.

(** The attribute values as the strings that go on the wire. *)
Definition word_values (attrs : list (string * pyval)) : list (string * string) :=
  map (fun '(key, value) => (key, to_word_value value)) attrs.

End Parsing.

(** ** What a response hands to its caller *)

Module Accessors.

Import Mikrotik.
Local Open Scope string_scope.

(** The attribute mappings of the [!re] sentences among [l], in order. *)
Definition data_of (l : list ResponseSentence) : list (gmap string string) :=
  map attributes (filter (fun s => type s = "!re") l).

(** The messages of the [!trap] sentences among [l], in order, with the
    default of [ResponseError] for a trap without one. *)
Definition messages_of (l : list ResponseSentence) : list string :=
  map (fun s => default "unknown error" (attributes s !! "message"))
    (filter (fun s => type s = "!trap") l).

(** The three accessors of a response, side by side. *)
Definition accessors (r : Response)
  : result unit * result (list (gmap string string)) * result (list (gmap string string)) :=
  (raise_for_error r, get_data r, get_error_data r).

End Accessors.

(** ** The reader task, the idle test and the cancelling loop of
       [Connection.close] (mikrotik.py) *)

Module Lifecycle.

Import Mikrotik.
Local Open Scope string_scope.

(** [sentence.api_attributes.get(".tag")] *)
Definition tag_of (sentence : ResponseSentence) : option string :=
  api_attributes sentence !! ".tag".

(** No response that is registered is complete. *)
Definition pending_incomplete (self : Connection) : Prop :=
  forall tag response,
    responses self !! tag = Some response -> is_complete response = false.

(** [is_idle] at the time [now], times and the timeout in one unit. *)
Definition is_idle (now : Z) (self : Connection) : bool :=
  (idle_timeout self <=? now - idle_since self)%Z.

(** The entry that [dict.popitem] takes, the one inserted last.  The map
    does not record the order of insertion, so the choice is given from
    outside: some key of the map, and none only for the empty map. *)
Record PopOrder : Type := mkPopOrder {
  popitem_key : gmap string Response -> option string;
  popitem_key_Some : forall m k, popitem_key m = Some k -> is_Some (m !! k);
  popitem_key_None : forall m, popitem_key m = None -> m = ∅
}.

(** The last loop of [close], which runs without a pause: pop an entry and
    cancel its response, as long as there are entries.  Each turn removes an entry, so the size of
    the map bounds the number of turns.  Next to the outcome and the
    entries left, the responses that were passed to [cancel] are given as
    they are afterwards; the dictionary has let go of them, their callers
    have not. *)
Fixpoint cancel_all_fuel (order : PopOrder) (fuel : nat)
  (rs : gmap string Response) (cancelled : list Response)
  : result unit * gmap string Response * list Response :=
  match fuel with
  | O => (Ok tt, rs, cancelled)
  | S fuel' =>
      match popitem_key order rs with
      | None => (Ok tt, rs, cancelled)
      | Some tag =>
          match rs !! tag with
          | None => (Ok tt, rs, cancelled)
          | Some response =>
              let '(outcome, response) := cancel response in
              match outcome with
              | Ok _ =>
                  cancel_all_fuel order fuel' (delete tag rs) (cancelled ++ [response])
              | Raise e => (Raise e, delete tag rs, (cancelled ++ [response])%list)
              end
          end
      end
  end.

Definition cancel_all (order : PopOrder) (rs : gmap string Response)
  : result unit * gmap string Response * list Response :=
  cancel_all_fuel order (size rs) rs [].

(** A choice of entry for the examples: the first of the map's listing. *)
Definition first_listed_key (m : gmap string Response) : option string :=
  match map_to_list m with
  | [] => None
  | (k, _) :: _ => Some k
  end.

(** The pop order of the examples. *)
Definition first_listed_order : PopOrder :=
  mkPopOrder first_listed_key
    ltac:(intros m k; unfold first_listed_key;
          destruct (map_to_list m) as [|[k' x] l] eqn:E; [discriminate|];
          intros [= <-]; exists x; apply elem_of_map_to_list; rewrite E; left)
    ltac:(intros m; unfold first_listed_key;
          destruct (map_to_list m) as [|[k' x] l] eqn:E; [|discriminate];
          intros _; apply map_to_list_empty_iff; exact E).

(** A response in progress after [cancel]. *)
Definition cancelled_response (r : Response) : Response :=
  mkResponse false (request r) (sentences r ++ [cancel_sentence])%list Error.

(** The sentences of a list that carry the tag [tag]. *)
Definition tagged (tag : string) (l : list ResponseSentence) : list ResponseSentence :=
  filter (fun s => tag_of s = Some tag) l.

(** The results of [read_sentence] when each call returns a sentence. *)
Definition arrivals (l : list (Z * ResponseSentence))
  : list (Z * result (option ResponseSentence)) :=
  map (fun a => (fst a, Ok (Some (snd a)))) l.

(** A [!re] sentence with a tag and one attribute. *)
Definition reply (tag name : string) : ResponseSentence :=
  mkResponseSentence {[ ".tag" := tag ]} {[ "name" := name ]} "!re".

(** Another pop order: the last of the map's listing. *)
Definition last_listed_key (m : gmap string Response) : option string :=
  fst <$> last (map_to_list m).

Definition last_listed_order : PopOrder :=
  mkPopOrder last_listed_key
    ltac:(intros m k; unfold last_listed_key;
          destruct (last (map_to_list m)) as [[k' x]|] eqn:E; [|discriminate];
          intros [= <-]; exists x; apply elem_of_map_to_list;
          apply last_Some_elem_of; exact E)
    ltac:(intros m; unfold last_listed_key;
          destruct (last (map_to_list m)) as [[k' x]|] eqn:E; [discriminate|];
          intros _; apply map_to_list_empty_iff; apply last_None; exact E).

(** An open connection with two requests in flight. *)
Definition two_request_connection : Connection :=
  mkConnection false "192.168.88.1" 0 10 "secret"
    (<[ "t2" := new_response (mkRequest "t2" ["/ip/dns/static/add"; "=name=svc.lan"]) ]>
       {[ "t1" := new_response (mkRequest "t1" ["/ip/dns/static/print"; "=detail="]) ]})
    (Some (mkStream "192.168.88.1" 8728)) "admin".

(** *** [Connection.close] and the idle monitor *)







End Lifecycle.

(** ** Records to endpoints (provider.py, [to_external_dns_endpoint] and
       [Provider.list_records]) *)

Module Listing.

Import Mikrotik Provider.
Local Open Scope string_scope.
Local Open Scope Z_scope.

(** The body of the loop of [to_external_dns_ttl] for one key. *)
Definition ttl_part (key : ascii) (group : option string) : result Z :=
  int_of_digits (remove_char key (default (String "0" (String key EmptyString)) group)).

(** The groups of the pattern in turn, and the text left over. *)
Definition ttl_groups (mikrotik_ttl : string)
  : option string * option string * option string * option string * option string * string :=
  let '(group_w, rest) := match_group "w" mikrotik_ttl in
  let '(group_d, rest) := match_group "d" rest in
  let '(group_h, rest) := match_group "h" rest in
  let '(group_m, rest) := match_group "m" rest in
  let '(group_s, rest) := match_group "s" rest in
  (group_w, group_d, group_h, group_m, group_s, rest).

(** The default of [sys.get_int_max_str_digits()]: [int] refuses a text
    with more digits. *)
Definition int_max_str_digits : nat := 4300.

(** [RecordType(t.value)]: the record type of the same name, if there is
    one. *)
Definition RecordType_of_value (t : IpDnsRecordType.t) : result RecordType.t :=
  match t with
  | IpDnsRecordType.A => Ok RecordType.A
  | IpDnsRecordType.AAAA => Ok RecordType.AAAA
  | IpDnsRecordType.CNAME => Ok RecordType.CNAME
  | IpDnsRecordType.MX => Ok RecordType.MX
  | IpDnsRecordType.NS => Ok RecordType.NS
  | IpDnsRecordType.SRV => Ok RecordType.SRV
  | IpDnsRecordType.TXT => Ok RecordType.TXT
  | IpDnsRecordType.FWD => Raise (ValueError "'FWD' is not a valid RecordType")
  | IpDnsRecordType.NXDOMAIN => Raise (ValueError "'NXDOMAIN' is not a valid RecordType")
  end.

(** [to_external_dns_endpoint].  [record.type] is the tag of the variant;
    [str] of a target is the target; the keyword arguments are evaluated
    in the order they are written, the TTL before the record type. *)
Definition to_external_dns_endpoint (record : IpDnsRecord) : result Endpoint :=
  targets ←
    match variant record with
    | IpDnsARecord address => Ok [address]
    | IpDnsCnameRecord cname => Ok [cname]
    | IpDnsTxtRecord text => Ok [text]
    | _ => Raise NotImplementedError
    end;
  record_ttl ← to_external_dns_ttl (ttl record);
  record_type ← RecordType_of_value (IpDnsRecord_type record);
  Ok (mkEndpoint (name record) targets record_type None (Some record_ttl)
        (Some ∅) (Some [])).

(** The loop of [list_records]: [NotImplementedError] skips the record,
    any other exception leaves the loop. *)
Fixpoint collect_endpoints (routeros_records : list IpDnsRecord)
  (endpoints : list Endpoint) : result (list Endpoint) :=
  match routeros_records with
  | [] => Ok endpoints
  | routeros_record :: routeros_records' =>
      match to_external_dns_endpoint routeros_record with
      | Ok endpoint => collect_endpoints routeros_records' (endpoints ++ [endpoint])
      | Raise NotImplementedError => collect_endpoints routeros_records' endpoints
      | Raise e => Raise e
      end
  end.

Definition list_records {D : Type} (client : MikrotikClient D) : M D (list Endpoint) :=
  routeros_records ← list_ip_dns_records client;
  lift (collect_endpoints routeros_records []).

(** The record type of the same name as the type of a device record. *)
Definition same_type (t : IpDnsRecordType.t) (record_type : RecordType.t) : Prop :=
  match t, record_type with
  | IpDnsRecordType.A, RecordType.A
  | IpDnsRecordType.CNAME, RecordType.CNAME
  | IpDnsRecordType.TXT, RecordType.TXT => True
  | _, _ => False
  end.

(** The endpoint that stands for a device record in a listing. *)
Definition endpoint_for (record : IpDnsRecord) (endpoint : Endpoint) : Prop :=
  dns_name endpoint = name record /\
  (exists target, payload record = Some target /\ targets endpoint = [target]) /\
  same_type (IpDnsRecord_type record) (record_type endpoint) /\
  (exists n, to_external_dns_ttl (ttl record) = Ok n /\ 0 <= n /\
             record_ttl endpoint = Some n) /\
  set_identifier endpoint = None /\
  labels endpoint = Some ∅ /\
  provider_specific endpoint = Some [].

End Listing.

(** ** More on a batch (provider.py, [Provider.apply_changes]) *)

Module Batch.

Import Mikrotik Provider.
Local Open Scope string_scope.

(** The calls of a batch that a device listing [records] can account for:
    a delete names a listed record, an add a new record without id. *)
Definition grounded (records : list IpDnsRecord) (c : DeviceCall) : Prop :=
  match c with
  | CallList => False
  | CallAdd record => id record = None /\ disabled record = false
  | CallDelete record => record ∈ records
  end.

(** Two endpoints with the same set of targets. *)
Definition same_targets (pair : Endpoint * Endpoint) : Prop :=
  forall target, target ∈ targets (fst pair) <-> target ∈ targets (snd pair).

(** The pairs that the update loop walks. *)
Definition updates (changes : Changes) : list (Endpoint * Endpoint) :=
  zip (default [] (update_old changes)) (default [] (update_new changes)).

End Batch.

(** ** Choice of the response class (webhook.py, [response_cls_provider]) *)

Module Webhook.

Local Open Scope string_scope.

Inductive ResponseClass : Type := JSONResponse | WebhookJSONResponse.

Definition media_type (cls : ResponseClass) : string :=
  match cls with
  | JSONResponse => "application/json"
  | WebhookJSONResponse => "application/external.dns.webhook+json;version=1"
  end.

(** The set [supported_responses], in some order of iteration. *)
Definition supported_responses : list ResponseClass :=
  [JSONResponse; WebhookJSONResponse].

(** [fastapi.HTTPException(status_code, detail)] *)
Record HTTPException : Type := mkHTTPException {
  status_code : Z;
  detail : string
}.

Definition UnsupportedMediaType (media_type : string) : HTTPException :=
  mkHTTPException 400 ("Unsupported header: " ++ media_type).

(** [{resp_cls.media_type: resp_cls for resp_cls in classes}] *)
Definition media_types_of (classes : list ResponseClass) : gmap string ResponseClass :=
  fold_left (fun m resp_cls => <[media_type resp_cls := resp_cls]> m) classes ∅.

(** [response_cls_provider], given [request.headers.get("accept")] and the
    order in which the set of classes is walked.  An empty header value is
    falsy, like no header. *)
Definition response_cls_provider_in (classes : list ResponseClass)
  (accept : option string) : HTTPException + ResponseClass :=
  let media_types := media_types_of classes in
  match accept with
  | Some (String c value) =>
      match media_types !! String c value with
      | None => inl (UnsupportedMediaType (String c value))
      | Some resp_cls => inr resp_cls
      end
  | _ => inr JSONResponse
  end.

Definition response_cls_provider : option string -> HTTPException + ResponseClass :=
  response_cls_provider_in supported_responses.

End Webhook.


(** * Properties *)

(** ** Wire codec *)

Module CodecFacts.

Import Codec.

Lemma encode_ascii w : ascii_word w -> encode w = Ok w.
Proof.
  induction 1 as [|c w Hc _ IH]; [reflexivity|].
  cbn [encode]. unfold encode_char.
  destruct (Z.ltb_spec c 0x80) as [_|?]; [|lia].
  cbn. rewrite IH. reflexivity.
Qed.

Lemma decode_ascii w : ascii_word w -> decode w = Ok w.
Proof.
  induction 1 as [|c w Hc _ IH]; [reflexivity|].
  cbn [decode].
  destruct (Z.ltb_spec c 0x80) as [_|?]; [|lia].
  rewrite IH. reflexivity.
Qed.

Lemma encode_char_nonempty c b : encode_char c = Ok b -> (1 <= length b)%nat.
Proof.
  unfold encode_char.
  repeat case_match; intros [= <-]; cbn; lia.
Qed.

Lemma encode_length_le w p : encode w = Ok p -> (length w <= length p)%nat.
Proof.
  revert p. induction w as [|c w IH]; intros p; cbn [encode].
  - intros [= <-]. cbn. lia.
  - destruct (encode_char c) as [b|] eqn:Hb; [|discriminate].
    destruct (encode w) as [bs|] eqn:Hbs; [|discriminate].
    cbn. intros [= <-]. rewrite length_app.
    specialize (IH bs eq_refl). apply encode_char_nonempty in Hb. cbn. lia.
Qed.

(** [readexactly] hands over a prefix that has arrived in full. *)
Lemma readexactly_prefix pre rest eof :
  readexactly (len pre) (mkReader (pre ++ rest) eof) = Done pre (mkReader rest eof).
Proof.
  unfold readexactly, len. cbn [buffer at_eof].
  rewrite length_app, Nat2Z.id.
  destruct (Z.leb_spec (Z.of_nat (length pre)) (Z.of_nat (length pre + length rest)))
    as [_|?]; [|lia].
  rewrite take_app_length, drop_app_length. reflexivity.
Qed.

Lemma readexactly_1 b rest eof :
  readexactly 1 (mkReader (b :: rest) eof) = Done [b] (mkReader rest eof).
Proof. exact (readexactly_prefix [b] rest eof). Qed.

Lemma land_0x80 h : 0x80 <= h <= 0xFF -> Z.land h 0x80 = 0x80.
Proof.
  intros Hh. apply Z.bits_inj'. intros n Hn.
  rewrite Z.land_spec. change 0x80 with (2 ^ 7).
  rewrite Z.pow2_bits_eqb by lia.
  destruct (Z.eqb_spec 7 n) as [<-|Hne]; [|apply andb_false_r].
  rewrite andb_true_r. apply Z.testbit_true; [lia|].
  change (2 ^ 7) with 128. 
  assert (h / 128 = 1) as -> by (symmetry; apply Z.div_unique with (r := h - 128); lia).
  reflexivity.
Qed.

Lemma land_0x80_low h : 0 <= h < 0x80 -> Z.land h 0x80 = 0.
Proof.
  intros Hh. apply Z.bits_inj'. intros n Hn.
  rewrite Z.land_spec, Z.bits_0. change 0x80 with (2 ^ 7).
  rewrite Z.pow2_bits_eqb by lia.
  destruct (Z.eqb_spec 7 n) as [<-|Hne]; [|apply andb_false_r].
  rewrite andb_true_r. apply Z.testbit_false; [lia|].
  rewrite Z.div_small by (change (2 ^ 7) with 128; lia). reflexivity.
Qed.

Lemma extra_length_bytes_high h :
  0x80 <= h <= 0xFF -> 1 <= extra_length_bytes h <= 4.
Proof.
  intros Hh. unfold extra_length_bytes.
  rewrite (land_0x80 h Hh).
  repeat case_match; cbn; lia.
Qed.

Lemma extra_length_bytes_low h :
  0 <= h < 0x80 -> extra_length_bytes h = 0.
Proof.
  intros Hh. unfold extra_length_bytes.
  assert (Hbit : forall m, 0x80 <= m <= 0xFF -> Z.land m 0x80 = 0x80 ->
                           Z.land h m <> m).
  { intros m Hm Hm' Heq.
    assert (Z.land (Z.land h m) 0x80 = 0x80) as H1 by (rewrite Heq; exact Hm').
    rewrite <- Z.land_assoc, Hm', land_0x80_low in H1 by lia. discriminate. }
  destruct (Z.eqb_spec (Z.land h 0xF0) 0xF0) as [E|_];
    [exfalso; revert E; apply Hbit; [lia|reflexivity]|].
  destruct (Z.eqb_spec (Z.land h 0xE0) 0xE0) as [E|_];
    [exfalso; revert E; apply Hbit; [lia|reflexivity]|].
  destruct (Z.eqb_spec (Z.land h 0xC0) 0xC0) as [E|_];
    [exfalso; revert E; apply Hbit; [lia|reflexivity]|].
  destruct (Z.eqb_spec (Z.land h 0x80) 0x80) as [E|_];
    [exfalso; revert E; apply Hbit; [lia|reflexivity]|].
  reflexivity.
Qed.

(** [read_word] never returns a word when the header byte has its top bit
    set: joining the header with the further length bytes gives [ord] more
    than one byte. *)
Lemma read_word_high_header h tl eof :
  0x80 <= h <= 0xFF ->
  read_word (mkReader (h :: tl) eof) =
    if extra_length_bytes h <=? len tl then Raised TypeError
    else if eof then Raised IncompleteReadError else Waiting.
Proof.
  intros Hh. unfold read_word. rewrite readexactly_1. cbn [ord].
  fold (extra_length_bytes h).
  pose proof (extra_length_bytes_high h Hh) as Hk.
  unfold readexactly at 1. cbn [buffer at_eof].
  destruct (Z.leb_spec (extra_length_bytes h) (len tl)) as [Hle|Hgt].
  - destruct (firstn (Z.to_nat (extra_length_bytes h)) tl) as [|x more] eqn:Hmore.
    + apply (f_equal (@length Z)) in Hmore.
      rewrite length_take in Hmore. unfold len in Hle. cbn in Hmore. lia.
    + reflexivity.
  - destruct eof; reflexivity.
Qed.

(** A short header is the length itself. *)
Lemma read_word_low_header h data rest eof :
  0 <= h < 0x80 -> len data = h ->
  read_word (mkReader (h :: data ++ rest) eof) =
    match decode data with
    | Ok word => Done word (mkReader rest eof)
    | Raise e => Raised e
    end.
Proof.
  intros Hh Hlen. unfold read_word. rewrite readexactly_1. cbn [ord].
  fold (extra_length_bytes h). rewrite (extra_length_bytes_low h Hh).
  assert (H0 : readexactly 0 (mkReader (data ++ rest) eof)
               = Done [] (mkReader (data ++ rest) eof))
    by exact (readexactly_prefix [] (data ++ rest) eof).
  rewrite H0. cbn [app ord].
  rewrite <- Hlen, readexactly_prefix. reflexivity.
Qed.

Lemma lor_below a b m : 0 <= m -> 0 <= a < 2 ^ m -> 0 <= b < 2 ^ m ->
  0 <= Z.lor a b < 2 ^ m.
Proof.
  intros Hm Ha Hb. split; [apply Z.lor_nonneg; lia|].
  destruct (Z.eq_dec (Z.lor a b) 0) as [->|Hnz]; [lia|].
  apply Z.log2_lt_pow2; [pose proof (proj2 (Z.lor_nonneg a b)); lia|].
  rewrite Z.log2_lor by lia.
  destruct (Z.eq_dec a 0) as [->|Ha0]; destruct (Z.eq_dec b 0) as [->|Hb0];
    try (exfalso; apply Hnz; reflexivity).
  - rewrite Z.max_r by (cbn; apply Z.log2_nonneg). apply Z.log2_lt_pow2; lia.
  - rewrite Z.max_l by (cbn; apply Z.log2_nonneg). apply Z.log2_lt_pow2; lia.
  - apply Z.max_lub_lt; apply Z.log2_lt_pow2; lia.
Qed.

(** The first byte of a prefix whose mask has bit [7 + s] set. *)
Lemma header_top_bit mask n s :
  0 <= s -> Z.testbit mask (7 + s) = true ->
  0x80 <= Z.land (Z.shiftr (Z.lor mask n) s) 0xFF <= 0xFF.
Proof.
  intros Hs Hbit.
  set (h := Z.land (Z.shiftr (Z.lor mask n) s) 0xFF).
  assert (Hrange : 0 <= h < 256).
  { subst h. change 0xFF with (Z.ones 8). rewrite Z.land_ones by lia.
    apply Z.mod_pos_bound. reflexivity. }
  assert (H7 : Z.testbit h 7 = true).
  { subst h. rewrite Z.land_spec, Z.shiftr_spec, Z.lor_spec by lia.
    rewrite Hbit. reflexivity. }
  apply Z.testbit_true in H7; [|lia].
  change (2 ^ 7) with 128 in H7.
  split; [|lia].
  destruct (Z.lt_ge_cases h 128) as [Hlt|]; [|assumption].
  rewrite Z.div_small in H7 by lia. discriminate.
Qed.

Lemma encode_length_short n : 0 <= n <= 0x7F -> encode_length n = Ok [n].
Proof.
  intros Hn. unfold encode_length.
  destruct (Z.leb_spec n 0x7F) as [_|?]; [|lia].
  unfold to_bytes. cbn [Z.lor].
  assert (Z.lor 0 n = n) as -> by (destruct n; reflexivity).
  destruct (Z.leb_spec 0 n) as [_|?]; [|lia].
  destruct (Z.ltb_spec n (2 ^ (8 * Z.of_nat 1))) as [_|Hge];
    [|change (2 ^ (8 * Z.of_nat 1)) with 256 in Hge; lia].
  cbn [andb be_digits]. change (8 * Z.of_nat 0) with 0. rewrite Z.shiftr_0_r.
  change 0xFF with (Z.ones 8). rewrite Z.land_ones by lia.
  rewrite Z.mod_small by (change (2 ^ 8) with 256; lia). reflexivity.
Qed.

(** From 0x80 on, the prefix has two to five bytes and a first byte with
    its top bit set. *)
Lemma encode_length_long n :
  0x80 <= n < 2 ^ 36 ->
  exists h tl, encode_length n = Ok (h :: tl) /\ 0x80 <= h <= 0xFF /\
               (1 <= length tl <= 4)%nat.
Proof.
  intros Hn. unfold encode_length.
  destruct (Z.leb_spec n 0x7F) as [?|_]; [lia|].
  assert (Hstep : forall mask k,
             0 <= mask < 2 ^ (8 * Z.of_nat (S (S k))) ->
             n < 2 ^ (8 * Z.of_nat (S (S k))) ->
             Z.testbit mask (7 + 8 * Z.of_nat (S k)) = true ->
             (k <= 3)%nat ->
             exists h tl, to_bytes (Z.lor mask n) (S (S k)) = Ok (h :: tl) /\
                          (0x80 <= h <= 0xFF) /\ (1 <= length tl <= 4)%nat).
  { intros mask k Hmask Hlt Hbit Hk. unfold to_bytes.
    pose proof (lor_below mask n (8 * Z.of_nat (S (S k))) ltac:(lia) Hmask ltac:(lia))
      as Hlor.
    destruct (Z.leb_spec 0 (Z.lor mask n)) as [_|?]; [|lia].
    destruct (Z.ltb_spec (Z.lor mask n) (2 ^ (8 * Z.of_nat (S (S k))))) as [_|?]; [|lia].
    cbn [andb]. cbn [be_digits].
    eexists _, _. split; [reflexivity|]. split.
    - apply header_top_bit; [lia|exact Hbit].
    - assert (Hlen : forall j m, length (be_digits j m) = j)
        by (induction j; intros; cbn [be_digits length]; auto).
      cbn [length]. rewrite Hlen. lia. }
  destruct (Z.leb_spec n 0x3FFF); [apply (Hstep 0x8000 0%nat); cbn; try lia; reflexivity|].
  destruct (Z.leb_spec n 0x1FFFFF); [apply (Hstep 0xC00000 1%nat); cbn; try lia; reflexivity|].
  destruct (Z.leb_spec n 0xFFFFFFF); [apply (Hstep 0xE0000000 2%nat); cbn; try lia; reflexivity|].
  apply (Hstep 0xF000000000 3%nat); cbn; try lia; reflexivity.
Qed.

(** Short ASCII words come back as written. *)
Lemma short_ascii_word_read_back w rest eof :
  ascii_word w -> len w <= 0x7F ->
  read_back w rest eof = Ok (Done w (mkReader rest eof)).
Proof.
  intros Hw Hlen. unfold read_back, write_word.
  rewrite encode_length_short by (unfold len in *; lia).
  rewrite (encode_ascii w Hw). cbn.
  rewrite read_word_low_header; [|unfold len in *; lia|reflexivity].
  rewrite (decode_ascii w Hw). reflexivity.
Qed.

(** The prefix counts characters, the payload is bytes: a word with a
    character outside ASCII is cut short by the reader.  For "é" the
    prefix says 1 and the reader decodes the first of its two bytes. *)
Lemma non_ascii_word_not_read_back rest eof :
  write_word [0xE9] = Ok [1; 0xC3; 0xA9] /\
  read_back [0xE9] rest eof = Ok (Raised UnicodeDecodeError).
Proof.
  split; [reflexivity|]. unfold read_back.
  change (write_word [0xE9]) with (@Ok bytes [1; 0xC3; 0xA9]). cbn [mbind result_bind rbind].
  f_equal.
  change ([1; 0xC3; 0xA9] ++ rest) with (1 :: [0xC3] ++ 0xA9 :: rest).
  rewrite read_word_low_header by (try reflexivity; lia). reflexivity.
Qed.

(** Every word of 0x80 or more characters that [write_word] puts on the
    wire makes [read_word] raise [TypeError]. *)
Lemma long_word_not_read_back w rest eof data :
  0x80 <= len w < 2 ^ 36 ->
  write_word w = Ok data ->
  read_word (mkReader (data ++ rest) eof) = Raised TypeError.
Proof.
  intros Hlen. unfold write_word.
  destruct (encode_length_long (len w) Hlen) as (h & tl & -> & Hh & Htl).
  cbn. destruct (encode w) as [payload|] eqn:Hp; [|discriminate].
  cbn. intros [= <-]. cbn [app].
  rewrite read_word_high_header by exact Hh.
  pose proof (extra_length_bytes_high h Hh) as Hk.
  pose proof (encode_length_le w payload Hp) as Hpl.
  destruct (Z.leb_spec (extra_length_bytes h) (len ((tl ++ payload) ++ rest)))
    as [_|Hgt]; [reflexivity|].
  unfold len in *. rewrite !length_app in Hgt. lia.
Qed.

(** The length prefixes at the boundaries of the size classes.  Up to 0x7F
    the prefix is the length; from 0x80 on [read_word] raises on the prefix
    alone, before it reaches the payload. *)
Lemma boundary_length_prefixes :
  Forall (fun n => encode_length n = Ok [n]) [0; 1; 0x7F] /\
  Forall (fun n => exists prefix, encode_length n = Ok prefix /\
                   forall payload eof,
                     read_word (mkReader (prefix ++ [0; 0; 0; 0] ++ payload) eof)
                     = Raised TypeError)
    [0x80; 0x3FFF; 0x4000; 0x1FFFFF; 0x200000; 0xFFFFFFF].
Proof.
  split.
  - repeat constructor.
  - repeat (apply Forall_cons; split);
      try (eexists; split; [vm_compute; reflexivity|];
           intros payload eof; cbn [app];
           rewrite read_word_high_header by lia;
           match goal with
           | |- (if ?k <=? ?l then _ else _) = _ =>
               destruct (Z.leb_spec k l) as [_|Hgt];
               [reflexivity
               |exfalso; revert Hgt; unfold len; cbn [length];
                let k' := eval vm_compute in k in change k with k'; lia]
           end).
    apply Forall_nil_2.
Qed.

(** C1.  A word of 0x80 characters does not survive the trip through
    [write_word] and [read_word]: the two-byte prefix 0x80 0x80 goes out,
    and the reader joins the header with the second length byte and calls
    [ord] on both, which raises [TypeError], whatever follows on the
    socket. *)
Theorem word_of_0x80_chars_not_read_back :
  let word := repeat 97 128 in
  len word = 0x80 /\
  write_word word = Ok (0x80 :: 0x80 :: word) /\
  forall rest eof, read_back word rest eof = Ok (Raised TypeError).
Proof.
  cbv zeta. split; [reflexivity|]. split; [vm_compute; reflexivity|].
  intros rest eof. unfold read_back.
  destruct (write_word (repeat 97 128)) as [data|] eqn:Hw; [|discriminate Hw].
  cbn. f_equal.
  apply long_word_not_read_back with (w := repeat 97 128); [|exact Hw].
  vm_compute. split; [discriminate|reflexivity].
Qed.

End CodecFacts.

(** ** Responses *)

Module ResponseFacts.

Import Mikrotik.
Local Open Scope string_scope.

(** What [update_with_sentence] does, case by case. *)
Lemma update_complete s r :
  is_complete r = true ->
  update_with_sentence s r = (Raise (RuntimeError "response is complete"), r).
Proof.
  unfold update_with_sentence, mbind, M_bind, gets, raise. intros ->. reflexivity.
Qed.

Lemma update_in_progress s r :
  is_complete r = false ->
  update_with_sentence s r =
    (Ok tt,
     let r1 := set_sentences (sentences r ++ [s])%list r in
     if is_trap s then set_status Error r1
     else if is_done s then
       set_completion_event true
         (match status r1 with InProgress => set_status Success r1 | _ => r1 end)
     else r1).
Proof.
  unfold update_with_sentence, mbind, M_bind, gets, raise, modify, is_trap, is_done.
  intros ->. cbn.
  destruct (String.eqb (type s) "!trap"); [reflexivity|].
  destruct (String.eqb (type s) "!done"); [|reflexivity].
  cbn. destruct (status r); reflexivity.
Qed.

Lemma cancel_complete r :
  is_complete r = true ->
  cancel r = (Raise (RuntimeError "rresponse is complete"), r).
Proof.
  unfold cancel, mbind, M_bind, gets, raise. intros ->. reflexivity.
Qed.

(** On a response in progress [cancel] appends its sentence and sets the
    status; the completion event is not touched. *)
Lemma cancel_in_progress r :
  is_complete r = false ->
  cancel r =
    (Ok tt,
     mkResponse false (request r) (sentences r ++ [cancel_sentence])%list Error).
Proof.
  intros Hr. unfold cancel, mbind, M_bind, gets. rewrite Hr.
  change (update_with_sentence cancel_sentence r = 
    (Ok tt, mkResponse false (request r) (sentences r ++ [cancel_sentence])%list Error)).
  rewrite update_in_progress by exact Hr.
  unfold is_complete in Hr. cbn. unfold set_status, set_sentences; cbn.
  rewrite Hr. reflexivity.
Qed.

Lemma has_trap_snoc l s : has_trap (l ++ [s]) = has_trap l || is_trap s.
Proof. unfold has_trap. rewrite existsb_app. cbn. rewrite orb_false_r. reflexivity. Qed.

Lemma ends_with_done_snoc l s : ends_with_done (l ++ [s]) = is_done s.
Proof. unfold ends_with_done. rewrite last_snoc. reflexivity. Qed.

Lemma trap_is_not_done s : is_trap s = true -> is_done s = false.
Proof.
  unfold is_trap, is_done. intros H. apply String.eqb_eq in H. rewrite H. reflexivity.
Qed.

Lemma consistent_new request : consistent (new_response request).
Proof. split; reflexivity. Qed.

Lemma consistent_update s r :
  consistent r -> consistent (snd (update_with_sentence s r)).
Proof.
  intros [Hc Hs].
  destruct (is_complete r) eqn:Hr.
  - rewrite update_complete by exact Hr. split; assumption.
  - rewrite update_in_progress by exact Hr. cbn [snd].
    unfold is_complete in Hr. rewrite Hr in Hs.
    destruct (is_trap s) eqn:Ht.
    + split; cbn.
      * rewrite ends_with_done_snoc, (trap_is_not_done s Ht). exact Hr.
      * rewrite has_trap_snoc, Ht, orb_true_r. reflexivity.
    + destruct (is_done s) eqn:Hd.
      * split.
        -- cbn. destruct (status r); cbn; rewrite ends_with_done_snoc, Hd; reflexivity.
        -- destruct (has_trap (sentences r)) eqn:Hh; cbn; rewrite !Hs; cbn;
             rewrite ?Hs, has_trap_snoc, Hh, Ht; reflexivity.
      * split; cbn.
        -- rewrite ends_with_done_snoc, Hd. exact Hr.
        -- rewrite has_trap_snoc, Ht, orb_false_r, Hr. exact Hs.
Qed.

Lemma consistent_apply_sentences incoming r :
  consistent r -> consistent (apply_sentences incoming r).
Proof.
  revert r. induction incoming as [|s incoming IH]; intros r Hr; [exact Hr|].
  cbn. apply IH, consistent_update, Hr.
Qed.

Lemma has_trap_true l :
  (exists s, s ∈ l /\ type s = "!trap") -> has_trap l = true.
Proof.
  intros (s & Hin & Hty). unfold has_trap. apply existsb_exists.
  exists s. split; [apply list_elem_of_In, Hin|].
  unfold is_trap. rewrite Hty. reflexivity.
Qed.

Lemma has_trap_false l :
  (forall s, s ∈ l -> type s <> "!trap") -> has_trap l = false.
Proof.
  intros Hno. destruct (has_trap l) eqn:Hh; [|reflexivity].
  apply existsb_exists in Hh. destruct Hh as (s & Hin & Hty).
  exfalso. apply (Hno s); [apply list_elem_of_In, Hin|].
  apply String.eqb_eq, Hty.
Qed.

Lemma ends_with_done_iff l :
  ends_with_done l = true <-> exists pre d, l = (pre ++ [d])%list /\ type d = "!done".
Proof.
  split.
  - destruct l as [|x l] using rev_ind; [discriminate|].
    rewrite ends_with_done_snoc. intros Hd. exists l, x. split; [reflexivity|].
    apply String.eqb_eq, Hd.
  - intros (pre & d & -> & Hd). rewrite ends_with_done_snoc.
    unfold is_done. rewrite Hd. reflexivity.
Qed.

(** C2.  [cancel] on a fresh response, which is in progress: the call
    returns, the status is [Error] and the made-up [!trap] sentence with
    message "response cancelled" is recorded, but the completion event is
    still unset, so the response is not complete, a caller in
    [wait_until_complete] is not woken and [raise_for_error] refuses the
    response as still in progress. *)
Theorem cancel_does_not_complete (req : Request) :
  let '(outcome, r) := cancel (new_response req) in
  outcome = Ok tt /\
  is_complete r = false /\
  wait_until_complete_returns r = false /\
  raise_for_error r = Raise (RuntimeError "response in progress") /\
  status r = Error /\
  sentences r = [cancel_sentence] /\
  type cancel_sentence = "!trap" /\
  attributes cancel_sentence !! "message" = Some "response cancelled".
Proof.
  rewrite cancel_in_progress by reflexivity.
  repeat split; reflexivity.
Qed.

(** The same for every response in progress. *)
Lemma cancel_never_completes r :
  is_complete r = false ->
  is_complete (snd (cancel r)) = false /\ status (snd (cancel r)) = Error.
Proof.
  intros Hr. rewrite cancel_in_progress by exact Hr. split; reflexivity.
Qed.

(** A complete response takes no further sentence. *)
Lemma apply_sentences_on_complete incoming r :
  is_complete r = true -> apply_sentences incoming r = r.
Proof.
  intros Hr. unfold apply_sentences.
  induction incoming as [|s incoming IH]; [reflexivity|].
  cbn [fold_left]. rewrite (update_complete s r Hr). exact IH.
Qed.

(** What one call does to the sentences and the completion signal of a
    response in progress. *)
Lemma update_appends s r :
  is_complete r = false ->
  sentences (snd (update_with_sentence s r)) = (sentences r ++ [s])%list /\
  is_complete (snd (update_with_sentence s r)) = is_done s.
Proof.
  intros Hr. rewrite (update_in_progress s r Hr). cbn [snd].
  destruct (is_trap s) eqn:Ht.
  - rewrite (trap_is_not_done s Ht). split; [reflexivity|exact Hr].
  - destruct (is_done s); [|split; [reflexivity|exact Hr]].
    cbn. destruct (status r); split; reflexivity.
Qed.

(** The sentences recorded are the incoming ones up to the first
    [!done]. *)
Lemma sentences_apply_sentences incoming r :
  is_complete r = false ->
  sentences (apply_sentences incoming r) = (sentences r ++ up_to_done incoming)%list.
Proof.
  revert r. induction incoming as [|s incoming IH]; intros r Hr.
  - cbn. rewrite app_nil_r. reflexivity.
  - change (apply_sentences (s :: incoming) r)
      with (apply_sentences incoming (snd (update_with_sentence s r))).
    destruct (update_appends s r Hr) as [Hs Hc]. cbn [up_to_done].
    destruct (is_done s) eqn:Hd.
    + rewrite apply_sentences_on_complete by exact Hc. exact Hs.
    + rewrite IH by exact Hc. rewrite Hs, <- app_assoc. reflexivity.
Qed.

Lemma up_to_done_app_no_done pre rest :
  Forall (fun s => type s <> "!done") pre ->
  up_to_done (pre ++ rest) = (pre ++ up_to_done rest)%list.
Proof.
  induction 1 as [|s pre Hs _ IH]; [reflexivity|].
  cbn [app up_to_done]. unfold is_done at 1.
  destruct (String.eqb_spec (type s) "!done"); [contradiction|].
  rewrite IH. reflexivity.
Qed.

(** C4.  A fresh response after any sequence [incoming] of
    [update_with_sentence] calls holds the incoming sentences up to and
    including the first [!done], in order, none dropped; it is complete
    exactly when these end with [!done]; if they end with [!done] and hold
    no [!trap] the status is [Success]; if they hold a [!trap] the status
    is [Error], also after a later [!done]: a [!trap] that arrives before
    any [!done] gives [Error] whatever arrives around it, and a first
    [!done] before which no [!trap] arrived gives [Success]; and once the
    response is complete, [update_with_sentence] and [cancel] raise and
    leave it as it was. *)
Theorem response_status_machine (req : Request) (incoming : list ResponseSentence) :
  let r := apply_sentences incoming (new_response req) in
  (is_complete r = true <->
     exists pre d, sentences r = (pre ++ [d])%list /\ type d = "!done") /\
  ((exists pre d, sentences r = (pre ++ [d])%list /\ type d = "!done") ->
   (forall s, s ∈ sentences r -> type s <> "!trap") ->
   status r = Success) /\
  ((exists s, s ∈ sentences r /\ type s = "!trap") -> status r = Error) /\
  (is_complete r = true ->
   forall s,
     update_with_sentence s r = (Raise (RuntimeError "response is complete"), r) /\
     cancel r = (Raise (RuntimeError "rresponse is complete"), r)) /\
  sentences r = up_to_done incoming /\
  (forall pre trap post,
     incoming = (pre ++ trap :: post)%list ->
     Forall (fun s => type s <> "!done") pre ->
     type trap = "!trap" ->
     status r = Error) /\
  (forall pre done post,
     incoming = (pre ++ done :: post)%list ->
     Forall (fun s => type s <> "!done" /\ type s <> "!trap") pre ->
     type done = "!done" ->
     status r = Success /\ is_complete r = true /\
     sentences r = (pre ++ [done])%list) /\
  (Forall (fun s => type s <> "!done") incoming ->
   is_complete r = false /\ sentences r = incoming).
Proof.
  intros r.
  destruct (consistent_apply_sentences incoming _ (consistent_new req)) as [Hc Hs].
  fold r in Hc, Hs.
  assert (Hcomplete : is_complete r = true <->
            exists pre d, sentences r = (pre ++ [d])%list /\ type d = "!done").
  { unfold is_complete. rewrite Hc. apply ends_with_done_iff. }
  assert (Hsent : sentences r = up_to_done incoming).
  { subst r. rewrite sentences_apply_sentences by reflexivity. reflexivity. }
  split; [exact Hcomplete|]. split; [|split; [|split; [|split; [exact Hsent|split; [|split]]]]].
  - intros Hdone Hno. apply Hcomplete in Hdone. unfold is_complete in Hdone.
    rewrite (has_trap_false _ Hno), Hdone in Hs. exact Hs.
  - intros Htrap. rewrite (has_trap_true _ Htrap) in Hs. exact Hs.
  - intros Hr s. split; [apply update_complete|apply cancel_complete]; exact Hr.
  - intros pre trap post -> Hpre Htrap.
    rewrite has_trap_true in Hs; [exact Hs|].
    exists trap. split; [|exact Htrap].
    rewrite Hsent, up_to_done_app_no_done by exact Hpre.
    apply elem_of_app. right. cbn [up_to_done]. unfold is_done.
    rewrite Htrap. cbn. left.
  - intros pre done post -> Hpre Hdone.
    assert (Hrec : sentences r = (pre ++ [done])%list).
    { rewrite Hsent, up_to_done_app_no_done.
      - cbn [up_to_done]. unfold is_done. rewrite Hdone. reflexivity.
      - eapply Forall_impl; [exact Hpre|]. intros s [H _]. exact H. }
    assert (Hcompl : is_complete r = true).
    { apply Hcomplete. exists pre, done. split; assumption. }
    split; [|split; assumption].
    unfold is_complete in Hcompl. rewrite Hcompl in Hs.
    rewrite has_trap_false in Hs; [exact Hs|].
    intros s Hin. rewrite Hrec in Hin. apply elem_of_app in Hin as [Hin|Hin].
    + rewrite Forall_forall in Hpre. apply (Hpre s Hin).
    + apply list_elem_of_singleton in Hin. subst s. rewrite Hdone. discriminate.
  - intros Hno.
    assert (Hrec : sentences r = incoming).
    { rewrite Hsent. rewrite <- (app_nil_r incoming) at 1.
      rewrite up_to_done_app_no_done by exact Hno. cbn. apply app_nil_r. }
    split; [|exact Hrec].
    apply not_true_is_false. intros E.
    apply Hcomplete in E as (pre & d & Heq & Hd).
    rewrite Hrec in Heq. rewrite Heq in Hno.
    apply Forall_app in Hno as [_ Hno]. apply Forall_cons in Hno as [Hno _].
    contradiction.
Qed.

(** [!done] alone gives [Success]; [!trap] then [!done] gives [Error]; a
    [!trap] between a [!re] and the [!done] is recorded and gives [Error];
    the sentence after [!done] is rejected. *)
Lemma response_status_machine_witness :
  let req := mkRequest "7f" ["/ip/dns/static/print"] in
  status (apply_sentences [new_sentence "!done"] (new_response req)) = Success /\
  status (apply_sentences [new_sentence "!trap"; new_sentence "!done"]
            (new_response req)) = Error /\
  update_with_sentence (new_sentence "!re")
    (apply_sentences [new_sentence "!done"] (new_response req))
  = (Raise (RuntimeError "response is complete"),
     apply_sentences [new_sentence "!done"] (new_response req)) /\
  (let r := apply_sentences
              [new_sentence "!re"; new_sentence "!trap"; new_sentence "!done";
               new_sentence "!re"]
              (new_response req) in
   status r = Error /\
   sentences r = [new_sentence "!re"; new_sentence "!trap"; new_sentence "!done"]).
Proof.
  intros req.
  pose proof (response_status_machine req [new_sentence "!done"])
    as (H1 & H2 & _ & H4 & _).
  pose proof (response_status_machine req [new_sentence "!trap"; new_sentence "!done"])
    as (_ & _ & H3 & _).
  pose proof (response_status_machine req
                [new_sentence "!re"; new_sentence "!trap"; new_sentence "!done";
                 new_sentence "!re"])
    as (_ & _ & _ & _ & H5 & H6 & _).
  split; [|split; [|split; [|split]]].
  - apply H2.
    + exists [], (new_sentence "!done"). split; reflexivity.
    + intros s Hs. apply list_elem_of_singleton in Hs. subst s. discriminate.
  - apply H3. exists (new_sentence "!trap"). split; [left|reflexivity].
  - apply H4. reflexivity.
  - apply (H6 [new_sentence "!re"] (new_sentence "!trap")
              [new_sentence "!done"; new_sentence "!re"]).
    + reflexivity.
    + repeat constructor. discriminate.
    + reflexivity.
  - exact H5.
Defined.

End ResponseFacts.

(** ** The reader task *)

Module ConnectionFacts.

Import Mikrotik.
Local Open Scope string_scope.

(** A sentence without [.tag]: [read] has refreshed [idle_since] and
    raises; nothing else in the connection has changed. *)
Lemma read_without_tag now sentence self st :
  stream self = Some st ->
  api_attributes sentence !! ".tag" = None ->
  read now (Ok (Some sentence)) self
  = (Raise (RuntimeError "tag not found"), set_idle_since now self).
Proof.
  intros Hst Htag. unfold read, mbind, M_bind, gets, lift, modify, raise.
  rewrite Hst, Htag. reflexivity.
Qed.

(** A sentence with a tag that no pending response has: [KeyError]. *)
Lemma read_unknown_tag now sentence self st tag :
  stream self = Some st ->
  api_attributes sentence !! ".tag" = Some tag ->
  responses self !! tag = None ->
  read now (Ok (Some sentence)) self
  = (Raise (KeyError tag), set_idle_since now self).
Proof.
  intros Hst Htag Hnone. unfold read, mbind, M_bind, gets, lift, modify, raise.
  rewrite Hst, Htag. cbn. rewrite Hnone. reflexivity.
Qed.

End ConnectionFacts.

(** ** Attribute words *)

Module WordFacts.

Import Mikrotik.
Local Open Scope string_scope.







End WordFacts.

(** ** TTL conversion *)

Module TtlFacts.

Import Mikrotik Provider.
Local Open Scope string_scope.
Local Open Scope Z_scope.

Lemma str_of_int_renders z : 0 <= z -> renders z (str_of_int z).
Proof.
  intros Hz. unfold str_of_int. destruct z as [|p|p]; [| |lia].
  - exists (Decimal.D0 Decimal.Nil). repeat split. discriminate.
  - exists (Pos.to_uint p). split; [apply DecimalPos.Unsigned.to_uint_nonnil|].
    split.
    + cbn. pose proof (DecimalPos.Unsigned.to_uint_nonnil p) as Hnn.
      destruct (Pos.to_uint p); [congruence|reflexivity..].
    + exact (DecimalZ.of_to (Z.pos p)).
Qed.

Lemma append_nil (r : string) : EmptyString ++ r = r.
Proof. reflexivity. Qed.

Lemma append_cons c (s r : string) : String c s ++ r = String c (s ++ r).
Proof. reflexivity. Qed.

Lemma span_digits_uint u rest :
  match rest with
  | String c _ => is_digit c = false
  | EmptyString => True
  end ->
  span_digits (NilEmpty.string_of_uint u ++ rest) = (NilEmpty.string_of_uint u, rest).
Proof.
  intros Hrest.
  induction u; cbn [NilEmpty.string_of_uint];
    rewrite ?append_nil, ?append_cons; cbn [span_digits];
    try (change (is_digit _) with true; cbv iota; rewrite IHu; reflexivity).
  destruct rest as [|c rest]; [reflexivity|]. cbn [span_digits]. rewrite Hrest.
  reflexivity.
Qed.

Lemma remove_char_uint key u :
  is_digit key = false ->
  remove_char key (NilEmpty.string_of_uint u ++ String key EmptyString)
  = NilEmpty.string_of_uint u.
Proof.
  intros Hkey.
  induction u; cbn [NilEmpty.string_of_uint];
    rewrite ?append_nil, ?append_cons; cbn [remove_char];
    try (match goal with
         | |- context [Ascii.eqb ?c key] =>
             destruct (Ascii.eqb_spec c key) as [<-|_]; [discriminate Hkey|]
         end; rewrite IHu; reflexivity).
  rewrite Ascii.eqb_refl. reflexivity.
Qed.

(** A rendered number followed by its letter is taken as the group. *)
Lemma match_group_rendered key z text rest :
  is_digit key = false -> renders z text ->
  match_group key (text ++ String key rest) = (Some (text ++ String key EmptyString), rest).
Proof.
  intros Hkey (u & Hnn & -> & _). unfold match_group.
  rewrite span_digits_uint by exact Hkey.
  destruct (NilEmpty.string_of_uint u) as [|c digits] eqn:Hu.
  - destruct u; cbn in Hu; congruence.
  - rewrite append_cons, Ascii.eqb_refl. reflexivity.
Qed.

Lemma int_of_rendered_group key z text :
  is_digit key = false -> renders z text ->
  int_of_digits (remove_char key (text ++ String key EmptyString)) = Ok z.
Proof.
  intros Hkey (u & Hnn & -> & Hz). rewrite remove_char_uint by exact Hkey.
  unfold int_of_digits, NilZero.uint_of_string.
  destruct (NilEmpty.string_of_uint u) as [|c digits] eqn:Hu.
  - destruct u; cbn in Hu; congruence.
  - rewrite <- Hu, NilEmpty.usu, Hz. reflexivity.
Qed.

(** Decoding a string of five rendered segments. *)
Lemma to_external_dns_ttl_segments w d h m s tw td th tm ts :
  renders w tw -> renders d td -> renders h th -> renders m tm -> renders s ts ->
  to_external_dns_ttl (tw ++ "w" ++ td ++ "d" ++ th ++ "h" ++ tm ++ "m" ++ ts ++ "s")
  = Ok (s + m * 60 + h * 60 * 60 + d * 60 * 60 * 24 + w * 60 * 60 * 24 * 7).
Proof.
  intros Hw Hd Hh Hm Hs. unfold to_external_dns_ttl.
  change ("w" ++ ?x) with (String "w" x).
  change ("d" ++ ?x) with (String "d" x).
  change ("h" ++ ?x) with (String "h" x).
  change ("m" ++ ?x) with (String "m" x).
  rewrite (match_group_rendered "w" w tw _ eq_refl Hw).
  rewrite (match_group_rendered "d" d td _ eq_refl Hd).
  rewrite (match_group_rendered "h" h th _ eq_refl Hh).
  rewrite (match_group_rendered "m" m tm _ eq_refl Hm).
  rewrite (match_group_rendered "s" s ts _ eq_refl Hs).
  cbn [default from_option Datatypes.id].
  rewrite (int_of_rendered_group "w" w tw eq_refl Hw).
  rewrite (int_of_rendered_group "d" d td eq_refl Hd).
  rewrite (int_of_rendered_group "h" h th eq_refl Hh).
  rewrite (int_of_rendered_group "m" m tm eq_refl Hm).
  rewrite (int_of_rendered_group "s" s ts eq_refl Hs).
  reflexivity.
Qed.


Lemma timedelta_in_range n :
  0 <= n < timedelta_limit -> timedelta n = Ok (n / 86400, n mod 86400).
Proof.
  unfold timedelta_limit, timedelta. intros Hn.
  assert (0 <= n / 86400) by (apply Z.div_pos; lia).
  assert (n / 86400 < 1000000000) by (apply Z.div_lt_upper_bound; lia).
  destruct (Z.leb_spec (-999999999) (n / 86400)); [|lia].
  destruct (Z.leb_spec (n / 86400) 999999999); [|lia].
  reflexivity.
Qed.

(** The five segments that [to_routeros_ttl] writes for [n] seconds. *)
Lemma to_routeros_ttl_segments n :
  0 <= n < timedelta_limit ->
  to_routeros_ttl n
  = Ok (str_of_int (n / 604800) ++ "w" ++ str_of_int (n mod 604800 / 86400) ++ "d"
        ++ str_of_int (n mod 86400 / 3600) ++ "h" ++ str_of_int (n mod 3600 / 60) ++ "m"
        ++ str_of_int (n mod 60) ++ "s").
Proof.
  intros Hn. unfold to_routeros_ttl. rewrite (timedelta_in_range n Hn).
  cbv beta iota zeta delta [mbind result_bind rbind].
  change (60 * 60) with 3600.
  assert (Hs : 0 <= n mod 86400 < 86400) by (apply Z.mod_pos_bound; lia).
  assert (Hd : 0 <= n / 86400) by (apply Z.div_pos; lia).
  rewrite !Z.quot_div_nonneg by (try apply Z.mod_pos_bound; lia).
  assert (n / 86400 / 7 = n / 604800) as -> by (rewrite Z.div_div by lia; reflexivity).
  assert ((n / 86400) mod 7 = n mod 604800 / 86400) as ->.
  { change 604800 with (86400 * 7). rewrite Z.rem_mul_r by lia.
    rewrite Z.mul_comm, Z.div_add by lia.
    rewrite (Z.div_small (n mod 86400)) by lia. reflexivity. }
  assert ((n mod 86400) mod 3600 = n mod 3600) as ->.
  { apply Z.mod_mod_divide. exists 24. reflexivity. }
  assert ((n mod 86400) mod 60 = n mod 60) as ->.
  { apply Z.mod_mod_divide. exists 1440. reflexivity. }
  reflexivity.
Qed.

Lemma segments_sum n :
  n mod 60 + n mod 3600 / 60 * 60 + n mod 86400 / 3600 * 60 * 60
  + n mod 604800 / 86400 * 60 * 60 * 24 + n / 604800 * 60 * 60 * 24 * 7 = n.
Proof.
  pose proof (Z.div_mod n 604800 ltac:(lia)).
  pose proof (Z.div_mod (n mod 604800) 86400 ltac:(lia)).
  pose proof (Z.div_mod (n mod 86400) 3600 ltac:(lia)).
  pose proof (Z.div_mod (n mod 3600) 60 ltac:(lia)).
  assert ((n mod 604800) mod 86400 = n mod 86400).
  { apply Z.mod_mod_divide. exists 7. reflexivity. }
  assert ((n mod 86400) mod 3600 = n mod 3600).
  { apply Z.mod_mod_divide. exists 24. reflexivity. }
  assert ((n mod 3600) mod 60 = n mod 60).
  { apply Z.mod_mod_divide. exists 60. reflexivity. }
  lia.
Qed.


(** Writing then reading a TTL below the [timedelta] limit. *)
Lemma ttl_round_trip_in_range n :
  0 <= n < timedelta_limit ->
  exists text, to_routeros_ttl n = Ok text /\ to_external_dns_ttl text = Ok n.
Proof.
  intros Hn. eexists. split; [apply to_routeros_ttl_segments, Hn|].
  assert (H60 : 0 <= n mod 60) by (apply Z.mod_pos_bound; lia).
  assert (H3600 : 0 <= n mod 3600) by (apply Z.mod_pos_bound; lia).
  assert (H86400 : 0 <= n mod 86400) by (apply Z.mod_pos_bound; lia).
  assert (H604800 : 0 <= n mod 604800) by (apply Z.mod_pos_bound; lia).
  rewrite (to_external_dns_ttl_segments
             (n / 604800) (n mod 604800 / 86400) (n mod 86400 / 3600)
             (n mod 3600 / 60) (n mod 60));
    try (apply str_of_int_renders; first [assumption | apply Z.div_pos; lia]).
  rewrite segments_sum. reflexivity.
Qed.

(** C7, as the code has it.  The four examples convert both ways; for
    every [n] from 0 up to the [timedelta] limit of 10^9 days the encoder
    writes all five segments, in the order w, d, h, m, s, and decoding its
    output gives [n] back. *)
Theorem ttl_round_trip :
  (to_routeros_ttl 0 = Ok "0w0d0h0m0s" /\ to_external_dns_ttl "0w0d0h0m0s" = Ok 0) /\
  (to_routeros_ttl 694861 = Ok "1w1d1h1m1s" /\ to_external_dns_ttl "1w1d1h1m1s" = Ok 694861) /\
  (to_routeros_ttl 86400 = Ok "0w1d0h0m0s" /\ to_external_dns_ttl "0w1d0h0m0s" = Ok 86400) /\
  (to_routeros_ttl 59 = Ok "0w0d0h0m59s" /\ to_external_dns_ttl "0w0d0h0m59s" = Ok 59) /\
  forall n, 0 <= n < timedelta_limit ->
    to_routeros_ttl n
    = Ok (str_of_int (n / 604800) ++ "w" ++ str_of_int (n mod 604800 / 86400) ++ "d"
          ++ str_of_int (n mod 86400 / 3600) ++ "h" ++ str_of_int (n mod 3600 / 60) ++ "m"
          ++ str_of_int (n mod 60) ++ "s") /\
    (to_routeros_ttl n ≫= to_external_dns_ttl) = Ok n.
Proof.
  repeat (split; [split; vm_compute; reflexivity|]).
  intros n Hn. split; [apply to_routeros_ttl_segments, Hn|].
  destruct (ttl_round_trip_in_range n Hn) as (text & -> & Hback). exact Hback.
Qed.

Lemma ttl_round_trip_witness :
  (to_routeros_ttl 3600 ≫= to_external_dns_ttl) = Ok 3600.
Proof.
  destruct ttl_round_trip as (_ & _ & _ & _ & H).
  apply (H 3600). unfold timedelta_limit. lia.
Defined.

(** C7, as the spec has it, fails: 86400 * 10^9 seconds are 10^9 days,
    which [timedelta] refuses, so [to_routeros_ttl] raises and there is no
    string to decode. *)
Lemma ttl_round_trip_fails_at_limit :
  0 <= timedelta_limit /\
  to_routeros_ttl timedelta_limit = Raise OverflowError /\
  (to_routeros_ttl timedelta_limit ≫= to_external_dns_ttl) <> Ok timedelta_limit.
Proof.
  split; [unfold timedelta_limit; lia|]. split; [vm_compute; reflexivity|].
  vm_compute. discriminate.
Qed.

End TtlFacts.

(** ** Record lookup and translation *)

Module RecordFacts.

Import Mikrotik Provider.
Local Open Scope string_scope.
Local Open Scope Z_scope.

Lemma index_lookup records (data : gmap string (list IpDnsRecord)) (n : string) :
  fold_left index_step records data !! n
  = match filter (fun r => name r = n) records with
    | [] => data !! n
    | found => Some (default [] (data !! n) ++ found)%list
    end.
Proof.
  revert data. induction records as [|record records IH]; intros data; [reflexivity|].
  cbn [fold_left]. rewrite IH. unfold index_step at 1 2. rewrite filter_cons.
  destruct (decide (name record = n)) as [->|Hne].
  - rewrite lookup_insert_eq. cbn [default from_option Datatypes.id].
    destruct (filter _ records) as [|r found]; [reflexivity|].
    rewrite <- app_assoc. reflexivity.
  - rewrite lookup_insert_ne by exact Hne. reflexivity.
Qed.

(** The map holds, under each name, the listed records of that name in
    listing order. *)
Lemma RecordMap_init_lookup records (n : string) :
  default [] (data (RecordMap_init records) !! n)
  = filter (fun r => name r = n) records.
Proof.
  unfold RecordMap_init. cbn [data].
  rewrite index_lookup, lookup_empty.
  destruct (filter _ records); reflexivity.
Qed.

Lemma item_matches_payload target item :
  item_matches target item = true <-> has_payload target item.
Proof.
  unfold item_matches, has_payload, payload.
  destruct (variant item); try (split; [discriminate|discriminate]);
    (split; [intros H; apply String.eqb_eq in H; congruence
            |intros [= ->]; apply String.eqb_refl]).
Qed.

(** [first_match] returns the first item with the payload, if there is one. *)
Lemma first_match_spec target items :
  match first_match target items with
  | Some record =>
      exists before after,
        items = (before ++ record :: after)%list /\
        has_payload target record /\
        forall item, item ∈ before -> ~ has_payload target item
  | None => forall item, item ∈ items -> ~ has_payload target item
  end.
Proof.
  induction items as [|item items IH]; cbn [first_match].
  - intros item Hin. apply elem_of_nil in Hin. destruct Hin.
  - destruct (item_matches target item) eqn:Hm.
    + exists [], items. split; [reflexivity|]. split.
      * apply item_matches_payload, Hm.
      * intros x Hx. apply elem_of_nil in Hx. destruct Hx.
    + assert (Hno : ~ has_payload target item).
      { intros Hp. apply item_matches_payload in Hp. congruence. }
      destruct (first_match target items) as [record|].
      * destruct IH as (before & after & -> & Hp & Hbefore).
        exists (item :: before), after. split; [reflexivity|]. split; [exact Hp|].
        intros x Hx. apply elem_of_cons in Hx. destruct Hx as [->|Hx]; auto.
      * intros x Hx. apply elem_of_cons in Hx. destruct Hx as [->|Hx]; auto.
Qed.

Lemma find_first_match records endpoint target :
  find (RecordMap_init records) endpoint target
  = first_match target (filter (fun r => name r = dns_name endpoint) records).
Proof. unfold find. rewrite RecordMap_init_lookup. reflexivity. Qed.

(** The record found is one of the listed ones, has the endpoint's name
    and has the target as payload. *)
Lemma find_Some records endpoint target record :
  find (RecordMap_init records) endpoint target = Some record ->
  record ∈ records /\ name record = dns_name endpoint /\ has_payload target record.
Proof.
  rewrite find_first_match. intros Hfind.
  pose proof (first_match_spec target
                (filter (fun r => name r = dns_name endpoint) records)) as Hspec.
  rewrite Hfind in Hspec. destruct Hspec as (before & after & Heq & Hp & _).
  assert (Hin : record ∈ filter (fun r => name r = dns_name endpoint) records).
  { rewrite Heq. apply elem_of_app. right. left. }
  apply list_elem_of_filter in Hin. destruct Hin as [Hname Hin]. auto.
Qed.

(** C9.  [find] does not look at the endpoint's record type: it returns
    the first listed record that has the endpoint's [dnsName] and whose
    address (type A), cname (type CNAME) or text (type TXT) equals the
    target, and nothing when there is none; endpoints that differ in
    record type only find the same record, so a TXT endpoint finds an A
    record whose address is the target. *)
Theorem find_ignores_record_type
  (records : list IpDnsRecord) (endpoint : Endpoint) (target : string) :
  let under_name := filter (fun r => name r = dns_name endpoint) records in
  match find (RecordMap_init records) endpoint target with
  | Some record =>
      exists before after,
        under_name = (before ++ record :: after)%list /\
        (variant record = IpDnsARecord target \/
         variant record = IpDnsCnameRecord target \/
         variant record = IpDnsTxtRecord target) /\
        forall item, item ∈ before -> ~ has_payload target item
  | None => forall item, item ∈ under_name -> ~ has_payload target item
  end /\
  (forall record_type,
     find (RecordMap_init records)
       (mkEndpoint (dns_name endpoint) (targets endpoint) record_type
          (set_identifier endpoint) (record_ttl endpoint) (labels endpoint)
          (provider_specific endpoint)) target
     = find (RecordMap_init records) endpoint target) /\
  find
    (RecordMap_init
       [mkIpDnsRecord false (Some "*1") false "svc.lan" "0w1d0h0m0s"
          (IpDnsARecord "10.0.0.5")])
    (mkEndpoint "svc.lan" ["10.0.0.5"] RecordType.TXT None None None None)
    "10.0.0.5"
  = Some (mkIpDnsRecord false (Some "*1") false "svc.lan" "0w1d0h0m0s"
            (IpDnsARecord "10.0.0.5")).
Proof.
  intros under_name. split; [|split].
  - rewrite find_first_match. fold under_name.
    pose proof (first_match_spec target under_name) as Hspec.
    destruct (first_match target under_name) as [record|]; [|exact Hspec].
    destruct Hspec as (before & after & Heq & Hp & Hbefore).
    exists before, after. split; [exact Heq|]. split; [|exact Hbefore].
    unfold has_payload, payload in Hp.
    destruct (variant record); try discriminate; injection Hp as ->; auto.
  - intros record_type. rewrite !find_first_match. reflexivity.
  - vm_compute. reflexivity.
Qed.

(** On the sample list a TXT endpoint and an A endpoint of the same name
    find the same record. *)
Lemma find_ignores_record_type_witness :
  find (RecordMap_init sample_records)
    (mkEndpoint "svc.lan" ["10.0.0.6"] RecordType.TXT None None None None) "10.0.0.6"
  = find (RecordMap_init sample_records)
      (mkEndpoint "svc.lan" ["10.0.0.6"] RecordType.A None None None None) "10.0.0.6".
Proof.
  destruct (find_ignores_record_type sample_records
              (mkEndpoint "svc.lan" ["10.0.0.6"] RecordType.A None None None None)
              "10.0.0.6") as (_ & H & _).
  exact (H RecordType.TXT).
Defined.

End RecordFacts.

(** ** Endpoint to record *)

Module TranslateFacts.

Import Mikrotik Provider.
Local Open Scope string_scope.
Local Open Scope Z_scope.

(** What [to_routeros_record] returns, by record type. *)
Lemma to_routeros_record_cases endpoint target :
  to_routeros_record endpoint target
  = match to_routeros_ttl (ttl_or_default (record_ttl endpoint)) with
    | Raise e => Raise e
    | Ok text =>
        let record data :=
          mkIpDnsRecord false None (startswith "*." target) (dns_name endpoint) text data in
        match record_type endpoint with
        | RecordType.A => Ok (record (IpDnsARecord target))
        | RecordType.CNAME => Ok (record (IpDnsCnameRecord target))
        | RecordType.TXT => Ok (record (IpDnsTxtRecord target))
        | _ => Raise NotImplementedError
        end
    end.
Proof.
  unfold to_routeros_record.
  destruct (to_routeros_ttl (ttl_or_default (record_ttl endpoint))); reflexivity.
Qed.

(** A record that [to_routeros_record] returns carries the endpoint's name
    and the target, and the endpoint's type is one of the three. *)
Lemma to_routeros_record_Ok endpoint target record :
  to_routeros_record endpoint target = Ok record ->
  name record = dns_name endpoint /\ has_payload target record /\
  supported (record_type endpoint) = true /\ id record = None.
Proof.
  rewrite to_routeros_record_cases.
  destruct (to_routeros_ttl _) as [text|]; [|discriminate].
  destruct (record_type endpoint); cbn; try discriminate;
    intros [= <-]; repeat split.
Qed.


(** C10, as the code has it.  For an endpoint of type A, CNAME or TXT, a
    [recordTTL] of 0 is treated as an absent one: the record gets the TTL
    of one day, "0w1d0h0m0s", which reads back as 86400 seconds. *)
Theorem zero_ttl_means_one_day (endpoint : Endpoint) (target : string) :
  record_ttl endpoint = None \/ record_ttl endpoint = Some 0 ->
  supported (record_type endpoint) = true ->
  exists record,
    to_routeros_record endpoint target = Ok record /\
    ttl record = "0w1d0h0m0s" /\
    to_external_dns_ttl (ttl record) = Ok 86400.
Proof.
  intros Httl Hs. rewrite to_routeros_record_cases.
  assert (ttl_or_default (record_ttl endpoint) = 86400) as ->
    by (destruct Httl as [-> | ->]; reflexivity).
  change (to_routeros_ttl 86400) with (@Ok string "0w1d0h0m0s").
  destruct (record_type endpoint); try discriminate Hs;
    eexists; (split; [reflexivity|]); split; reflexivity.
Qed.

Lemma zero_ttl_means_one_day_witness :
  exists record,
    to_routeros_record
      (mkEndpoint "svc.lan" ["10.0.0.5"] RecordType.A None (Some 0) None None)
      "10.0.0.5"
    = Ok record /\
    ttl record = "0w1d0h0m0s" /\
    to_external_dns_ttl (ttl record) = Ok 86400.
Proof.
  apply (zero_ttl_means_one_day
           (mkEndpoint "svc.lan" ["10.0.0.5"] RecordType.A None (Some 0) None None)
           "10.0.0.5").
  - right. reflexivity.
  - reflexivity.
Defined.

(** C10, as the spec has it, fails: an AAAA endpoint with [recordTTL] 0
    gets no record at all, [to_routeros_record] raises
    [NotImplementedError]. *)
Lemma zero_ttl_unsupported_type_no_record :
  let endpoint :=
    mkEndpoint "v6.lan" ["fd00::5"] RecordType.AAAA None (Some 0) None None in
  record_ttl endpoint = Some 0 /\
  to_routeros_record endpoint "fd00::5" = Raise NotImplementedError /\
  ~ exists record,
      to_routeros_record endpoint "fd00::5" = Ok record /\ ttl record = "0w1d0h0m0s".
Proof.
  cbv zeta. split; [reflexivity|]. split; [vm_compute; reflexivity|].
  intros (record & Hok & _). vm_compute in Hok. discriminate Hok.
Qed.

End TranslateFacts.

(** ** Reconciliation *)

Module ReconcileFacts.

Import Mikrotik Provider.
Local Open Scope string_scope.
Local Open Scope Z_scope.

Section steady.

Context {D : Type}.
Implicit Types (body : M (World D) unit) (cs : list DeviceCall).

Lemma steady_ret : steady (mret tt : M (World D) unit) [].
Proof.
  intros [d cs]. exists d. cbn. rewrite app_nil_r. reflexivity.
Qed.

Lemma steady_seq body1 body2 cs1 cs2 :
  steady body1 cs1 -> steady body2 cs2 -> steady (body1 ;; body2) (cs1 ++ cs2).
Proof.
  intros H1 H2 w. destruct (H1 w) as [d1 E1].
  destruct (H2 (mkWorld d1 (calls w ++ cs1))) as [d2 E2].
  exists d2. unfold mbind, M_bind. rewrite E1, E2. cbn [calls].
  rewrite app_assoc. reflexivity.
Qed.

Lemma steady_for_each {X : Type} (l : list X) (body : X -> M (World D) unit)
  (cs : X -> list DeviceCall) :
  (forall x, steady (body x) (cs x)) ->
  steady (for_each l body) (flat_map cs l).
Proof.
  intros Hbody. induction l as [|x l IH]; cbn [for_each flat_map].
  - apply steady_ret.
  - apply steady_seq; [apply Hbody|exact IH].
Qed.

(** [log_action] turns a body that may raise into a steady one. *)
Lemma steady_log_action body cs :
  (forall w, exists r d, body w = (r, mkWorld d (calls w ++ cs))) ->
  steady (log_action body) cs.
Proof.
  intros Hbody w. destruct (Hbody w) as (r & d & E). exists d.
  unfold log_action. rewrite E. reflexivity.
Qed.

Context (client : MikrotikClient D) (order : SetOrder).

Lemma steady_create_target endpoint target :
  steady (create_target client endpoint target) (add_call endpoint target).
Proof.
  apply steady_log_action. intros w. unfold add_call, mbind, M_bind, lift.
  destruct (to_routeros_record endpoint target) as [record|e].
  - unfold call. destruct (add_ip_dns_record client record (device w)) as [r d].
    exists r, d. reflexivity.
  - exists (Raise e), (device w). destruct w as [d cs]. cbn. rewrite app_nil_r.
    reflexivity.
Qed.

Lemma steady_delete_target record_map endpoint target :
  steady (delete_target client record_map endpoint target)
    (delete_call record_map endpoint target).
Proof.
  apply steady_log_action. intros w. unfold delete_call.
  destruct (find record_map endpoint target) as [record|].
  - unfold call. destruct (delete_ip_dns_record client record (device w)) as [r d].
    exists r, d. reflexivity.
  - exists (Ok tt), (device w). destruct w as [d cs]. cbn. rewrite app_nil_r.
    reflexivity.
Qed.

(** When the listing succeeds, [apply_changes] returns normally and has
    made the listing call and then the expected calls. *)
Lemma apply_changes_run changes w records d1 :
  list_ip_dns_records client (device w) = (Ok records, d1) ->
  exists d,
    apply_changes client order changes w
    = (Ok tt,
       mkWorld d (calls w ++ CallList
                    :: expected_calls order changes (RecordMap_init records))).
Proof.
  intros Hlist. unfold apply_changes.
  unfold mbind at 1. unfold M_bind at 1. unfold call at 1. rewrite Hlist.
  set (record_map := RecordMap_init records).
  match goal with
  | |- exists d, ?body ?w1 = _ =>
      assert (Hsteady : steady body (expected_calls order changes record_map))
  end.
  { unfold expected_calls, create_calls, delete_calls.
    apply steady_seq; [|apply steady_seq].
    - apply steady_for_each. intros endpoint.
      apply steady_for_each. intros target. apply steady_create_target.
    - apply steady_for_each. intros endpoint.
      apply steady_for_each. intros target. apply steady_delete_target.
    - apply steady_for_each. intros [old_endpoint endpoint]. unfold update_calls.
      apply steady_seq.
      + apply steady_for_each. intros target. apply steady_delete_target.
      + apply steady_for_each. intros target. apply steady_create_target. }
  destruct (Hsteady (mkWorld d1 (calls w ++ [CallList]))) as [d E].
  exists d. rewrite E. cbn [calls]. rewrite <- app_assoc. reflexivity.
Qed.

(** When the listing raises, so does [apply_changes], with nothing else
    attempted. *)
Lemma apply_changes_listing_raises changes w e d1 :
  list_ip_dns_records client (device w) = (Raise e, d1) ->
  apply_changes client order changes w
  = (Raise e, mkWorld d1 (calls w ++ [CallList])).
Proof.
  intros Hlist. unfold apply_changes.
  unfold mbind at 1. unfold M_bind at 1. unfold call at 1. rewrite Hlist.
  reflexivity.
Qed.

End steady.

(** *** The calls as operations *)


















End ReconcileFacts.

(** ** Length prefixes and sentences on the wire *)

Module FramingFacts.

Import Codec Framing.

(** [extra_length_bytes] by ranges of the header byte. *)
Lemma extra_length_bytes_table h :
  0 <= h < 256 ->
  extra_length_bytes h
  = if h <? 0x80 then 0 else if h <? 0xC0 then 1 else if h <? 0xE0 then 2
    else if h <? 0xF0 then 3 else 4.
Proof.
  intros Hh.
  assert (Hall : forallb (fun i =>
            extra_length_bytes (Z.of_nat i)
            =? (if Z.of_nat i <? 0x80 then 0 else if Z.of_nat i <? 0xC0 then 1
                else if Z.of_nat i <? 0xE0 then 2
                else if Z.of_nat i <? 0xF0 then 3 else 4))
            (seq 0 256) = true) by (vm_compute; reflexivity).
  rewrite forallb_forall in Hall.
  specialize (Hall (Z.to_nat h)). rewrite Z2Nat.id in Hall by lia.
  apply Z.eqb_eq, Hall, in_seq. lia.
Qed.

(** A mask that is a multiple of [2 ^ k] and a length below [2 ^ k] do not
    overlap: or-ing them adds them. *)
Lemma lor_mask_add mask n k :
  0 <= k -> 0 <= n < 2 ^ k -> mask mod 2 ^ k = 0 ->
  Z.lor mask n = mask + n.
Proof.
  intros Hk Hn Hmask.
  assert (Hland : Z.land mask n = 0).
  { apply Z.bits_inj'. intros i Hi. rewrite Z.land_spec, Z.bits_0.
    destruct (Z.lt_ge_cases i k) as [Hlt|Hge].
    - assert (0 < 2 ^ k) by (apply Z.pow_pos_nonneg; lia).
      assert (mask = mask / 2 ^ k * 2 ^ k) as ->.
      { pose proof (Z.div_mod mask (2 ^ k) ltac:(lia)). lia. }
      rewrite Z.mul_pow2_bits_low by lia. reflexivity.
    - destruct (Z.eq_dec n 0) as [->|Hnz]; [rewrite Z.bits_0; apply andb_false_r|].
      rewrite (Z.bits_above_log2 n i); [apply andb_false_r|lia|].
      apply Z.lt_le_trans with k; [|lia]. apply Z.log2_lt_pow2; lia. }
  rewrite <- Z.lxor_lor by exact Hland.
  symmetry. apply Z.add_nocarry_lxor. exact Hland.
Qed.

Lemma be_digits_length k v : length (be_digits k v) = k.
Proof. induction k; cbn [be_digits length]; auto. Qed.

(** [to_bytes] can be read back. *)
Lemma from_bytes_be_app bs b :
  from_bytes_be (bs ++ [b]) = from_bytes_be bs * 256 + b.
Proof. unfold from_bytes_be. rewrite fold_left_app. reflexivity. Qed.

Lemma fold_be_shift bs acc :
  fold_left (fun acc b => acc * 256 + b) bs acc
  = acc * 256 ^ Z.of_nat (length bs) + fold_left (fun acc b => acc * 256 + b) bs 0.
Proof.
  revert acc. induction bs as [|b bs IH]; intros acc.
  - cbn. lia.
  - cbn [fold_left length]. rewrite IH, (IH (0 * 256 + b)).
    rewrite Nat2Z.inj_succ, Z.pow_succ_r by lia. lia.
Qed.

Lemma from_bytes_be_digits_mod k v :
  from_bytes_be (be_digits k v) = v mod 2 ^ (8 * Z.of_nat k).
Proof.
  induction k as [|k IH].
  - cbn. rewrite Z.mod_1_r. reflexivity.
  - cbn [be_digits]. unfold from_bytes_be. cbn [fold_left].
    rewrite fold_be_shift, be_digits_length.
    change (fold_left _ (be_digits k v) 0) with (from_bytes_be (be_digits k v)).
    rewrite IH.
    assert (H256 : 256 ^ Z.of_nat k = 2 ^ (8 * Z.of_nat k)).
    { change 256 with (2 ^ 8). rewrite <- Z.pow_mul_r by lia. reflexivity. }
    assert (Hpos : 0 < 2 ^ (8 * Z.of_nat k)) by (apply Z.pow_pos_nonneg; lia).
    assert (Hpow : 2 ^ (8 * Z.of_nat (S k)) = 2 ^ (8 * Z.of_nat k) * 256).
    { rewrite Nat2Z.inj_succ, <- Z.add_1_r, Z.mul_add_distr_l, Z.pow_add_r by lia.
      reflexivity. }
    rewrite Hpow, Z.rem_mul_r by lia.
    rewrite Z.shiftr_div_pow2 by lia.
    change 0xFF with (Z.ones 8). rewrite Z.land_ones by lia. change (2 ^ 8) with 256.
    rewrite H256. lia.
Qed.

Lemma from_bytes_be_digits k v :
  0 <= v < 2 ^ (8 * Z.of_nat k) -> from_bytes_be (be_digits k v) = v.
Proof. intros Hv. rewrite from_bytes_be_digits_mod. apply Z.mod_small, Hv. Qed.


(** Replace the closed powers of two in the goal by their values. *)
Ltac eval_pows :=
  repeat match goal with
         | |- context [2 ^ ?e] =>
             let p := eval cbv in (2 ^ e) in
             lazymatch p with
             | Zpos ?q => progress change (2 ^ e) with (Zpos q)
             end
         end.

Ltac prefix_class mask k :=
  rewrite (lor_mask_add mask _ k);
  [|lia|eval_pows; lia|vm_compute; reflexivity];
  unfold to_bytes;
  match goal with
  | |- context [(0 <=? ?v) && (?v <? ?b)] =>
      destruct (Z.leb_spec 0 v); [|lia];
      destruct (Z.ltb_spec v b) as [_|Hbig];
      [|exfalso; revert Hbig; eval_pows; lia]
  end;
  reflexivity.

(** The prefix is the big-endian writing of mask plus length, in the
    number of bytes of the length's size class. *)
Lemma encode_length_value n :
  0 <= n < 2 ^ 36 ->
  encode_length n
  = Ok (be_digits (Z.to_nat (prefix_size n)) (prefix_mask (prefix_size n) + n)).
Proof.
  intros Hn. change (2 ^ 36) with 68719476736 in Hn.
  unfold encode_length, prefix_size.
  destruct (Z.leb_spec n 0x7F); [prefix_class 0 7|].
  destruct (Z.leb_spec n 0x3FFF); [prefix_class 0x8000 14|].
  destruct (Z.leb_spec n 0x1FFFFF); [prefix_class 0xC00000 21|].
  destruct (Z.leb_spec n 0xFFFFFFF); [prefix_class 0xE0000000 28|].
  prefix_class 0xF000000000 36.
Qed.

Lemma prefix_value_bound n :
  0 <= n < 2 ^ 36 ->
  0 <= prefix_mask (prefix_size n) + n < 2 ^ (8 * prefix_size n).
Proof.
  intros Hn. change (2 ^ 36) with 68719476736 in Hn. unfold prefix_size.
  repeat match goal with
         | |- context [?a <=? ?b] => destruct (Z.leb_spec a b)
         end; cbn [prefix_mask Z.eqb Pos.eqb]; eval_pows; lia.
Qed.

Lemma prefix_size_range n : 1 <= prefix_size n <= 5.
Proof. unfold prefix_size. repeat case_match; lia. Qed.

Lemma head_byte_range v s lo hi :
  0 <= s -> 0 <= lo -> hi < 256 ->
  lo * 2 ^ s <= v < (hi + 1) * 2 ^ s ->
  lo <= Z.land (Z.shiftr v s) 0xFF <= hi.
Proof.
  intros Hs Hlo Hhi Hv.
  assert (Hpos : 0 < 2 ^ s) by (apply Z.pow_pos_nonneg; lia).
  rewrite Z.shiftr_div_pow2 by lia.
  assert (lo <= v / 2 ^ s) by (apply Z.div_le_lower_bound; lia).
  assert (v / 2 ^ s < hi + 1) by (apply Z.div_lt_upper_bound; lia).
  change 0xFF with (Z.ones 8). rewrite Z.land_ones by lia.
  rewrite Z.mod_small by (change (2 ^ 8) with 256; lia). lia.
Qed.

Ltac header_class lo hi :=
  cbn [Z.to_nat Pos.to_nat Pos.iter_op Nat.add be_digits];
  eexists _, _; split; [reflexivity|]; split; [reflexivity|];
  match goal with
  | |- context [Z.land (Z.shiftr ?v ?s) 0xFF] =>
      let H := fresh "Hrange" in
      assert (H : lo <= Z.land (Z.shiftr v s) 0xFF <= hi)
        by (apply head_byte_range;
            [vm_compute; discriminate|lia|lia
            |cbn [prefix_mask Z.eqb Pos.eqb]; eval_pows; lia]);
      revert H; generalize (Z.land (Z.shiftr v s) 0xFF)
  end;
  intros h Hh; split; [lia|];
  repeat match goal with
         | |- context [?a <? ?b] => destruct (Z.ltb_spec a b)
         end; try lia; reflexivity.

(** The header byte of the prefix, by size class. *)
Lemma prefix_header n :
  0 <= n < 2 ^ 36 ->
  exists h tl,
    be_digits (Z.to_nat (prefix_size n)) (prefix_mask (prefix_size n) + n) = h :: tl /\
    len (h :: tl) = prefix_size n /\
    0 <= h < 256 /\
    (if h <? 0x80 then 0 else if h <? 0xC0 then 1 else if h <? 0xE0 then 2
     else if h <? 0xF0 then 3 else 4) = len tl.
Proof.
  intros Hn. change (2 ^ 36) with 68719476736 in Hn. unfold prefix_size.
  destruct (Z.leb_spec n 0x7F); [header_class 0 0x7F|].
  destruct (Z.leb_spec n 0x3FFF); [header_class 0x80 0xBF|].
  destruct (Z.leb_spec n 0x1FFFFF); [header_class 0xC0 0xDF|].
  destruct (Z.leb_spec n 0xFFFFFFF); [header_class 0xE0 0xEF|].
  header_class 0xF0 0xFF.
Qed.


(** X1.  The length prefix of [write_word] is self-delimiting: for every length
    below 2^36 it has the number of bytes of the length's size class, its
    header byte makes [read_word] ask for exactly the remaining bytes of
    the prefix, and read as one big-endian number the prefix is the length
    plus the mask of its size. *)
Theorem prefix_announces_its_size (n : Z) :
  0 <= n < 2 ^ 36 ->
  exists h tl,
    encode_length n = Ok (h :: tl) /\
    len (h :: tl) = prefix_size n /\
    extra_length_bytes h = len tl /\
    from_bytes_be (h :: tl) = prefix_mask (prefix_size n) + n.
Proof.
  intros Hn. rewrite (encode_length_value n Hn).
  destruct (prefix_header n Hn) as (h & tl & Heq & Hlen & Hh & Hextra).
  exists h, tl. split; [rewrite Heq; reflexivity|]. split; [exact Hlen|]. split.
  - rewrite extra_length_bytes_table by exact Hh. exact Hextra.
  - rewrite <- Heq. apply from_bytes_be_digits.
    pose proof (prefix_value_bound n Hn) as Hb. pose proof (prefix_size_range n).
    rewrite Z2Nat.id by lia. exact Hb.
Qed.

Lemma prefix_announces_its_size_witness :
  exists h tl,
    encode_length 0x4000 = Ok (h :: tl) /\
    len (h :: tl) = prefix_size 0x4000 /\
    extra_length_bytes h = len tl /\
    from_bytes_be (h :: tl) = prefix_mask (prefix_size 0x4000) + 0x4000.
Proof.
  apply (prefix_announces_its_size 0x4000). vm_compute.
  split; [discriminate|reflexivity].
Defined.

(** X2.  Two lengths below 2^36 never get the same prefix. *)
Theorem encode_length_injective (n m : Z) :
  0 <= n < 2 ^ 36 -> 0 <= m < 2 ^ 36 ->
  encode_length n = encode_length m -> n = m.
Proof.
  intros Hn Hm. rewrite (encode_length_value n Hn), (encode_length_value m Hm).
  intros [= Heq].
  pose proof (prefix_size_range n). pose proof (prefix_size_range m).
  assert (Hsize : prefix_size n = prefix_size m).
  { apply (f_equal (@length Z)) in Heq. rewrite !be_digits_length in Heq. lia. }
  apply (f_equal from_bytes_be) in Heq.
  rewrite !from_bytes_be_digits in Heq.
  - rewrite Hsize in Heq. lia.
  - rewrite Z2Nat.id by lia. apply prefix_value_bound, Hm.
  - rewrite Z2Nat.id by lia. apply prefix_value_bound, Hn.
Qed.

Lemma encode_length_injective_witness :
  encode_length 0x7F = encode_length (0x3F + 0x40) /\ 0x7F = 0x3F + 0x40.
Proof.
  split; [reflexivity|].
  apply (encode_length_injective 0x7F (0x3F + 0x40));
    [vm_compute; split; [discriminate|reflexivity] ..|reflexivity].
Defined.

(** X3.  Past the range of the prefix.  A length from 2^36 up to 2^40 is written
    with the prefix of the length without its bits 36 to 39, and a length
    from 2^40 on makes [write_word] raise [OverflowError]. *)
Theorem encode_length_past_range (n : Z) :
  (0xFFFFFFF < n < 2 ^ 36 ->
   forall j, 1 <= j < 16 -> encode_length (j * 2 ^ 36 + n) = encode_length n) /\
  (2 ^ 40 <= n -> encode_length n = Raise OverflowError).
Proof.
  split.
  - intros Hn j Hj. change (2 ^ 36) with 68719476736 in *.
    unfold encode_length.
    destruct (Z.leb_spec (j * 68719476736 + n) 0x7F); [lia|].
    destruct (Z.leb_spec (j * 68719476736 + n) 0x3FFF); [lia|].
    destruct (Z.leb_spec (j * 68719476736 + n) 0x1FFFFF); [lia|].
    destruct (Z.leb_spec (j * 68719476736 + n) 0xFFFFFFF); [lia|].
    destruct (Z.leb_spec n 0x7F); [lia|].
    destruct (Z.leb_spec n 0x3FFF); [lia|].
    destruct (Z.leb_spec n 0x1FFFFF); [lia|].
    destruct (Z.leb_spec n 0xFFFFFFF); [lia|].
    f_equal.
    rewrite <- (lor_mask_add (j * 68719476736) n 36);
      [|lia|eval_pows; lia
       |change (2 ^ 36) with 68719476736; apply Z.mod_mul; lia].
    rewrite Z.lor_assoc. f_equal.
    assert (Hj' : j = 1 \/ j = 2 \/ j = 3 \/ j = 4 \/ j = 5 \/ j = 6 \/ j = 7 \/ j = 8
                  \/ j = 9 \/ j = 10 \/ j = 11 \/ j = 12 \/ j = 13 \/ j = 14 \/ j = 15)
      by lia.
    repeat (destruct Hj' as [->|Hj']; [reflexivity|]). subst j. reflexivity.
  - intros Hn. change (2 ^ 40) with 1099511627776 in Hn.
    unfold encode_length.
    destruct (Z.leb_spec n 0x7F); [lia|].
    destruct (Z.leb_spec n 0x3FFF); [lia|].
    destruct (Z.leb_spec n 0x1FFFFF); [lia|].
    destruct (Z.leb_spec n 0xFFFFFFF); [lia|].
    unfold to_bytes.
    assert (Hge : n <= Z.lor 0xF000000000 n).
    { pose proof (Z.sub_lor_l_same_r 0xF000000000 n) as Hsub.
      assert (0 <= Z.land 0xF000000000 (Z.lnot n)) by (apply Z.land_nonneg; left; lia).
      lia. }
    destruct (Z.ltb_spec (Z.lor 0xF000000000 n) (2 ^ (8 * Z.of_nat 5))) as [Hlt|_].
    + exfalso. revert Hlt. eval_pows. lia.
    + rewrite andb_false_r. reflexivity.
Qed.


Lemma encode_length_past_range_witness :
  encode_length (1 * 2 ^ 36 + 0x10000000) = encode_length 0x10000000.
Proof.
  destruct (encode_length_past_range 0x10000000) as [H _].
  apply (H ltac:(vm_compute; split; reflexivity) 1). lia.
Defined.

(** *** Sentences *)

Lemma write_word_plain w :
  plain_word w -> write_word w = Ok (len w :: w).
Proof.
  intros [Hascii Hlen]. unfold write_word.
  rewrite CodecFacts.encode_length_short by lia.
  rewrite (CodecFacts.encode_ascii w Hascii). reflexivity.
Qed.

Lemma write_sentence_plain ws written :
  Forall plain_word ws ->
  write_sentence ws written = (Ok tt, written ++ frames ws).
Proof.
  intros Hws. revert written.
  induction Hws as [|w ws Hw _ IH]; intros written.
  - cbn. rewrite app_nil_r. reflexivity.
  - unfold write_sentence. cbn [for_each].
    unfold mbind at 1. unfold M_bind at 1.
    unfold write_word_to at 1. unfold mbind at 1. unfold M_bind at 1. unfold lift.
    rewrite (write_word_plain w Hw). unfold modify.
    change (for_each ws write_word_to) with (write_sentence ws).
    rewrite IH. unfold frames. cbn [flat_map]. rewrite <- app_assoc. reflexivity.
Qed.

Lemma write_empty_word written :
  write_word_to [] written = (Ok tt, written ++ [0]).
Proof. reflexivity. Qed.

Lemma read_plain_word w rest eof :
  plain_word w ->
  read_word (mkReader (len w :: w ++ rest) eof) = Done w (mkReader rest eof).
Proof.
  intros [Hascii Hlen].
  rewrite CodecFacts.read_word_low_header by (try reflexivity; lia).
  rewrite (CodecFacts.decode_ascii w Hascii). reflexivity.
Qed.

Lemma read_empty_word rest eof :
  read_word (mkReader (0 :: rest) eof) = Done [] (mkReader rest eof).
Proof.
  exact (CodecFacts.read_word_low_header 0 [] rest eof ltac:(lia) eq_refl).
Qed.

Lemma read_words_plain ws rest eof fuel :
  Forall plain_word ws -> (length ws < fuel)%nat ->
  read_words_fuel fuel (mkReader (frames ws ++ 0 :: rest) eof)
  = Done ws (mkReader rest eof).
Proof.
  intros Hws. revert fuel.
  induction Hws as [|w ws Hw _ IH]; intros fuel Hfuel.
  - destruct fuel as [|fuel]; [cbn in Hfuel; lia|].
    cbn [read_words_fuel frames flat_map app]. rewrite read_empty_word. reflexivity.
  - destruct fuel as [|fuel]; [cbn in Hfuel; lia|].
    cbn [read_words_fuel]. unfold frames. cbn [flat_map].
    rewrite <- !app_assoc. cbn [app].
    rewrite (read_plain_word w _ eof Hw).
    fold (frames ws). rewrite IH by (cbn in Hfuel; lia).
    destruct Hw as [_ Hlen]. destruct w; [unfold len in Hlen; cbn in Hlen; lia|reflexivity].
Qed.

(** X4.  A sentence of plain words, closed by the empty word as [get_sentence]
    does, goes out as the words each after its one-byte length, and the
    reader's loop takes exactly these words back from the socket and stops
    behind the closing byte. *)
Theorem plain_sentence_round_trip
  (ws : list pystr) (written rest : bytes) (eof : bool) :
  Forall plain_word ws ->
  write_sentence (ws ++ [[]]) written = (Ok tt, written ++ frames ws ++ [0]) /\
  read_words (mkReader ((frames ws ++ [0]) ++ rest) eof) = Done ws (mkReader rest eof).
Proof.
  intros Hws. split.
  - unfold write_sentence.
    assert (Happ : forall l1 l2 (w0 : bytes),
              for_each (l1 ++ l2) write_word_to w0
              = match for_each l1 write_word_to w0 with
                | (Ok _, w1) => for_each l2 write_word_to w1
                | (Raise e, w1) => (Raise e, w1)
                end).
    { induction l1 as [|x l1 IH1]; intros l2 w0; [reflexivity|].
      cbn [app for_each]. unfold mbind, M_bind.
      destruct (write_word_to x w0) as [[[]|e] w1]; [apply IH1|reflexivity]. }
    rewrite Happ. change (for_each ws write_word_to) with (write_sentence ws).
    rewrite (write_sentence_plain ws written Hws).
    cbn [for_each]. unfold mbind, M_bind. rewrite write_empty_word. cbn.
    rewrite <- app_assoc. reflexivity.
  - unfold read_words. cbn [buffer]. rewrite <- app_assoc. cbn [app].
    apply read_words_plain; [exact Hws|].
    rewrite length_app. 
    assert (length ws <= length (frames ws))%nat.
    { clear. induction ws as [|w ws IH]; [cbn; lia|].
      unfold frames in *. cbn [flat_map length]. rewrite length_app. cbn. lia. }
    lia.
Qed.

Lemma plain_sentence_round_trip_witness :
  let ws := [[47; 108; 111; 103; 105; 110]; [61; 110; 97; 109; 101; 61; 97]] in
  write_sentence (ws ++ [[]]) [] = (Ok tt, [] ++ frames ws ++ [0]) /\
  read_words (mkReader ((frames ws ++ [0]) ++ [3; 33; 114; 101]) false)
  = Done ws (mkReader [3; 33; 114; 101] false).
Proof.
  apply plain_sentence_round_trip.
  repeat (apply Forall_cons; split;
          [split; [repeat constructor; lia|vm_compute; split; discriminate]|]).
  apply Forall_nil_2.
Defined.

End FramingFacts.

(** ** Reading a sentence *)

Module ParsingFacts.

Import Mikrotik Parsing.
Local Open Scope string_scope.

Lemma split_eq_cons c s :
  split_eq (String c s)
  = if Ascii.eqb c "=" then EmptyString :: split_eq s
    else String c (hd EmptyString (split_eq s)) :: tl (split_eq s).
Proof.
  cbn [split_eq]. destruct (Ascii.eqb c "="); [reflexivity|].
  destruct (split_eq s) eqn:Hs; [|reflexivity].
  destruct s; cbn in Hs; [discriminate|].
  destruct (Ascii.eqb a "="); [discriminate|].
  destruct (split_eq s); discriminate.
Qed.

Lemma split_eq_no_eq s : no_eq s = true -> split_eq s = [s].
Proof.
  induction s as [|c s IH]; [reflexivity|].
  cbn [no_eq]. intros H. apply andb_true_iff in H. destruct H as [Hc Hs].
  rewrite split_eq_cons. apply negb_true_iff in Hc. rewrite Hc, (IH Hs). reflexivity.
Qed.

(** The first piece is what stands before the first equals sign. *)
Lemma split_eq_key key rest :
  no_eq key = true ->
  split_eq (key ++ String "=" rest) = key :: split_eq rest.
Proof.
  induction key as [|c key IH].
  - intros _. rewrite TtlFacts.append_nil, split_eq_cons. reflexivity.
  - cbn [no_eq]. intros H. apply andb_true_iff in H. destruct H as [Hc Hs].
    rewrite TtlFacts.append_cons, split_eq_cons.
    apply negb_true_iff in Hc. rewrite Hc, (IH Hs). reflexivity.
Qed.

(** Joining the pieces gives the string back. *)
Lemma join_split s : join_eq (split_eq s) = s.
Proof.
  induction s as [|c s IH]; [reflexivity|].
  rewrite split_eq_cons. destruct (Ascii.eqb_spec c "=") as [->|Hne].
  - cbn [join_eq]. destruct (split_eq s) eqn:Hs.
    + destruct s; cbn in Hs; [discriminate|].
      destruct (Ascii.eqb a "="); [discriminate|]. destruct (split_eq s); discriminate.
    + rewrite IH. reflexivity.
  - destruct (split_eq s) as [|first others] eqn:Hs.
    + destruct s; cbn in Hs; [discriminate|].
      destruct (Ascii.eqb a "="); [discriminate|]. destruct (split_eq s); discriminate.
    + cbn [hd tl]. destruct others as [|second others].
      * cbn [join_eq] in *. rewrite IH. reflexivity.
      * change (join_eq (String c first :: second :: others))
          with (String c first ++ "=" ++ join_eq (second :: others)).
        change (join_eq (first :: second :: others))
          with (first ++ "=" ++ join_eq (second :: others)) in IH.
        rewrite TtlFacts.append_cons, IH. reflexivity.
Qed.

Lemma split_eq_length_app a b :
  length (split_eq (a ++ String "=" b)) = (length (split_eq a) + length (split_eq b))%nat.
Proof.
  induction a as [|c a IH].
  - rewrite TtlFacts.append_nil, split_eq_cons. reflexivity.
  - rewrite TtlFacts.append_cons, !split_eq_cons.
    destruct (Ascii.eqb c "="); cbn [length]; [rewrite IH; reflexivity|].
    assert (Hlen : forall s, length (tl (split_eq s)) = pred (length (split_eq s)))
      by (intros s; destruct (split_eq s); reflexivity).
    assert (Hpos : forall s, (1 <= length (split_eq s))%nat).
    { intros s. destruct s as [|x s]; [cbn; lia|].
      rewrite split_eq_cons. destruct (Ascii.eqb x "="); cbn; lia. }
    rewrite !Hlen, IH. pose proof (Hpos a). pose proof (Hpos b). lia.
Qed.

Lemma split_eq_length_pos s : (1 <= length (split_eq s))%nat.
Proof.
  destruct s as [|x s]; [cbn; lia|].
  rewrite split_eq_cons. destruct (Ascii.eqb x "="); cbn; lia.
Qed.

Lemma startswith_char c x rest :
  startswith (String c EmptyString) (String x rest)
  = if ascii_dec c x then true else false.
Proof.
  unfold startswith. cbn. destruct (ascii_dec c x); [|reflexivity].
  destruct rest; reflexivity.
Qed.

(** One attribute word, as [to_attribute_words] writes it. *)
Lemma read_attribute_word s key value words :
  no_eq key = true ->
  read_sentence_from (Some s) (Ok ("=" ++ key ++ "=" ++ value) :: words)
  = read_sentence_from (Some (set_attribute key value s)) words.
Proof.
  intros Hkey.
  change ("=" ++ key ++ "=" ++ value) with (String "=" (key ++ String "=" value)).
  cbn [read_sentence_from]. 
  change (String.eqb (String "=" (key ++ String "=" value)) EmptyString) with false.
  rewrite !startswith_char.
  destruct (ascii_dec "!" "="); [discriminate|].
  destruct (ascii_dec "=" "="); [|congruence]. cbn [drop_first]. rewrite (split_eq_key key value Hkey).
  cbn [hd tl]. rewrite join_split. reflexivity.
Qed.

(** The attribute words of a mapping, read one after the other. *)
Lemma read_attribute_words attrs s words :
  Forall (fun item => no_eq (fst item) = true) attrs ->
  read_sentence_from (Some s) (map Ok (to_attribute_words attrs) ++ words)
  = read_sentence_from
      (Some (fold_left (fun s item => set_attribute (fst item) (to_word_value (snd item)) s)
               attrs s))
      words.
Proof.
  intros Hattrs. revert s.
  induction Hattrs as [|[key value] attrs Hkey _ IH]; intros s; [reflexivity|].
  cbn [to_attribute_words map app fold_left fst snd].
  rewrite read_attribute_word by exact Hkey. apply IH.
Qed.

Lemma word_values_keys attrs : (word_values attrs).*1 = attrs.*1.
Proof.
  induction attrs as [|[key value] attrs IH]; [reflexivity|].
  cbn [word_values map]. rewrite !fmap_cons. cbn [fst]. f_equal. exact IH.
Qed.

Lemma fold_set_attribute attrs s :
  NoDup attrs.*1 ->
  fold_left (fun s item => set_attribute (fst item) (to_word_value (snd item)) s) attrs s
  = mkResponseSentence (api_attributes s)
      (list_to_map (word_values attrs) ∪ attributes s) (type s).
Proof.
  revert s. induction attrs as [|[key value] attrs IH]; intros s Hnd.
  - cbn. rewrite (left_id_L ∅ (∪)). destruct s; reflexivity.
  - rewrite fmap_cons in Hnd. apply NoDup_cons in Hnd. destruct Hnd as [Hnotin Hnd].
    cbn [fold_left fst snd] in *. rewrite (IH _ Hnd).
    cbn [set_attribute attributes api_attributes type word_values map].
    change (map _ attrs) with (word_values attrs).
    rewrite list_to_map_cons, <- insert_union_l, <- insert_union_r; [reflexivity|].
    apply not_elem_of_list_to_map_1. rewrite word_values_keys. exact Hnotin.
Qed.

Lemma startswith_bang_inv word :
  startswith "!" word = true -> exists rest, word = String "!" rest.
Proof.
  destruct word as [|c rest]; [discriminate|].
  rewrite startswith_char. destruct (ascii_dec "!" c) as [<-|]; [eauto|discriminate].
Qed.

Lemma read_type_word sentence rest words :
  read_sentence_from sentence (Ok (String "!" rest) :: words)
  = read_sentence_from (Some (new_sentence (String "!" rest))) words.
Proof.
  cbn [read_sentence_from]. rewrite startswith_char.
  destruct (ascii_dec "!" "!"); [reflexivity|congruence].
Qed.

(** A word that starts with a dot, read into a sentence. *)
Lemma read_api_word s rest words :
  read_sentence_from (Some s) (Ok (String "." rest) :: words)
  = match split_eq (String "." rest) with
    | [key; tag] => read_sentence_from (Some (set_api_attribute key tag s)) words
    | [_] => Raise (ValueError "not enough values to unpack (expected 2, got 1)")
    | _ => Raise (ValueError "too many values to unpack (expected 2)")
    end.
Proof.
  cbn [read_sentence_from]. rewrite !startswith_char.
  destruct (ascii_dec "!" "."); [discriminate|].
  destruct (ascii_dec "=" "."); [discriminate|].
  destruct (ascii_dec "." "."); [reflexivity|congruence].
Qed.

(** X5.  A response sentence survives the trip through the words: from the type
    word, the attribute words that [to_attribute_words] writes for a
    mapping whose keys hold no equals sign, the tag word and the empty
    word, [read_sentence] builds the sentence with that type, the
    attributes with their values as written, equals signs in values
    included, and the tag; what follows the empty word is not read. *)
Theorem response_sentence_round_trip
  (type : string) (attrs : list (string * pyval)) (tag : string)
  (later : list (result string)) :
  startswith "!" type = true ->
  Forall (fun item => no_eq (fst item) = true) attrs ->
  NoDup attrs.*1 ->
  no_eq tag = true ->
  read_sentence (sentence_words type attrs tag ++ later)
  = Ok (Some (mkResponseSentence {[ ".tag" := tag ]}
                (list_to_map (word_values attrs)) type)).
Proof.
  intros Htype Hkeys Hnd Htag.
  destruct (startswith_bang_inv type Htype) as [rest ->].
  unfold read_sentence, sentence_words. cbn [map app].
  rewrite read_type_word, map_app, <- app_assoc.
  rewrite read_attribute_words by exact Hkeys.
  rewrite (fold_set_attribute attrs _ Hnd).
  cbn [map app new_sentence api_attributes attributes Mikrotik.type].
  change (String.append ".tag=" tag) with (String "." ("tag" ++ String "=" tag)).
  rewrite read_api_word.
  change (String "." ("tag" ++ String "=" tag)) with (".tag" ++ String "=" tag).
  rewrite (split_eq_key ".tag" tag eq_refl), (split_eq_no_eq tag Htag).
  cbn [read_sentence_from String.eqb]. unfold set_api_attribute.
  cbn [api_attributes attributes Mikrotik.type].
  rewrite (right_id_L ∅ (∪)). reflexivity.
Qed.

Lemma response_sentence_round_trip_witness :
  read_sentence
    (sentence_words "!re" [("name", PyStr "svc.lan"); ("text", PyStr "k=v")] "7f"
     ++ [Ok "!done"])
  = Ok (Some (mkResponseSentence {[ ".tag" := "7f" ]}
                (list_to_map (word_values [("name", PyStr "svc.lan");
                                           ("text", PyStr "k=v")])) "!re")).
Proof.
  apply response_sentence_round_trip.
  - reflexivity.
  - repeat constructor.
  - cbn [fmap list_fmap fst].
    apply NoDup_cons. split; [intros Hin; apply list_elem_of_singleton in Hin; discriminate|].
    apply NoDup_singleton.
  - reflexivity.
Defined.

(** X6.  An api attribute must have exactly one equals sign.  In a word that
    starts with a dot, a second equals sign, as in a tag that holds one,
    makes [read_sentence] raise [ValueError], and so does a word without
    any; an attribute word keeps such a value. *)
Theorem api_word_needs_one_equals
  (type key v1 v2 : string) (later : list (result string)) :
  startswith "!" type = true ->
  startswith "." key = true ->
  read_sentence (Ok type :: Ok (key ++ "=" ++ v1 ++ "=" ++ v2) :: later)
  = Raise (ValueError "too many values to unpack (expected 2)") /\
  (no_eq key = true ->
   read_sentence (Ok type :: Ok key :: later)
   = Raise (ValueError "not enough values to unpack (expected 2, got 1)")).
Proof.
  intros Htype Hkey.
  destruct (startswith_bang_inv type Htype) as [rest ->].
  destruct key as [|c key]; [discriminate|].
  rewrite startswith_char in Hkey. destruct (ascii_dec "." c) as [<-|]; [|discriminate].
  unfold read_sentence. rewrite !read_type_word. split.
  - change (String "." key ++ "=" ++ v1 ++ "=" ++ v2)
      with (String "." (key ++ String "=" (v1 ++ String "=" v2))).
    rewrite read_api_word.
    change (String "." (key ++ String "=" (v1 ++ String "=" v2)))
      with (String "." key ++ String "=" (v1 ++ String "=" v2)).
    pose proof (split_eq_length_app (String "." key) (v1 ++ String "=" v2)) as Hlen.
    rewrite (split_eq_length_app v1 v2) in Hlen.
    pose proof (split_eq_length_pos (String "." key)).
    pose proof (split_eq_length_pos v1). pose proof (split_eq_length_pos v2).
    destruct (split_eq _) as [|p1 [|p2 [|p3 ps]]]; cbn [length] in Hlen;
      try lia; reflexivity.
  - intros Hno. rewrite read_api_word, (split_eq_no_eq _ Hno). reflexivity.
Qed.

Lemma api_word_needs_one_equals_witness :
  read_sentence [Ok "!done"; Ok (".tag" ++ "=" ++ "7f" ++ "=" ++ "x")]
  = Raise (ValueError "too many values to unpack (expected 2)").
Proof.
  destruct (api_word_needs_one_equals "!done" ".tag" "7f" "x" [] eq_refl eq_refl)
    as [H _].
  exact H.
Defined.

(** Words that are read before a type word and do not raise. *)
Lemma read_sentence_from_skip sentence pre words :
  Forall (fun w => w <> EmptyString /\ startswith "." w = false) pre ->
  exists sentence',
    read_sentence_from sentence (map Ok pre ++ words)
    = read_sentence_from sentence' words.
Proof.
  intros Hpre. revert sentence.
  induction Hpre as [|w pre [Hne Hdot] _ IH]; intros sentence; [eauto|].
  cbn [map app read_sentence_from].
  destruct (String.eqb_spec w EmptyString) as [|_]; [contradiction|].
  rewrite Hdot.
  destruct (startswith "!" w); [apply IH|].
  destruct sentence as [s|]; [|apply IH].
  destruct (startswith "=" w); apply IH.
Qed.

(** X7.  The sentence returned begins at the last type word: whatever was read
    before a type word, attributes of an earlier type word included, is
    dropped; and without any type word there is no sentence. *)
Theorem sentence_starts_at_last_type_word
  (pre : list string) (type : string) (words : list (result string)) :
  Forall (fun w => w <> EmptyString /\ startswith "." w = false) pre ->
  startswith "!" type = true ->
  read_sentence (map Ok pre ++ Ok type :: words) = read_sentence (Ok type :: words) /\
  (Forall (fun w => startswith "!" w = false) pre ->
   read_sentence (map Ok pre) = Ok None).
Proof.
  intros Hpre Htype.
  destruct (startswith_bang_inv type Htype) as [rest ->]. split.
  - unfold read_sentence.
    destruct (read_sentence_from_skip None pre (Ok (String "!" rest) :: words) Hpre)
      as [sentence' ->].
    rewrite !read_type_word. reflexivity.
  - intros Hno. unfold read_sentence. clear Hpre.
    induction Hno as [|w pre Hw _ IH]; [reflexivity|].
    cbn [map read_sentence_from]. rewrite Hw.
    destruct (String.eqb w EmptyString); [reflexivity|exact IH].
Qed.

Lemma sentence_starts_at_last_type_word_witness :
  read_sentence (map Ok ["!re"; "=name=old"] ++ Ok "!done" :: [Ok ".tag=7f"])
  = read_sentence (Ok "!done" :: [Ok ".tag=7f"]).
Proof.
  destruct (sentence_starts_at_last_type_word ["!re"; "=name=old"] "!done"
              [Ok ".tag=7f"]) as [H _].
  - repeat (apply Forall_cons; split; [split; [discriminate|reflexivity]|]).
    apply Forall_nil_2.
  - reflexivity.
  - exact H.
Defined.

End ParsingFacts.

(** ** What a response hands to its caller *)

Module AccessorFacts.

Import Mikrotik Accessors.
Local Open Scope string_scope.

Lemma is_trap_false_filter l :
  has_trap l = false -> filter (fun s => type s = "!trap") l = [].
Proof.
  induction l as [|s l IH]; [reflexivity|].
  cbn [has_trap existsb]. intros H. apply orb_false_iff in H. destruct H as [Hs Hl].
  rewrite filter_cons. destruct (decide (type s = "!trap")) as [Heq|_].
  - unfold is_trap in Hs. rewrite Heq in Hs. discriminate.
  - apply IH, Hl.
Qed.

(** Sentences other than [!done], passed to a response in progress: all
    are recorded, the event stays unset, and the status turns to [Error]
    with the first [!trap]. *)
Lemma apply_sentences_no_done pre r :
  is_complete r = false ->
  Forall (fun s => is_done s = false) pre ->
  apply_sentences pre r
  = mkResponse false (request r) (sentences r ++ pre)%list
      (if has_trap pre then Error else status r).
Proof.
  intros Hr Hpre. revert r Hr.
  induction Hpre as [|s pre Hs _ IH]; intros r Hr.
  - cbn. rewrite app_nil_r. unfold is_complete in Hr. destruct r; cbn in *. congruence.
  - unfold apply_sentences. cbn [fold_left].
    rewrite ResponseFacts.update_in_progress by exact Hr. cbn [snd]. rewrite Hs.
    fold (apply_sentences pre
            (if is_trap s
             then set_status Error (set_sentences (sentences r ++ [s])%list r)
             else set_sentences (sentences r ++ [s])%list r)).
    rewrite IH.
    + cbn [has_trap existsb]. fold (has_trap pre).
      destruct (is_trap s); cbn; rewrite <- app_assoc; cbn;
        destruct (has_trap pre); reflexivity.
    + unfold is_complete in *. destruct (is_trap s); cbn; exact Hr.
Qed.

(** Sentences passed to a complete response change nothing. *)
Lemma apply_sentences_complete later r :
  is_complete r = true -> apply_sentences later r = r.
Proof.
  intros Hr. induction later as [|s later IH]; [reflexivity|].
  unfold apply_sentences. cbn [fold_left].
  rewrite ResponseFacts.update_complete by exact Hr. exact IH.
Qed.

Lemma apply_sentences_app l1 l2 r :
  apply_sentences (l1 ++ l2)%list r = apply_sentences l2 (apply_sentences l1 r).
Proof. unfold apply_sentences. apply fold_left_app. Qed.

(** The first [!done] completes a response in progress, and what comes
    after it is not taken. *)
Lemma apply_sentences_done done later r :
  is_complete r = false -> type done = "!done" ->
  apply_sentences (done :: later) r
  = mkResponse true (request r) (sentences r ++ [done])%list
      (match status r with InProgress => Success | st => st end).
Proof.
  intros Hr Hdone. unfold apply_sentences. cbn [fold_left].
  rewrite ResponseFacts.update_in_progress by exact Hr. cbn [snd].
  assert (Hd : is_done done = true) by (unfold is_done; rewrite Hdone; reflexivity).
  assert (Ht : is_trap done = false) by (unfold is_trap; rewrite Hdone; reflexivity).
  rewrite Hd, Ht. fold (apply_sentences later).
  rewrite apply_sentences_complete by reflexivity.
  destruct r as [ev rq ss st]. cbn. destruct st; reflexivity.
Qed.

Lemma filter_snoc_done (P : ResponseSentence -> Prop) `{forall s, Decision (P s)}
  (l : list ResponseSentence) d :
  ~ P d -> filter P (l ++ [d])%list = filter P l.
Proof.
  intros Hd. rewrite filter_app, filter_cons.
  destruct (decide (P d)); [contradiction|]. cbn. apply app_nil_r.
Qed.

(** X8.  Before [!done] has arrived the response is in progress, and all three
    accessors refuse it, whether or not a [!trap] has arrived. *)
Theorem accessors_before_done (req : Request) (pre : list ResponseSentence) :
  Forall (fun s => type s <> "!done") pre ->
  let r := apply_sentences pre (new_response req) in
  is_complete r = false /\
  sentences r = pre /\
  accessors r = (Raise (RuntimeError "response in progress"),
                 Raise (RuntimeError "response in progress"),
                 Raise (RuntimeError "response in progress")).
Proof.
  intros Hpre r. subst r.
  rewrite apply_sentences_no_done; [repeat split|reflexivity|].
  eapply Forall_impl; [exact Hpre|]. intros s Hs. unfold is_done.
  destruct (String.eqb_spec (type s) "!done"); [contradiction|reflexivity].
Qed.

Lemma accessors_before_done_witness :
  accessors (apply_sentences [new_sentence "!re"; new_sentence "!trap"]
               (new_response (mkRequest "7f" ["/ip/dns/static/print"])))
  = (Raise (RuntimeError "response in progress"),
     Raise (RuntimeError "response in progress"),
     Raise (RuntimeError "response in progress")).
Proof.
  destruct (accessors_before_done (mkRequest "7f" ["/ip/dns/static/print"])
              [new_sentence "!re"; new_sentence "!trap"]) as (_ & _ & H).
  - repeat (apply Forall_cons; split; [discriminate|]). apply Forall_nil_2.
  - exact H.
Defined.

(** X9.  Once [!done] has arrived.  The sentences recorded are those up to and
    including the first [!done], later ones are not taken.  Without a
    [!trap] among them the status is [Success], [raise_for_error] returns
    and [get_data] gives the attributes of the [!re] sentences in the order
    of arrival; with a [!trap] the status is [Error], [raise_for_error]
    raises [ResponseError] with the messages of the traps in order, and
    [get_data] refuses the response. *)
Theorem accessors_after_done
  (req : Request) (pre : list ResponseSentence) (done : ResponseSentence)
  (later : list ResponseSentence) :
  Forall (fun s => type s <> "!done") pre ->
  type done = "!done" ->
  let r := apply_sentences (pre ++ done :: later)%list (new_response req) in
  is_complete r = true /\
  sentences r = (pre ++ [done])%list /\
  if has_trap pre
  then status r = Error /\
       accessors r = (Raise (ResponseError (messages_of pre)),
                      Raise (RuntimeError "response not success"),
                      Ok (map attributes (filter (fun s => type s = "!trap") pre)))
  else status r = Success /\
       accessors r = (Ok tt, Ok (data_of pre), Raise (RuntimeError "response not error")).
Proof.
  intros Hpre Hdone r. subst r.
  assert (Hpre' : Forall (fun s => is_done s = false) pre).
  { eapply Forall_impl; [exact Hpre|]. intros s Hs. unfold is_done.
    destruct (String.eqb_spec (type s) "!done"); [contradiction|reflexivity]. }
  rewrite apply_sentences_app, (apply_sentences_no_done pre) by (reflexivity || exact Hpre').
  rewrite apply_sentences_done by (reflexivity || exact Hdone).
  cbn [new_response sentences status request app is_complete completion_event].
  split; [reflexivity|]. split; [reflexivity|].
  assert (Hre : ~ type done = "!re") by (rewrite Hdone; discriminate).
  assert (Htr : ~ type done = "!trap") by (rewrite Hdone; discriminate).
  destruct (has_trap pre) eqn:Htrap; (split; [reflexivity|]);
    unfold accessors, raise_for_error, error_messages, get_data, get_error_data,
      data_of, messages_of;
    cbn [is_complete completion_event status sentences negb mbind result_bind rbind];
    rewrite ?(filter_snoc_done _ pre done Hre), ?(filter_snoc_done _ pre done Htr),
      ?map_map;
    reflexivity.
Qed.

Lemma accessors_after_done_witness :
  let re := mkResponseSentence ∅ {[ "name" := "svc.lan" ]} "!re" in
  let r := apply_sentences ([re] ++ new_sentence "!done" :: [re])%list
             (new_response (mkRequest "7f" ["/ip/dns/static/print"])) in
  is_complete r = true /\
  sentences r = ([re] ++ [new_sentence "!done"])%list /\
  status r = Success /\
  accessors r = (Ok tt, Ok (data_of [re]), Raise (RuntimeError "response not error")).
Proof.
  intros re.
  apply (accessors_after_done (mkRequest "7f" ["/ip/dns/static/print"])
           [re] (new_sentence "!done") [re]).
  - repeat (apply Forall_cons; split; [discriminate|]). apply Forall_nil_2.
  - reflexivity.
Defined.

End AccessorFacts.

(** * The reader task, the idle test and the cancelling loop *)

Module LifecycleFacts.

Import Mikrotik Lifecycle.
Local Open Scope string_scope.

(** What [update_with_sentence] makes of a response in progress. *)
Lemma update_in_progress_fields s r :
  is_complete r = false ->
  fst (update_with_sentence s r) = Ok tt /\
  sentences (snd (update_with_sentence s r)) = (sentences r ++ [s])%list /\
  is_complete (snd (update_with_sentence s r)) = is_done s /\
  request (snd (update_with_sentence s r)) = request r.
Proof.
  intros H. rewrite (ResponseFacts.update_in_progress s r H). cbn.
  destruct (is_trap s) eqn:Ht.
  - rewrite (ResponseFacts.trap_is_not_done s Ht). cbn. auto.
  - destruct (is_done s) eqn:Hd; cbn.
    + destruct (status r); cbn; auto.
    + auto.
Qed.

(** [read] on a sentence whose tag has a response in progress. *)
Lemma read_known_tag now s self st tag r :
  stream self = Some st ->
  tag_of s = Some tag ->
  responses self !! tag = Some r ->
  is_complete r = false ->
  read now (Ok (Some s)) self =
    (Ok tt,
     set_responses
       (if is_done s then delete tag (responses self)
        else <[tag := snd (update_with_sentence s r)]> (responses self))
       (set_idle_since now self)).
Proof.
  intros Hst Htag Hr Hc.
  destruct (update_in_progress_fields s r Hc) as (Ho & _ & Hd & _).
  unfold read, mbind, M_bind, gets, lift, modify, raise.
  unfold tag_of in Htag. rewrite Hst, Htag. cbn. rewrite Hr.
  destruct (update_with_sentence s r) as [o r'] eqn:E. cbn in Ho, Hd. subst o.
  cbn. rewrite Hd. destruct (is_done s); cbn.
  - unfold set_responses, set_idle_since; cbn. rewrite delete_insert_eq. reflexivity.
  - reflexivity.
Qed.

Lemma read_no_stream now incoming self :
  stream self = None -> read now incoming self = (Ok tt, self).
Proof.
  intros H. unfold read, mbind, M_bind, gets. rewrite H. reflexivity.
Qed.

Lemma read_no_sentence now self st :
  stream self = Some st -> read now (Ok None) self = (Ok tt, self).
Proof.
  intros H. unfold read, mbind, M_bind, gets, lift. rewrite H. reflexivity.
Qed.

Lemma read_raises now e self st :
  stream self = Some st -> read now (Raise e) self = (Raise e, self).
Proof.
  intros H. unfold read, mbind, M_bind, gets, lift. rewrite H. reflexivity.
Qed.

(** The five ways through [read]. *)
Lemma read_cases now incoming self :
  pending_incomplete self ->
  (read now incoming self = (Ok tt, self) /\
   (stream self = None \/ incoming = Ok None)) \/
  (exists e, incoming = Raise e /\ stream self <> None /\
     read now incoming self = (Raise e, self)) \/
  (exists s e, incoming = Ok (Some s) /\ stream self <> None /\
     read now incoming self = (Raise e, set_idle_since now self)) \/
  (exists s tag r, incoming = Ok (Some s) /\ stream self <> None /\
     tag_of s = Some tag /\ responses self !! tag = Some r /\
     read now incoming self =
       (Ok tt,
        set_responses
          (if is_done s then delete tag (responses self)
           else <[tag := snd (update_with_sentence s r)]> (responses self))
          (set_idle_since now self))).
Proof.
  intros Hp. destruct (stream self) as [st|] eqn:Hst.
  2:{ left. split; [apply read_no_stream; exact Hst | left; reflexivity]. }
  destruct incoming as [[s|]|e].
  - destruct (tag_of s) as [tag|] eqn:Htag.
    + destruct (responses self !! tag) as [r|] eqn:Hr.
      * right; right; right. exists s, tag, r.
        repeat split; try assumption; [discriminate|].
        eapply read_known_tag; eauto.
      * right; right; left. exists s, (KeyError tag).
        repeat split; [discriminate|].
        eapply ConnectionFacts.read_unknown_tag; eauto.
    + right; right; left. exists s, (RuntimeError "tag not found").
      repeat split; [discriminate|].
      eapply ConnectionFacts.read_without_tag; eauto.
  - left. split; [eapply read_no_sentence; eauto | right; reflexivity].
  - right; left. exists e. repeat split; [discriminate|].
    eapply read_raises; eauto.
Qed.

(** One [read] keeps the registered responses incomplete, registers none,
    and touches neither the closed signal nor the stream. *)
Lemma read_keeps now incoming self :
  pending_incomplete self ->
  pending_incomplete (snd (read now incoming self)) /\
  (forall tag, responses self !! tag = None ->
               responses (snd (read now incoming self)) !! tag = None) /\
  closed_event (snd (read now incoming self)) = closed_event self /\
  stream (snd (read now incoming self)) = stream self.
Proof.
  intros Hp.
  destruct (read_cases now incoming self Hp)
    as [[-> _]|[(e & _ & _ & ->)|[(s & e & _ & _ & ->)|(s & tag & r & _ & _ & Htag & Hr & ->)]]];
    cbn [snd]; try (repeat split; solve [auto]).
  repeat split; try reflexivity.
  - intros t r'. cbn.
    destruct (update_in_progress_fields s r (Hp _ _ Hr)) as (_ & _ & Hd & _).
    destruct (is_done s) eqn:E.
    + intros H. apply lookup_delete_Some in H as [_ H]. eapply Hp; eauto.
    + intros H. apply lookup_insert_Some in H as [[_ <-]|[_ H]]; [exact Hd|].
      eapply Hp; eauto.
  - intros t Ht. cbn. destruct (is_done s).
    + apply lookup_delete_None. right. exact Ht.
    + apply lookup_insert_None. split; [exact Ht|]. intros ->. congruence.
Qed.

Lemma apply_sentences_cons s l r :
  apply_sentences (s :: l) r = apply_sentences l (snd (update_with_sentence s r)).
Proof. reflexivity. Qed.

(** X10.  A sentence whose tag has a response in progress goes to
    that response and to no other: [read] returns normally, the sentence is
    appended to the response, which is complete from then on exactly when
    the sentence is a [!done]; a [!done] takes the response out of the
    dictionary, any other sentence leaves the updated response registered;
    every other entry is as before. *)
Theorem read_dispatches_by_tag now s self st tag r :
  stream self = Some st ->
  tag_of s = Some tag ->
  responses self !! tag = Some r ->
  is_complete r = false ->
  let updated := snd (update_with_sentence s r) in
  let after := snd (read now (Ok (Some s)) self) in
  fst (read now (Ok (Some s)) self) = Ok tt /\
  sentences updated = (sentences r ++ [s])%list /\
  is_complete updated = is_done s /\
  responses after !! tag = (if is_done s then None else Some updated) /\
  forall other, other <> tag -> responses after !! other = responses self !! other.
Proof.
  intros Hst Htag Hr Hc updated after.
  destruct (update_in_progress_fields s r Hc) as (_ & Hs & Hd & _).
  subst updated after. rewrite (read_known_tag now s self st tag r Hst Htag Hr Hc).
  cbn. repeat split; try assumption.
  - destruct (is_done s); [apply lookup_delete_eq | apply lookup_insert_eq].
  - intros other Hne. destruct (is_done s);
      [apply lookup_delete_ne | apply lookup_insert_ne]; congruence.
Qed.

Lemma read_dispatches_by_tag_witness :
  let s := reply "t1" "svc.lan" in
  let after := snd (read 5 (Ok (Some s)) sample_connection) in
  fst (read 5 (Ok (Some s)) sample_connection) = Ok tt /\
  (sentences <$> responses after !! "t1") = Some [s].
Proof.
  pose proof (read_dispatches_by_tag 5 (reply "t1" "svc.lan") sample_connection
                (mkStream "192.168.88.1" 8728) "t1"
                (new_response (mkRequest "t1" ["/ip/dns/static/print"; "=detail="]))
                eq_refl eq_refl eq_refl eq_refl) as (H1 & H2 & _ & H4 & _).
  cbv zeta. split; [exact H1|].
  rewrite H4. change (is_done (reply "t1" "svc.lan")) with false. cbn [fmap option_fmap option_map].
  rewrite H2. reflexivity.
Defined.

(** X11.  The reader task never leaves a complete response in the
    dictionary and never adds an entry to it: if no registered response is
    complete before, none is after any run of the reader, whatever arrives
    and however the run ends, and a tag without an entry before has none
    after. *)
Theorem reader_keeps_pending_incomplete inputs self :
  pending_incomplete self ->
  pending_incomplete (snd (run_background_read inputs self)) /\
  forall tag, responses self !! tag = None ->
              responses (snd (run_background_read inputs self)) !! tag = None.
Proof.
  revert self. induction inputs as [|[now incoming] inputs IH]; intros self Hp.
  - cbn. destruct (closed_event self), (stream self); cbn; auto.
  - cbn. destruct (closed_event self); [cbn; auto|].
    destruct (stream self) eqn:Hst; [|cbn; auto].
    destruct (read_keeps now incoming self Hp) as (Hp' & Hn' & _ & _).
    destruct (read now incoming self) as [[[]|e] self'] eqn:E; cbn [snd] in *.
    + destruct (IH self' Hp') as (H1 & H2). split; [exact H1|].
      intros tag Ht. apply H2, Hn', Ht.
    + cbn. auto.
Qed.

Lemma reader_keeps_pending_incomplete_witness :
  let after := snd (run_background_read
                      [(1, Ok (Some (reply "t1" "svc.lan")));
                       (2, Ok (Some (mkResponseSentence {[ ".tag" := "t1" ]} ∅ "!done")));
                       (3, Ok (Some (reply "t1" "late.lan")))]
                      sample_connection) in
  pending_incomplete after /\ responses after !! "t2" = None.
Proof.
  cbv zeta.
  destruct (reader_keeps_pending_incomplete
              [(1, Ok (Some (reply "t1" "svc.lan")));
               (2, Ok (Some (mkResponseSentence {[ ".tag" := "t1" ]} ∅ "!done")));
               (3, Ok (Some (reply "t1" "late.lan")))]
              sample_connection) as (H1 & H2).
  - intros tag r H. cbn in H. apply lookup_singleton_Some in H as [_ <-]. reflexivity.
  - split; [exact H1|]. apply H2. reflexivity.
Defined.

(** X12.  The idle clock starts again at every sentence that
    arrives on an open stream, also at one that [read] then fails on (no
    tag, unknown tag); a read that brings no sentence or that raises in
    [read_sentence], and a read without a stream, leave it as it is.  So
    the connection counts as idle at a later time exactly when the timeout
    has passed since the last sentence. *)
Theorem sentence_restarts_idle_clock now incoming self later :
  pending_incomplete self ->
  is_idle later (snd (read now incoming self)) =
    match stream self, incoming with
    | Some _, Ok (Some _) => (idle_timeout self <=? later - now)%Z
    | _, _ => is_idle later self
    end.
Proof.
  intros Hp.
  destruct (read_cases now incoming self Hp)
    as [[-> H]|[(e & -> & H & ->)|[(s & e & -> & H & ->)|(s & tag & r & -> & H & _ & _ & ->)]]];
    cbn [snd].
  - destruct H as [->| ->]; [reflexivity|]. destruct (stream self); reflexivity.
  - destruct (stream self); reflexivity.
  - destruct (stream self); [reflexivity|congruence].
  - destruct (stream self); [reflexivity|congruence].
Qed.

Lemma sentence_restarts_idle_clock_witness :
  is_idle 12 sample_connection = true /\
  is_idle 12 (snd (read 5 (Ok (Some untagged_sentence)) sample_connection)) = false.
Proof.
  split; [reflexivity|].
  rewrite (sentence_restarts_idle_clock 5 (Ok (Some untagged_sentence)) sample_connection 12).
  - reflexivity.
  - intros tag r H. cbn in H. apply lookup_singleton_Some in H as [_ <-]. reflexivity.
Defined.

Lemma tagged_cons_eq tag s l :
  tag_of s = Some tag -> tagged tag (s :: l) = s :: tagged tag l.
Proof. intros H. unfold tagged. rewrite filter_cons_True by exact H. reflexivity. Qed.

Lemma tagged_cons_ne tag s l :
  tag_of s <> Some tag -> tagged tag (s :: l) = tagged tag l.
Proof. intros H. unfold tagged. rewrite filter_cons_False by exact H. reflexivity. Qed.

(** X13.  The reader splits the stream of sentences by tag.  On an
    open connection, when every sentence that arrives carries the tag of a
    registered response and none is a [!done], the reader goes through all
    of them and is still running, and each registered response has received
    exactly the sentences with its tag, in the order of arrival. *)
Theorem reader_demultiplexes (l : list (Z * ResponseSentence)) self st :
  closed_event self = false ->
  stream self = Some st ->
  pending_incomplete self ->
  Forall (fun a => is_done (snd a) = false /\
                   exists tag, tag_of (snd a) = Some tag /\
                               is_Some (responses self !! tag)) l ->
  fst (run_background_read (arrivals l) self) = TaskRunning /\
  forall tag r,
    responses self !! tag = Some r ->
    responses (snd (run_background_read (arrivals l) self)) !! tag
    = Some (apply_sentences (tagged tag (map snd l)) r).
Proof.
  revert self. induction l as [|[now s] l IH]; intros self Hc Hst Hp Hl.
  - cbn. rewrite Hc, Hst. cbn. auto.
  - apply Forall_cons in Hl as [(Hd & tag & Htag & [r Hr]) Hl]. cbn [snd] in *.
    change (arrivals ((now, s) :: l)) with ((now, Ok (Some s)) :: arrivals l).
    cbn [run_background_read]. rewrite Hc, Hst.
    rewrite (read_known_tag now s self st tag r Hst Htag Hr (Hp _ _ Hr)).
    rewrite Hd.
    set (self' := set_responses _ _).
    destruct (update_in_progress_fields s r (Hp _ _ Hr)) as (_ & _ & Hd' & _).
    rewrite Hd in Hd'.
    assert (Hp' : pending_incomplete self').
    { intros t r'. subst self'. cbn. intros H.
      apply lookup_insert_Some in H as [[_ <-]|[_ H]]; [exact Hd'|eapply Hp; eauto]. }
    assert (Hl' : Forall (fun a => is_done (snd a) = false /\
                   exists tag, tag_of (snd a) = Some tag /\
                               is_Some (responses self' !! tag)) l).
    { eapply Forall_impl; [exact Hl|]. intros a (Ha & t & Ht & Hs).
      split; [exact Ha|]. exists t. split; [exact Ht|].
      subst self'. cbn. apply lookup_insert_is_Some'. right. exact Hs. }
    destruct (IH self' Hc Hst Hp' Hl') as (H1 & H2).
    split; [exact H1|]. intros t r0 Hr0.
    destruct (decide (t = tag)) as [->|Hne].
    + assert (r0 = r) by congruence. subst r0.
      cbn [map snd]. rewrite (tagged_cons_eq tag s _ Htag), apply_sentences_cons.
      apply H2. subst self'. cbn. apply lookup_insert_eq.
    + cbn [map snd]. rewrite tagged_cons_ne by congruence.
      apply H2. subst self'. cbn. rewrite lookup_insert_ne by congruence. exact Hr0.
Qed.

Lemma reader_demultiplexes_witness :
  let l := [(1, reply "t1" "a.lan"); (2, reply "t2" "b.lan"); (3, reply "t1" "c.lan")] in
  let after := snd (run_background_read (arrivals l) two_request_connection) in
  fst (run_background_read (arrivals l) two_request_connection) = TaskRunning /\
  (sentences <$> responses after !! "t1")
  = Some [reply "t1" "a.lan"; reply "t1" "c.lan"] /\
  (sentences <$> responses after !! "t2") = Some [reply "t2" "b.lan"].
Proof.
  cbv zeta.
  destruct (reader_demultiplexes
              [(1, reply "t1" "a.lan"); (2, reply "t2" "b.lan"); (3, reply "t1" "c.lan")]
              two_request_connection (mkStream "192.168.88.1" 8728) eq_refl eq_refl)
    as (H1 & H2).
  - intros tag r H. cbn in H.
    apply lookup_insert_Some in H as [[_ <-]|[_ H]]; [reflexivity|].
    apply lookup_singleton_Some in H as [_ <-]. reflexivity.
  - repeat constructor;
      first [ exists "t1"; split; [reflexivity|eexists; reflexivity]
            | exists "t2"; split; [reflexivity|eexists; reflexivity] ].
  - split; [exact H1|]. split.
    + rewrite (H2 "t1" _ eq_refl). reflexivity.
    + rewrite (H2 "t2" _ eq_refl). reflexivity.
Defined.

(** The cancelling loop on a dictionary of responses in progress. *)
Lemma cancel_all_fuel_spec order fuel rs acc :
  (forall tag r, rs !! tag = Some r -> is_complete r = false) ->
  (size rs <= fuel)%nat ->
  exists l,
    cancel_all_fuel order fuel rs acc = (Ok tt, ∅, (acc ++ l)%list) /\
    Permutation l (map cancelled_response (map snd (map_to_list rs))).
Proof.
  revert rs acc. induction fuel as [|fuel IH]; intros rs acc Hp Hsz.
  - assert (rs = ∅) as -> by (apply map_size_empty_inv; lia).
    exists []. rewrite app_nil_r, map_to_list_empty. split; reflexivity.
  - cbn [cancel_all_fuel].
    destruct (popitem_key order rs) as [tag|] eqn:Hk.
    + destruct (popitem_key_Some order rs tag Hk) as [r Hr]. rewrite Hr.
      rewrite (ResponseFacts.cancel_in_progress r (Hp _ _ Hr)).
      fold (cancelled_response r).
      destruct (IH (delete tag rs) (acc ++ [cancelled_response r])%list) as (l & Hl & Hperm).
      * intros t r' H. apply lookup_delete_Some in H as [_ H]. eapply Hp; eauto.
      * rewrite map_size_delete, Hr. lia.
      * exists (cancelled_response r :: l). split.
        -- rewrite Hl, <- app_assoc. reflexivity.
        -- rewrite <- (map_to_list_delete rs tag r Hr). cbn. constructor. exact Hperm.
    + rewrite (popitem_key_None order rs Hk).
      exists []. rewrite app_nil_r, map_to_list_empty. split; reflexivity.
Qed.

(** X14.  The last loop of [close], on a dictionary whose responses
    are all in progress, ends normally with the dictionary empty, whatever
    the order in which [popitem] takes the entries; each response was
    cancelled once: it got the [response cancelled] trap as its last
    sentence and has status [Error].  None of them is complete afterwards,
    so [raise_for_error] on each still reports [response in progress]. *)
Theorem close_cancels_every_pending_response order rs :
  (forall tag r, rs !! tag = Some r -> is_complete r = false) ->
  exists cancelled,
    cancel_all order rs = (Ok tt, ∅, cancelled) /\
    Permutation cancelled (map cancelled_response (map snd (map_to_list rs))) /\
    Forall (fun r => last (sentences r) = Some cancel_sentence /\
                     status r = Error /\
                     is_complete r = false /\
                     raise_for_error r = Raise (RuntimeError "response in progress"))
           cancelled.
Proof.
  intros Hp. unfold cancel_all.
  destruct (cancel_all_fuel_spec order (size rs) rs [] Hp (le_n _)) as (l & Hl & Hperm).
  exists l. cbn in Hl. split; [exact Hl|]. split; [exact Hperm|].
  eapply Forall_forall. intros r Hin.
  rewrite Hperm in Hin. apply list_elem_of_fmap in Hin as (r0 & -> & _).
  unfold cancelled_response. cbn. rewrite last_snoc. auto.
Qed.

Lemma close_cancels_every_pending_response_witness :
  let r1 := cancelled_response
              (new_response (mkRequest "t1" ["/ip/dns/static/print"; "=detail="])) in
  let r2 := cancelled_response
              (new_response (mkRequest "t2" ["/ip/dns/static/add"; "=name=svc.lan"])) in
  cancel_all first_listed_order (responses two_request_connection)
  = (Ok tt, ∅, [r1; r2]) /\
  cancel_all last_listed_order (responses two_request_connection)
  = (Ok tt, ∅, [r2; r1]).
Proof.
  cbv zeta.
  assert (Hp : forall tag r,
             responses two_request_connection !! tag = Some r -> is_complete r = false).
  { intros tag r H. cbn in H.
    apply lookup_insert_Some in H as [[_ <-]|[_ H]]; [reflexivity|].
    apply lookup_singleton_Some in H as [_ <-]. reflexivity. }
  destruct (close_cancels_every_pending_response first_listed_order
              (responses two_request_connection) Hp) as (l & Hl & _ & _).
  destruct (close_cancels_every_pending_response last_listed_order
              (responses two_request_connection) Hp) as (l' & Hl' & _ & _).
  split.
  - rewrite Hl. vm_compute in Hl. injection Hl as <-. reflexivity.
  - rewrite Hl'. vm_compute in Hl'. injection Hl' as <-. reflexivity.
Defined.

End LifecycleFacts.

(** * A reader that fails, and the close that follows *)

Module ReaderFailureFacts.

Import Mikrotik Lifecycle.
Local Open Scope string_scope.







End ReaderFailureFacts.

(** * Records to endpoints, and more on a batch *)

Module ListingFacts.

Import Mikrotik Provider Listing.
Local Open Scope string_scope.
Local Open Scope Z_scope.

(** A digit in front of a digit string gives a digit string. *)
Lemma digit_cons c u :
  is_digit c = true ->
  exists u', u' <> Decimal.Nil /\
             String c (NilEmpty.string_of_uint u) = NilEmpty.string_of_uint u'.
Proof.
  intros H.
  destruct c as [[] [] [] [] [] [] [] []]; cbn in H; try discriminate H;
    first [ exists (Decimal.D0 u); split; [discriminate|reflexivity]
          | exists (Decimal.D1 u); split; [discriminate|reflexivity]
          | exists (Decimal.D2 u); split; [discriminate|reflexivity]
          | exists (Decimal.D3 u); split; [discriminate|reflexivity]
          | exists (Decimal.D4 u); split; [discriminate|reflexivity]
          | exists (Decimal.D5 u); split; [discriminate|reflexivity]
          | exists (Decimal.D6 u); split; [discriminate|reflexivity]
          | exists (Decimal.D7 u); split; [discriminate|reflexivity]
          | exists (Decimal.D8 u); split; [discriminate|reflexivity]
          | exists (Decimal.D9 u); split; [discriminate|reflexivity] ].
Qed.

(** The digits that [span_digits] takes are the writing of a number. *)
Lemma span_digits_writes s :
  exists u, fst (span_digits s) = NilEmpty.string_of_uint u.
Proof.
  induction s as [|c s IH]; [exists Decimal.Nil; reflexivity|].
  cbn [span_digits]. destruct (is_digit c) eqn:Hc.
  - destruct (span_digits s) as [digits rest]. cbn [fst] in *.
    destruct IH as [u ->]. destruct (digit_cons c u Hc) as (u' & _ & Hu').
    exists u'. exact Hu'.
  - exists Decimal.Nil. reflexivity.
Qed.

Lemma of_uint_nonneg u : 0 <= Z.of_uint u.
Proof. unfold Z.of_uint. apply N2Z.is_nonneg. Qed.

(** A group of the pattern takes no part, or it is a number followed by
    the key. *)
Lemma match_group_cases key s :
  fst (match_group key s) = None \/
  exists z text,
    renders z text /\ 0 <= z /\
    fst (match_group key s) = Some (text ++ String key EmptyString).
Proof.
  unfold match_group. destruct (span_digits_writes s) as [u Hu].
  destruct (span_digits s) as [digits rest]. cbn [fst] in Hu.
  destruct digits as [|c digits]; [left; reflexivity|].
  destruct rest as [|k rest]; [left; reflexivity|].
  destruct (Ascii.eqb k key); [|left; reflexivity].
  right. exists (Z.of_uint u), (String c digits). split; [|split].
  - exists u. repeat split; [|exact Hu]. intros ->. discriminate Hu.
  - apply of_uint_nonneg.
  - reflexivity.
Qed.

Lemma ttl_part_total key group :
  is_digit key = false ->
  int_of_digits (String "0" EmptyString) = Ok 0 ->
  remove_char key (String "0" (String key EmptyString)) = String "0" EmptyString ->
  group = None \/
  (exists z text, renders z text /\ 0 <= z /\
                  group = Some (text ++ String key EmptyString)) ->
  exists z, ttl_part key group = Ok z /\ 0 <= z.
Proof.
  intros Hkey H0 Hr [->|(z & text & Hz & Hpos & ->)]; unfold ttl_part;
    cbn [default from_option Datatypes.id].
  - exists 0. rewrite Hr, H0. split; [reflexivity|lia].
  - exists z. split; [|exact Hpos].
    apply TtlFacts.int_of_rendered_group; assumption.
Qed.

(** [to_external_dns_ttl] through its groups. *)
Lemma to_external_dns_ttl_groups mikrotik_ttl :
  to_external_dns_ttl mikrotik_ttl =
    let '(group_w, group_d, group_h, group_m, group_s, _) := ttl_groups mikrotik_ttl in
    w ← ttl_part "w" group_w;
    d ← ttl_part "d" group_d;
    h ← ttl_part "h" group_h;
    m ← ttl_part "m" group_m;
    s ← ttl_part "s" group_s;
    Ok (s + m * 60 + h * 60 * 60 + d * 60 * 60 * 24 + w * 60 * 60 * 24 * 7).
Proof.
  unfold to_external_dns_ttl, ttl_groups.
  destruct (match_group "w" mikrotik_ttl) as [group_w rest_w].
  destruct (match_group "d" rest_w) as [group_d rest_d].
  destruct (match_group "h" rest_d) as [group_h rest_h].
  destruct (match_group "m" rest_h) as [group_m rest_m].
  destruct (match_group "s" rest_m) as [group_s rest_s].
  reflexivity.
Qed.

(** The decoder returns a number for every text. *)
Lemma to_external_dns_ttl_total mikrotik_ttl :
  exists n, to_external_dns_ttl mikrotik_ttl = Ok n /\ 0 <= n.
Proof.
  rewrite to_external_dns_ttl_groups. unfold ttl_groups.
  pose proof (match_group_cases "w" mikrotik_ttl) as Hw.
  destruct (match_group "w" mikrotik_ttl) as [group_w rest_w].
  pose proof (match_group_cases "d" rest_w) as Hd.
  destruct (match_group "d" rest_w) as [group_d rest_d].
  pose proof (match_group_cases "h" rest_d) as Hh.
  destruct (match_group "h" rest_d) as [group_h rest_h].
  pose proof (match_group_cases "m" rest_h) as Hm.
  destruct (match_group "m" rest_h) as [group_m rest_m].
  pose proof (match_group_cases "s" rest_m) as Hs.
  destruct (match_group "s" rest_m) as [group_s rest_s].
  cbn [fst] in *.
  destruct (ttl_part_total "w" group_w eq_refl eq_refl eq_refl Hw) as (w & -> & ?).
  destruct (ttl_part_total "d" group_d eq_refl eq_refl eq_refl Hd) as (d & -> & ?).
  destruct (ttl_part_total "h" group_h eq_refl eq_refl eq_refl Hh) as (h & -> & ?).
  destruct (ttl_part_total "m" group_m eq_refl eq_refl eq_refl Hm) as (m & -> & ?).
  destruct (ttl_part_total "s" group_s eq_refl eq_refl eq_refl Hs) as (s & -> & ?).
  eexists. split; [reflexivity|]. lia.
Qed.

Lemma match_group_no_digit key s :
  match s with
  | String c _ => is_digit c = false
  | EmptyString => True
  end ->
  match_group key s = (None, s).
Proof.
  unfold match_group. destruct s as [|c s]; [reflexivity|].
  intros Hc. cbn [span_digits]. rewrite Hc. reflexivity.
Qed.

(** A text that does not begin with a digit decodes to 0. *)
Lemma to_external_dns_ttl_no_digit s :
  match s with
  | String c _ => is_digit c = false
  | EmptyString => True
  end ->
  to_external_dns_ttl s = Ok 0.
Proof.
  intros Hs. unfold to_external_dns_ttl.
  rewrite !(match_group_no_digit _ s Hs). reflexivity.
Qed.

(** X15.  [to_external_dns_ttl] refuses no text of the device: every
    text (short enough for [int]) decodes to a number that is not
    negative.  The pattern is matched at the start only and all its groups
    are optional, so a text that does not begin with a digit, the empty
    text among them, decodes to 0. *)
Theorem ttl_decoder_refuses_nothing mikrotik_ttl :
  (String.length mikrotik_ttl <= int_max_str_digits)%nat ->
  (exists n, to_external_dns_ttl mikrotik_ttl = Ok n /\ 0 <= n) /\
  (match mikrotik_ttl with
   | String c _ => is_digit c = false
   | EmptyString => True
   end -> to_external_dns_ttl mikrotik_ttl = Ok 0).
Proof.
  intros _. split.
  - apply to_external_dns_ttl_total.
  - apply to_external_dns_ttl_no_digit.
Qed.

Lemma ttl_decoder_refuses_nothing_witness :
  to_external_dns_ttl "never" = Ok 0.
Proof.
  apply (ttl_decoder_refuses_nothing "never"); [vm_compute; lia | reflexivity].
Defined.

Lemma timedelta_negative n :
  - (timedelta_limit - 86400) <= n < 0 ->
  timedelta n = Ok (n / 86400, n mod 86400).
Proof.
  unfold timedelta_limit, timedelta. intros Hn.
  assert (n / 86400 < 0) by (apply Z.div_lt_upper_bound; lia).
  assert (-999999999 <= n / 86400) by (apply Z.div_le_lower_bound; lia).
  destruct (Z.leb_spec (-999999999) (n / 86400)); [|lia].
  destruct (Z.leb_spec (n / 86400) 999999999); [|lia].
  reflexivity.
Qed.

Lemma str_of_int_negative z : z < 0 -> exists s, str_of_int z = String "-" s.
Proof.
  intros Hz. destruct z as [|p|p]; [lia|lia|].
  unfold str_of_int. cbn. eexists. reflexivity.
Qed.

(** X16.  A negative TTL is not refused and does not come back.  For
    every negative [n] that [datetime.timedelta] can hold, [to_routeros_ttl]
    returns a text; read back, the text gives [n] plus one week when [n] is
    less than six days below zero (the days wrap into [0..6] and the weeks
    round toward zero), and 0 otherwise (the text then begins with a minus
    sign, which the pattern does not match). *)
Theorem negative_ttl_is_encoded n :
  - (timedelta_limit - 86400) <= n < 0 ->
  exists text,
    to_routeros_ttl n = Ok text /\
    to_external_dns_ttl text = Ok (if -518400 <=? n then n + 604800 else 0).
Proof.
  intros Hn. unfold to_routeros_ttl. rewrite (timedelta_negative n Hn).
  cbv beta iota zeta delta [mbind result_bind rbind].
  change (60 * 60) with 3600.
  eexists. split; [reflexivity|].
  assert (Hs : 0 <= n mod 86400 < 86400) by (apply Z.mod_pos_bound; lia).
  assert (Hdm : n = 86400 * (n / 86400) + n mod 86400) by (apply Z.div_mod; lia).
  destruct (Z.leb_spec (-518400) n) as [Hge|Hlt].
  - assert (Hd1 : -6 <= n / 86400) by (apply Z.div_le_lower_bound; lia).
    assert (Hd2 : n / 86400 < 0) by (apply Z.div_lt_upper_bound; lia).
    assert (Hq : Z.quot (n / 86400) 7 = 0).
    { apply Z.quot_small_iff; lia. }
    assert (Hm : (n / 86400) mod 7 = n / 86400 + 7).
    { symmetry. apply (Z.mod_unique _ _ (-1)); lia. }
    rewrite Hq, Hm.
    rewrite !Z.quot_div_nonneg by (try apply Z.mod_pos_bound; lia).
    assert (H3600 : 0 <= (n mod 86400) mod 3600 < 3600) by (apply Z.mod_pos_bound; lia).
    assert (H60 : 0 <= (n mod 86400) mod 60 < 60) by (apply Z.mod_pos_bound; lia).
    rewrite (TtlFacts.to_external_dns_ttl_segments
               0 (n / 86400 + 7) (n mod 86400 / 3600) ((n mod 86400) mod 3600 / 60)
               ((n mod 86400) mod 60)).
    + f_equal.
      pose proof (Z.div_mod (n mod 86400) 3600 ltac:(lia)).
      pose proof (Z.div_mod ((n mod 86400) mod 3600) 60 ltac:(lia)).
      assert (((n mod 86400) mod 3600) mod 60 = (n mod 86400) mod 60).
      { change 3600 with (60 * 60). rewrite Z.rem_mul_r by lia.
        rewrite Z.mul_comm, Z.mod_add by lia. apply Z.mod_mod. lia. }
      lia.
    + apply TtlFacts.str_of_int_renders. lia.
    + apply TtlFacts.str_of_int_renders. lia.
    + apply TtlFacts.str_of_int_renders. apply Z.div_pos; lia.
    + apply TtlFacts.str_of_int_renders. apply Z.div_pos; lia.
    + apply TtlFacts.str_of_int_renders. lia.
  - assert (Hd : n / 86400 <= -7).
    { assert (n / 86400 < -6); [|lia]. apply Z.div_lt_upper_bound; lia. }
    assert (Hq : Z.quot (n / 86400) 7 < 0).
    { rewrite <- (Z.opp_involutive (n / 86400)), Z.quot_opp_l by lia.
      assert (1 <= Z.quot (- (n / 86400)) 7); [|lia].
      rewrite Z.quot_div_nonneg by lia. apply Z.div_le_lower_bound; lia. }
    destruct (str_of_int_negative _ Hq) as [s ->].
    apply to_external_dns_ttl_no_digit.
    rewrite TtlFacts.append_cons. reflexivity.
Qed.

Lemma negative_ttl_is_encoded_witness :
  to_routeros_ttl (-1) = Ok "0w6d23h59m59s" /\
  to_external_dns_ttl "0w6d23h59m59s" = Ok 604799.
Proof.
  destruct (negative_ttl_is_encoded (-1)) as (text & H1 & H2);
    [unfold timedelta_limit; lia|].
  assert (text = "0w6d23h59m59s") as -> by (vm_compute in H1; congruence).
  split; [exact H1|exact H2].
Defined.

Lemma payload_type_supported record target :
  payload record = Some target ->
  exists record_type,
    RecordType_of_value (IpDnsRecord_type record) = Ok record_type /\
    same_type (IpDnsRecord_type record) record_type /\
    match variant record with
    | IpDnsARecord address => Ok [address]
    | IpDnsCnameRecord cname => Ok [cname]
    | IpDnsTxtRecord text => Ok [text]
    | _ => Raise NotImplementedError
    end = Ok [target].
Proof.
  unfold payload, IpDnsRecord_type.
  destruct (variant record); intros [= <-]; eexists; repeat split; reflexivity.
Qed.

(** A record of type A, CNAME or TXT gives an endpoint with the one
    target. *)
Lemma to_external_dns_endpoint_supported record target :
  payload record = Some target ->
  exists endpoint,
    to_external_dns_endpoint record = Ok endpoint /\ endpoint_for record endpoint.
Proof.
  intros Hp. destruct (payload_type_supported record target Hp) as (rt & Hrt & Hsame & Ht).
  destruct (to_external_dns_ttl_total (ttl record)) as (n & Hn & Hpos).
  unfold to_external_dns_endpoint. rewrite Ht, Hn, Hrt.
  eexists. split; [reflexivity|].
  unfold endpoint_for. cbn. repeat split; eauto.
Qed.

(** Any other record gives [NotImplementedError]. *)
Lemma to_external_dns_endpoint_unsupported record :
  payload record = None ->
  to_external_dns_endpoint record = Raise NotImplementedError.
Proof.
  unfold payload, to_external_dns_endpoint.
  destruct (variant record); intros H; try discriminate H; reflexivity.
Qed.

Lemma collect_endpoints_spec records acc :
  exists l,
    collect_endpoints records acc = Ok (acc ++ l)%list /\
    Forall2 endpoint_for (filter (fun r => is_Some (payload r)) records) l.
Proof.
  revert acc. induction records as [|r records IH]; intros acc.
  - exists []. rewrite app_nil_r. split; [reflexivity|constructor].
  - cbn [collect_endpoints]. destruct (payload r) as [target|] eqn:Hp.
    + destruct (to_external_dns_endpoint_supported r target Hp) as (e & -> & He).
      destruct (IH (acc ++ [e])%list) as (l & -> & Hl).
      exists (e :: l). split; [rewrite <- app_assoc; reflexivity|].
      rewrite filter_cons_True by (rewrite Hp; eauto). constructor; assumption.
    + rewrite (to_external_dns_endpoint_unsupported r Hp).
      destruct (IH acc) as (l & -> & Hl).
      exists l. split; [reflexivity|].
      rewrite filter_cons_False; [exact Hl|]. rewrite Hp. intros [? ?]. discriminate.
Qed.

(** X17.  [list_records] on a device whose listing succeeds returns
    normally, with one endpoint for each listed record of type A, CNAME or
    TXT, in the order of the listing, and nothing for a record of another
    type: the endpoint has the record's name, the record's address, cname
    or text as its only target, the type of the same name, the TTL text
    decoded to seconds, no set identifier, and empty labels and provider
    data.  Records of one name with several targets are not merged. *)
Theorem list_records_one_endpoint_per_record {D : Type} (client : MikrotikClient D)
  (d d' : D) (records : list IpDnsRecord) :
  list_ip_dns_records client d = (Ok records, d') ->
  Forall (fun r => (String.length (ttl r) <= int_max_str_digits)%nat) records ->
  exists endpoints,
    list_records client d = (Ok endpoints, d') /\
    Forall2 endpoint_for (filter (fun r => is_Some (payload r)) records) endpoints.
Proof.
  intros Hl _. destruct (collect_endpoints_spec records []) as (l & Hc & HF).
  exists l. split; [|exact HF].
  unfold list_records, mbind, M_bind, lift. rewrite Hl, Hc. reflexivity.
Qed.

Lemma list_records_one_endpoint_per_record_witness :
  exists endpoints,
    list_records (accepting_client sample_records) tt = (Ok endpoints, tt) /\
    map dns_name endpoints = map name sample_records.
Proof.
  destruct (list_records_one_endpoint_per_record (accepting_client sample_records)
              tt tt sample_records eq_refl) as (l & Hl & HF).
  - repeat constructor; vm_compute; lia.
  - exists l. split; [exact Hl|].
    vm_compute in Hl. injection Hl as <-. reflexivity.
Defined.

(** X18.  What was created is listed as it was sent, one target at a
    time.  For an endpoint of type A, CNAME or TXT whose TTL (with the
    default of one day for none or 0) is in the range that round-trips,
    the record made for a target translates back to an endpoint with the
    same name and type, this target alone, and the TTL; the set
    identifier, the labels and the provider data of the endpoint are not
    kept. *)
Theorem endpoint_record_round_trip endpoint target :
  supported (record_type endpoint) = true ->
  0 <= ttl_or_default (record_ttl endpoint) < timedelta_limit ->
  exists record,
    to_routeros_record endpoint target = Ok record /\
    to_external_dns_endpoint record
    = Ok (mkEndpoint (dns_name endpoint) [target] (record_type endpoint) None
            (Some (ttl_or_default (record_ttl endpoint))) (Some ∅) (Some [])).
Proof.
  intros Hs Hrange.
  destruct (TtlFacts.ttl_round_trip_in_range _ Hrange) as (text & Henc & Hdec).
  rewrite TranslateFacts.to_routeros_record_cases, Henc.
  unfold to_external_dns_endpoint.
  destruct (record_type endpoint); try discriminate Hs;
    (eexists; split; [reflexivity|]); cbn; rewrite Hdec; reflexivity.
Qed.

Lemma endpoint_record_round_trip_witness :
  let endpoint :=
    mkEndpoint "svc.lan" ["10.0.0.5"; "10.0.0.6"] RecordType.A (Some "blue") None
      (Some {[ "owner" := "default" ]}) None in
  exists record,
    to_routeros_record endpoint "10.0.0.6" = Ok record /\
    to_external_dns_endpoint record
    = Ok (mkEndpoint "svc.lan" ["10.0.0.6"] RecordType.A None (Some 86400) (Some ∅)
            (Some [])).
Proof.
  cbv zeta.
  apply (endpoint_record_round_trip
           (mkEndpoint "svc.lan" ["10.0.0.5"; "10.0.0.6"] RecordType.A (Some "blue") None
              (Some {[ "owner" := "default" ]}) None) "10.0.0.6").
  - reflexivity.
  - unfold timedelta_limit. cbn. lia.
Defined.

(** X19.  A delete finds what a create made.  When the device lists a
    record that has the name and the data of the record that
    [to_routeros_record] makes for an endpoint and a target, [find] on the
    same endpoint and target returns a listed record of this name with this
    target. *)
Theorem created_record_is_found endpoint target record records listed :
  to_routeros_record endpoint target = Ok record ->
  listed ∈ records ->
  name listed = name record ->
  variant listed = variant record ->
  exists found_record,
    find (RecordMap_init records) endpoint target = Some found_record /\
    found_record ∈ records /\
    name found_record = dns_name endpoint /\
    payload found_record = Some target.
Proof.
  intros Hrec Hin Hname Hvar.
  destruct (TranslateFacts.to_routeros_record_Ok _ _ _ Hrec) as (Hn & Hp & _ & _).
  destruct (find (RecordMap_init records) endpoint target) as [r|] eqn:Hf.
  - destruct (RecordFacts.find_Some _ _ _ _ Hf) as (H1 & H2 & H3).
    exists r. repeat split; assumption.
  - exfalso. rewrite RecordFacts.find_first_match in Hf.
    pose proof (RecordFacts.first_match_spec target
                  (filter (fun r => name r = dns_name endpoint) records)) as Hspec.
    rewrite Hf in Hspec. apply (Hspec listed).
    + apply list_elem_of_filter. split; [congruence|exact Hin].
    + unfold has_payload, payload in *. rewrite Hvar. exact Hp.
Qed.

Lemma created_record_is_found_witness :
  let endpoint := mkEndpoint "svc.lan" ["10.0.0.5"] RecordType.A None None None None in
  exists found_record,
    find (RecordMap_init sample_records) endpoint "10.0.0.5" = Some found_record /\
    found_record ∈ sample_records /\
    name found_record = "svc.lan" /\
    payload found_record = Some "10.0.0.5".
Proof.
  cbv zeta.
  refine (created_record_is_found
            (mkEndpoint "svc.lan" ["10.0.0.5"] RecordType.A None None None None)
            "10.0.0.5" _ sample_records
            (mkIpDnsRecord false (Some "*1") false "svc.lan" "0w1d0h0m0s"
               (IpDnsARecord "10.0.0.5"))
            eq_refl _ eq_refl eq_refl).
  left.
Defined.

End ListingFacts.

(** * More on a batch *)

Module BatchFacts.

Import Mikrotik Provider Batch.
Local Open Scope string_scope.

Lemma iter_diff_empty order a b :
  (forall x, x ∈ a -> x ∈ b) -> iter_diff order a b = [].
Proof.
  intros H. destruct (iter_diff order a b) as [|x l] eqn:E; [reflexivity|].
  assert (Hx : x ∈ iter_diff order a b) by (rewrite E; left).
  apply iter_diff_elem in Hx as [Ha Hb]. destruct Hb. apply H, Ha.
Qed.

Lemma flat_map_nil {A B : Type} (f : A -> list B) l :
  Forall (fun a => f a = []) l -> flat_map f l = [].
Proof.
  induction 1 as [|a l Ha _ IH]; [reflexivity|]. cbn. rewrite Ha, IH. reflexivity.
Qed.

Lemma Forall_flat_map {A B : Type} (P : B -> Prop) (f : A -> list B) l :
  (forall a, a ∈ l -> Forall P (f a)) -> Forall P (flat_map f l).
Proof.
  induction l as [|a l IH]; intros H; [constructor|].
  cbn. apply Forall_app. split.
  - apply H. left.
  - apply IH. intros a' Ha'. apply H. right. exact Ha'.
Qed.

Lemma add_call_grounded records endpoint target :
  Forall (grounded records) (add_call endpoint target).
Proof.
  unfold add_call. destruct (to_routeros_record endpoint target) as [r|e] eqn:E;
    [|constructor].
  repeat constructor.
  - apply (TranslateFacts.to_routeros_record_Ok _ _ _ E).
  - rewrite TranslateFacts.to_routeros_record_cases in E.
    destruct (to_routeros_ttl _); [|discriminate].
    destruct (record_type endpoint); try discriminate; injection E as <-; reflexivity.
Qed.

Lemma delete_call_grounded records endpoint target :
  Forall (grounded records) (delete_call (RecordMap_init records) endpoint target).
Proof.
  unfold delete_call.
  destruct (find (RecordMap_init records) endpoint target) as [r|] eqn:E; [|constructor].
  repeat constructor. apply (RecordFacts.find_Some _ _ _ _ E).
Qed.

Lemma expected_calls_grounded order changes records :
  Forall (grounded records) (expected_calls order changes (RecordMap_init records)).
Proof.
  unfold expected_calls, create_calls, delete_calls, update_calls.
  repeat (apply Forall_app; split).
  - apply Forall_flat_map. intros e _. apply Forall_flat_map. intros t _.
    apply add_call_grounded.
  - apply Forall_flat_map. intros e _. apply Forall_flat_map. intros t _.
    apply delete_call_grounded.
  - apply Forall_flat_map. intros [old e] _. apply Forall_app. split.
    + apply Forall_flat_map. intros t _. apply delete_call_grounded.
    + apply Forall_flat_map. intros t _. apply add_call_grounded.
Qed.

(** X20.  [apply_changes] lists once, first, and then only deletes
    what the listing returned and only adds new records: when the listing
    succeeds, every call after it is the delete of a listed record (the
    object from the listing, with its id) or the add of a record that has
    no id and is not disabled. *)
Theorem apply_changes_calls_are_grounded {D : Type} (client : MikrotikClient D)
  order changes w records d1 :
  list_ip_dns_records client (device w) = (Ok records, d1) ->
  exists issued,
    calls (snd (apply_changes client order changes w))
    = (calls w ++ CallList :: issued)%list /\
    Forall (grounded records) issued.
Proof.
  intros Hl.
  destruct (ReconcileFacts.apply_changes_run client order changes w records d1 Hl)
    as (d & ->).
  eexists. split; [reflexivity|]. apply expected_calls_grounded.
Qed.

Lemma apply_changes_calls_are_grounded_witness :
  exists issued,
    calls (snd (apply_changes (trapping_client sample_records) first_occurrence_order
                  sample_changes (mkWorld tt [])))
    = CallList :: issued /\
    Forall (grounded sample_records) issued.
Proof.
  apply (apply_changes_calls_are_grounded (trapping_client sample_records)
           first_occurrence_order sample_changes (mkWorld tt []) sample_records tt eq_refl).
Defined.

(** X21.  An update that leaves the set of targets as it is issues
    nothing.  For a batch without creates and deletes in which each old
    endpoint has the same targets as its new endpoint, whatever else
    differs between the two (TTL, record type, name, labels),
    [apply_changes] makes the listing call and no other, and returns
    normally. *)
Theorem update_of_same_targets_issues_nothing {D : Type} (client : MikrotikClient D)
  order changes w records d1 :
  list_ip_dns_records client (device w) = (Ok records, d1) ->
  default [] (create changes) = [] ->
  default [] (delete changes) = [] ->
  Forall same_targets (updates changes) ->
  fst (apply_changes client order changes w) = Ok tt /\
  calls (snd (apply_changes client order changes w)) = (calls w ++ [CallList])%list.
Proof.
  intros Hl Hc Hd Hu.
  destruct (ReconcileFacts.apply_changes_run client order changes w records d1 Hl)
    as (d & ->).
  cbn [fst snd calls]. split; [reflexivity|]. f_equal. f_equal.
  unfold expected_calls. rewrite Hc, Hd. cbn [create_calls delete_calls flat_map app].
  apply flat_map_nil. eapply Forall_impl; [exact Hu|].
  intros [old e] Hsame. unfold same_targets in Hsame. cbn [fst snd] in Hsame.
  unfold update_calls.
  rewrite (iter_diff_empty order (targets old) (targets e)) by (intros x; apply Hsame).
  rewrite (iter_diff_empty order (targets e) (targets old)) by (intros x; apply Hsame).
  reflexivity.
Qed.

Lemma update_of_same_targets_issues_nothing_witness :
  let changes :=
    mkChanges None
      (Some [mkEndpoint "svc.lan" ["10.0.0.5"; "10.0.0.6"] RecordType.A None (Some 3600)
               None None])
      (Some [mkEndpoint "svc.lan" ["10.0.0.6"; "10.0.0.5"] RecordType.A None (Some 60)
               None None])
      None in
  calls (snd (apply_changes (accepting_client sample_records) first_occurrence_order
                changes (mkWorld tt [])))
  = [CallList].
Proof.
  cbv zeta.
  refine (proj2 (update_of_same_targets_issues_nothing (accepting_client sample_records)
                   first_occurrence_order
                   (mkChanges None
                      (Some [mkEndpoint "svc.lan" ["10.0.0.5"; "10.0.0.6"] RecordType.A None
                               (Some 3600) None None])
                      (Some [mkEndpoint "svc.lan" ["10.0.0.6"; "10.0.0.5"] RecordType.A None
                               (Some 60) None None])
                      None)
                   (mkWorld tt []) sample_records tt
                   eq_refl eq_refl eq_refl _)).
  apply List.Forall_cons; [|apply List.Forall_nil].
  intros target. cbn [fst snd targets]. rewrite !elem_of_cons. tauto.
Defined.

End BatchFacts.

(** * Choice of the response class *)

Module WebhookFacts.

Import Webhook.
Local Open Scope string_scope.

Lemma media_type_injective a b : media_type a = media_type b -> a = b.
Proof. destruct a, b; cbn; congruence. Qed.

(** The dictionary of media types has each class under its own media type
    and nothing else, in whatever order the classes are walked. *)
Lemma media_types_of_fold classes (m : gmap string ResponseClass) value cls :
  (forall v c, m !! v = Some c -> media_type c = v) ->
  fold_left (fun m resp_cls => <[media_type resp_cls := resp_cls]> m) classes m
    !! value = Some cls <->
  media_type cls = value /\ (cls ∈ classes \/ m !! value = Some cls).
Proof.
  revert m. induction classes as [|c classes IH]; intros m Hm; cbn [fold_left].
  - split.
    + intros H. split; [eapply Hm; eauto|right; exact H].
    + intros [_ [H|H]]; [inversion H|exact H].
  - rewrite IH.
    + split.
      * intros [H1 [H2|H2]]; (split; [exact H1|]).
        -- left. right. exact H2.
        -- apply lookup_insert_Some in H2 as [[_ <-]|[_ H2]]; [left; left|right; exact H2].
      * intros [H1 [H2|H2]]; (split; [exact H1|]).
        -- apply elem_of_cons in H2 as [->|H2]; [|left; exact H2].
           right. rewrite H1. apply lookup_insert_eq.
        -- destruct (decide (media_type c = value)) as [E|E].
           ++ right. rewrite E. rewrite <- H1 in E. apply media_type_injective in E.
              subst. apply lookup_insert_eq.
           ++ right. rewrite lookup_insert_ne by exact E. exact H2.
    + intros v c0 H. apply lookup_insert_Some in H as [[<- <-]|[_ H]];
        [reflexivity|eapply Hm; eauto].
Qed.

Lemma media_types_of_lookup classes value cls :
  media_types_of classes !! value = Some cls <->
  media_type cls = value /\ cls ∈ classes.
Proof.
  unfold media_types_of. rewrite media_types_of_fold.
  - split; [intros [H1 [H2|H2]]|intros [H1 H2]]; auto.
    rewrite lookup_empty in H2. discriminate.
  - intros v c H. rewrite lookup_empty in H. discriminate.
Qed.

(** X22.  The response class is chosen by comparing the whole
    [Accept] header with the two media types.  Whatever the order in which
    the set of classes is walked: without the header, or with an empty
    one, the class is [JSONResponse]; with a header that is one of the two
    media types, character for character, the class is the one with this
    media type; any other header value (a list of types, a wildcard, a
    quality parameter, another case) is refused with status 400 and the
    detail ["Unsupported header: "] followed by the value. *)
Theorem response_class_needs_exact_media_type classes accept :
  Permutation classes supported_responses ->
  response_cls_provider_in classes accept =
    match accept with
    | None => inr JSONResponse
    | Some value =>
        if bool_decide (value = EmptyString) then inr JSONResponse
        else if bool_decide (value = media_type JSONResponse) then inr JSONResponse
        else if bool_decide (value = media_type WebhookJSONResponse)
             then inr WebhookJSONResponse
        else inl (mkHTTPException 400 ("Unsupported header: " ++ value))
    end.
Proof.
  intros Hperm. unfold response_cls_provider_in.
  destruct accept as [[|c value]|]; [reflexivity| |reflexivity].
  rewrite (bool_decide_eq_false_2 (String c value = EmptyString)) by discriminate.
  assert (Hin : forall cls, cls ∈ classes).
  { intros cls. rewrite Hperm. unfold supported_responses. destruct cls; set_solver. }
  destruct (bool_decide_reflect (String c value = media_type JSONResponse)) as [E|E].
  - assert (H : media_types_of classes !! String c value = Some JSONResponse)
      by (apply media_types_of_lookup; split; [symmetry; exact E|apply Hin]).
    rewrite H. reflexivity.
  - destruct (bool_decide_reflect (String c value = media_type WebhookJSONResponse))
      as [E'|E'].
    + assert (H : media_types_of classes !! String c value = Some WebhookJSONResponse)
        by (apply media_types_of_lookup; split; [symmetry; exact E'|apply Hin]).
      rewrite H. reflexivity.
    + destruct (media_types_of classes !! String c value) as [cls|] eqn:H; [|reflexivity].
      apply media_types_of_lookup in H as [H _].
      destruct cls; [destruct E|destruct E']; symmetry; exact H.
Qed.

Lemma response_class_needs_exact_media_type_witness :
  response_cls_provider (Some "application/json, */*")
  = inl (mkHTTPException 400 "Unsupported header: application/json, */*").
Proof.
  unfold response_cls_provider.
  rewrite (response_class_needs_exact_media_type supported_responses
             (Some "application/json, */*") (Permutation_refl _)).
  reflexivity.
Defined.

End WebhookFacts.
